(** * CCS fuel ledger: a shallow embedding of the store and its operations

    The JavaScript application keeps one mutable document [DB] (module
    [db.js]) and mutates it from event handlers that read their arguments
    from DOM inputs.  The embedding below follows the modules one by one:

    - the store is a record of finite maps ([gmap] keyed by strings), as the
      JS objects are used;
    - every handler is a function of the store and of the values the handler
      reads from the DOM (text of inputs, attributes of entry cards, answers
      to [confirm] dialogs, the clock), returning an [Outcome] and the new
      store;
    - a handler that returns early, alerts, or throws leaves the store as it
      is at that point.

    Numbers: litres are JS numbers, that is IEEE doubles.  They are modelled
    as [Z]: the embedding covers whole numbers of litres, on which the
    additions, subtractions and comparisons of the code are exact as long as
    the magnitudes involved stay below [2^53]; the properties that depend on
    exact sums say so.  Blank number inputs read as [0] (as [+""] does), and
    [NaN] appears only where the code tests for it ([saveAllocEdit]).
    Strings are compared as byte strings, which agrees with JS on the ASCII
    dates and names the application uses.  The enumeration order of object
    keys is the order of the finite map.  A JS object is the finite map of
    its own properties; the names every object inherits from
    [Object.prototype] are modelled where a handler tests [m[k]] before it
    writes and where it assigns a string or a number to [m[k]]
    ([JS.has], [JS.assign]).  The status of an order is one of the two
    strings the handlers write. *)

From Stdlib Require Import ZArith String Ascii List Lia Permutation.
From stdpp Require Import gmap strings list fin_maps.

Open Scope string_scope.
Open Scope Z_scope.

(** ** JavaScript helpers *)

Module JS.

(** White space removed by [String.prototype.trim], ASCII part. *)
Definition is_space (a : ascii) : bool :=
  let n := N_of_ascii a in
  (N.eqb n 32 || (N.leb 9 n && N.leb n 13))%bool.

Fixpoint trimStart (s : string) : string :=
  match s with
  | EmptyString => EmptyString
  | String a s' => if is_space a then trimStart s' else s
  end.

Fixpoint trimEnd (s : string) : string :=
  match s with
  | EmptyString => EmptyString
  | String a s' =>
      match trimEnd s' with
      | EmptyString => if is_space a then EmptyString else String a EmptyString
      | t => String a t
      end
  end.

Definition trim (s : string) : string := trimEnd (trimStart s).

(** Truthiness of a string and of a number. *)
Definition truthy_str (s : string) : bool := negb (String.eqb s "").
Definition truthy_num (z : Z) : bool := negb (Z.eqb z 0).

(** [a || b] on strings. *)
Definition or_str (a b : string) : string := if truthy_str a then a else b.

(** Sum of a list of numbers: [xs.reduce((a, b) => a + b, 0)]. *)
Definition sum (xs : list Z) : Z := foldr Z.add 0 xs.

(** [Object.values(m)] and [Object.keys(m)]. *)
Definition values {A} (m : gmap string A) : list A := (map_to_list m).*2.
Definition keys {A} (m : gmap string A) : list string := (map_to_list m).*1.

(** [xs.indexOf(x)]; [None] stands for [-1]. *)
Fixpoint indexOf (x : string) (xs : list string) : option nat :=
  match xs with
  | [] => None
  | y :: ys => if String.eqb y x then Some 0%nat else S <$> indexOf x ys
  end.

(** [xs.splice(i, 1)]. *)
Definition splice1 {A} (i : nat) (xs : list A) : list A := delete i xs.

(** The property names that every object inherits from [Object.prototype].
    Reading [m[k]] for such a name gives a function (for [__proto__] the
    prototype itself) unless [m] has a property [k] of its own. *)
Definition inherited (k : string) : bool :=
  bool_decide (k ∈ ["constructor"; "__proto__"; "hasOwnProperty"; "isPrototypeOf";
                    "propertyIsEnumerable"; "toLocaleString"; "toString"; "valueOf";
                    "__defineGetter__"; "__defineSetter__";
                    "__lookupGetter__"; "__lookupSetter__"]).

(** [m[k]] used as a condition on a map of objects: a property of its own
    is an object, which is truthy, and so is what an inherited name gives. *)
Definition has {A} (m : gmap string A) (k : string) : bool :=
  bool_decide (is_Some (m !! k)) || inherited k.

(** [m[k] = v] for a string or a number [v].  For [k = "__proto__"] the
    assignment reaches the setter of [Object.prototype], which ignores a
    value that is not an object, unless [m] has a property of that name of
    its own. *)
Definition assign {A} (k : string) (v : A) (m : gmap string A) : gmap string A :=
  if String.eqb k "__proto__" && negb (bool_decide (is_Some (m !! k))) then m
  else <[k := v]> m.

End JS.

(** ** Data model ([db.js] and the object literals of the modules) *)

Inductive Status := OPEN | CLOSED.

#[export] Instance Status_eq_dec : EqDecision Status.
Proof. solve_decision. Defined.

Record Order := mkOrder {
  orderNo : string;
  vehiclePlate : string;
  totalLiters : Z;
  suppliedTotal : Z;
  allocations : gmap string Z;
  status : Status;
  createdDate : string;
  overageComments : option (gmap string string)
}.

(** A daily entry.  Allocated entries are written as
    [{ orderNo, technician, supplied }], unallocated ones as
    [{ technician, supplied, comment, unallocated: true }]; the missing
    properties are [None] and [false]. *)
Record Entry := mkEntry {
  entryOrderNo : option string;
  technician : string;
  supplied : Z;
  comment : option string;
  unallocated : bool
}.

Record Region := mkRegion {
  technicians : list string;
  technicianPlates : gmap string string;
  orders : gmap string Order;
  dailyLog : gmap string (list Entry)
}.

Record DB := mkDB {
  currentRegion : string;
  regions : gmap string Region
}.

Definition emptyRegion : Region :=
  {| technicians := []; technicianPlates := ∅; orders := ∅; dailyLog := ∅ |}.

Definition DB_DEFAULT : DB :=
  {| currentRegion := "New CCS"; regions := {["New CCS" := emptyRegion]} |}.

(** Field updates. *)
Definition set_status (s : Status) (o : Order) : Order :=
  mkOrder (orderNo o) (vehiclePlate o) (totalLiters o) (suppliedTotal o)
          (allocations o) s (createdDate o) (overageComments o).
Definition set_suppliedTotal (z : Z) (o : Order) : Order :=
  mkOrder (orderNo o) (vehiclePlate o) (totalLiters o) z
          (allocations o) (status o) (createdDate o) (overageComments o).
Definition set_allocations (a : gmap string Z) (o : Order) : Order :=
  mkOrder (orderNo o) (vehiclePlate o) (totalLiters o) (suppliedTotal o)
          a (status o) (createdDate o) (overageComments o).
Definition set_createdDate (d : string) (o : Order) : Order :=
  mkOrder (orderNo o) (vehiclePlate o) (totalLiters o) (suppliedTotal o)
          (allocations o) (status o) d (overageComments o).
Definition set_overageComments (c : option (gmap string string)) (o : Order) : Order :=
  mkOrder (orderNo o) (vehiclePlate o) (totalLiters o) (suppliedTotal o)
          (allocations o) (status o) (createdDate o) c.

Definition set_supplied (z : Z) (e : Entry) : Entry :=
  mkEntry (entryOrderNo e) (technician e) z (comment e) (unallocated e).
Definition set_comment (c : option string) (e : Entry) : Entry :=
  mkEntry (entryOrderNo e) (technician e) (supplied e) c (unallocated e).
Definition set_technician (t : string) (e : Entry) : Entry :=
  mkEntry (entryOrderNo e) t (supplied e) (comment e) (unallocated e).

Definition set_technicians (ts : list string) (r : Region) : Region :=
  mkRegion ts (technicianPlates r) (orders r) (dailyLog r).
Definition set_technicianPlates (p : gmap string string) (r : Region) : Region :=
  mkRegion (technicians r) p (orders r) (dailyLog r).
Definition set_orders (os : gmap string Order) (r : Region) : Region :=
  mkRegion (technicians r) (technicianPlates r) os (dailyLog r).
Definition set_dailyLog (l : gmap string (list Entry)) (r : Region) : Region :=
  mkRegion (technicians r) (technicianPlates r) (orders r) l.

Definition set_regions (rs : gmap string Region) (db : DB) : DB :=
  mkDB (currentRegion db) rs.
Definition set_currentRegion (c : string) (db : DB) : DB :=
  mkDB c (regions db).

(** ** What a handler reports *)

Inductive Alert :=
  | InvalidOrDuplicateOrder | FillAllocationFields | AlreadyAllocated
  | AllocationExceedsTotal | SelectDate | InvalidAmount | WouldExceedTotal
  | ReasonRequired | NewOrderNoRequired | OrderExists
  | SelectDateFirst | NoEntries | InvalidLitres | CommentRequired
  | OnlyRegion | TechnicianExists | NameRequired | RegionExists
  | InvalidBackup | RestoreFailed.

Inductive Outcome :=
  | Done                              (* ran to the end *)
  | DoneCounts (saved skipped : nat)  (* [saveDaily]: the two counters *)
  | Alerted (a : Alert)               (* [return alert(...)] *)
  | Returned                          (* silent early [return] *)
  | Threw.                            (* TypeError on an undefined object *)

(** [DB.regions[DB.currentRegion]] and writing it back.  Reading a property
    of the undefined region throws. *)
Definition theRegion (db : DB) : option Region := regions db !! currentRegion db.

Definition putRegion (r : Region) (db : DB) : DB :=
  set_regions (<[currentRegion db := r]> (regions db)) db.

Definition withRegion (db : DB) (k : Region → Outcome * DB) : Outcome * DB :=
  match theRegion db with
  | Some r => k r
  | None => (Threw, db)
  end.

(** The current region (empty when the pointer dangles), one of its orders,
    and its log of one date. *)
Definition regionOf (db : DB) : Region := default emptyRegion (theRegion db).

Definition orderOf (no : string) (db : DB) : option Order := orders (regionOf db) !! no.

Definition logOf (date : string) (db : DB) : option (list Entry) := dailyLog (regionOf db) !! date.

(** The inputs that handlers read from the page besides their arguments:
    the three filters of the orders page and whether that page is shown. *)
Record UI := mkUI {
  orderFilterFrom : string;
  orderFilterTo : string;
  orderFilterTech : string;
  pageOrdersActive : bool
}.

Definition noFilter : UI := mkUI "" "" "" false.

(** ** [orders.js] *)

(** The log of a region as one list: [Object.values(region.dailyLog).flat()]. *)
Definition flatLog (region : Region) : list Entry :=
  concat (JS.values (dailyLog region)).

(** [e.orderNo === orderNo] and [e.technician === tech] on a log entry. *)
Definition refersTo (no : string) (e : Entry) : bool :=
  bool_decide (entryOrderNo e = Some no).

Definition suppliedBy (no tech : string) (region : Region) : Z :=
  JS.sum (supplied <$> filter (λ e, refersTo no e && String.eqb (technician e) tech) (flatLog region)).

(** [_buildOrderCard]: the only statement of the render that writes to the
    store is the status repair on its second line; the rest builds HTML from
    the values below. *)
Definition _buildOrderCard_status (o : Order) : Order :=
  let bal := totalLiters o - suppliedTotal o in
  if (bal <=? 0) && negb (bool_decide (status o = CLOSED)) then set_status CLOSED o else o.

Record OrderCard := mkOrderCard {
  card_bal : Z;
  card_isStale : bool;
  card_anyOver : bool;
  card_closedBadge : bool
}.

(** [daysOpen] is the whole number of days between the creation date and
    the clock; the date arithmetic is left to the caller.  The ratio
    [suppliedTotal / totalLiters < 0.5] is compared without dividing. *)
Definition _buildOrderCard (daysOpen : string → Z) (o0 : Order) (region : Region)
  : Order * OrderCard :=
  let o := _buildOrderCard_status o0 in
  let bal := totalLiters o0 - suppliedTotal o0 in
  let days := if JS.truthy_str (createdDate o) then daysOpen (createdDate o) else 0 in
  let halfSupplied := if 0 <? totalLiters o then 2 * suppliedTotal o <? totalLiters o else false in
  let isStale := bool_decide (status o = OPEN) && (7 <? days) && halfSupplied in
  let anyOver := existsb (λ ta, ta.2 <? suppliedBy (orderNo o) ta.1 region)
                         (map_to_list (allocations o)) in
  (o, mkOrderCard bal isStale anyOver (bool_decide (status o = CLOSED))).

(** The three filters of [renderOrders]. *)
Definition passesFilter (ui : UI) (o : Order) : bool :=
  (if JS.truthy_str (orderFilterFrom ui) then String.leb (orderFilterFrom ui) (createdDate o) else true)
  && (if JS.truthy_str (orderFilterTo ui) then String.leb (createdDate o) (orderFilterTo ui) else true)
  && (if JS.truthy_str (orderFilterTech ui)
      then bool_decide (is_Some (allocations o !! orderFilterTech ui)) else true).

(** [renderOrders]: builds a card for every order that passes the filters;
    building the card may close the order. *)
Definition cardIfShown (ui : UI) (o : Order) : Order :=
  if passesFilter ui o then _buildOrderCard_status o else o.

Definition renderOrders (ui : UI) (db : DB) : DB :=
  match theRegion db with
  | None => db
  | Some region => putRegion (set_orders (cardIfShown ui <$> orders region) region) db
  end.

Definition createOrder (ui : UI) (today : string)
  (orderNoInput vehiclePlateInput : string) (totalLitersInput : Z) (orderDateInput : string)
  (db : DB) : Outcome * DB :=
  withRegion db (λ region,
    let no := JS.trim orderNoInput in
    if negb (JS.truthy_str no) || JS.has (orders region) no
    then (Alerted InvalidOrDuplicateOrder, db)
    else
      let orderDate := JS.or_str orderDateInput today in
      let o := {| orderNo := no;
                  vehiclePlate := JS.trim vehiclePlateInput;
                  totalLiters := totalLitersInput;
                  suppliedTotal := 0;
                  allocations := ∅;
                  status := OPEN;
                  createdDate := orderDate;
                  overageComments := None |} in
      (Done, renderOrders ui (putRegion (set_orders (<[no := o]> (orders region)) region) db))).

(** [o.allocations[t]] used as a condition: the number [0] is falsy, and so
    is an absent key unless the name is an inherited one. *)
Definition allocationTruthy (o : Order) (t : string) : bool :=
  match allocations o !! t with
  | Some v => JS.truthy_num v
  | None => JS.inherited t
  end.

Definition allocatedSum (o : Order) : Z := JS.sum (JS.values (allocations o)).

Definition allocateFuel (orderKey t : string) (amt : Z) (db : DB) : Outcome * DB :=
  withRegion db (λ region,
    match orders region !! orderKey with
    | None => (Alerted FillAllocationFields, db)
    | Some o =>
        if negb (JS.truthy_str t) || negb (JS.truthy_num amt)
        then (Alerted FillAllocationFields, db)
        else if allocationTruthy o t then (Alerted AlreadyAllocated, db)
        else
          let used := allocatedSum o in
          if totalLiters o <? used + amt then (Alerted AllocationExceedsTotal, db)
          else
            let o' := set_allocations (<[t := amt]> (allocations o)) o in
            (Done, putRegion (set_orders (<[orderKey := o']> (orders region)) region) db)
    end).

Definition saveOrderDate (ui : UI) (orderNo_ editDateInput : string) (db : DB) : Outcome * DB :=
  withRegion db (λ region,
    match orders region !! orderNo_ with
    | None => (Returned, db)
    | Some o =>
        let newDate := JS.trim editDateInput in
        if negb (JS.truthy_str newDate) then (Alerted SelectDate, db)
        else
          let o' := set_createdDate newDate o in
          (Done, renderOrders ui (putRegion (set_orders (<[orderNo_ := o']> (orders region)) region) db))
    end).

Definition deleteOrder (ui : UI) (confirmed : bool) (orderNo_ : string) (db : DB) : Outcome * DB :=
  withRegion db (λ region,
    match orders region !! orderNo_ with
    | None => (Returned, db)
    | Some o =>
        if negb confirmed then (Returned, db)
        else
          let log := (λ es, filter (λ e, negb (refersTo orderNo_ e)) es) <$> dailyLog region in
          (Done, renderOrders ui
                   (putRegion (set_dailyLog log (set_orders (delete orderNo_ (orders region)) region)) db))
    end).

(** [parseFloat] of the edit input: [None] is [NaN]. *)
Definition saveAllocEdit (ui : UI) (orderNo_ tech : string) (newAmt : option Z) (db : DB)
  : Outcome * DB :=
  withRegion db (λ region,
    match orders region !! orderNo_ with
    | None => (Returned, db)
    | Some o =>
        match newAmt with
        | None => (Alerted InvalidAmount, db)
        | Some newAmt =>
            if newAmt <? 0 then (Alerted InvalidAmount, db)
            else
              let otherAllocs :=
                JS.sum ((filter (λ tv, negb (String.eqb tv.1 tech)) (map_to_list (allocations o))).*2) in
              if totalLiters o <? otherAllocs + newAmt then (Alerted WouldExceedTotal, db)
              else
                let o' := set_allocations (JS.assign tech newAmt (allocations o)) o in
                (Done, renderOrders ui (putRegion (set_orders (<[orderNo_ := o']> (orders region)) region) db))
        end
    end).

(** [_overCtx] is the module variable set by [openOverageComment]. *)
Definition saveOverageComment (ui : UI) (_overCtx : option (string * string))
  (overageCommentInput : string) (db : DB) : Outcome * DB :=
  match _overCtx with
  | None => (Returned, db)
  | Some (orderNo_, tech) =>
      let c := JS.trim overageCommentInput in
      if negb (JS.truthy_str c) then (Alerted ReasonRequired, db)
      else
        withRegion db (λ region,
          match orders region !! orderNo_ with
          | None => (Threw, db)
          | Some o =>
              let cs := default ∅ (overageComments o) in
              let o' := set_overageComments (Some (JS.assign tech c cs)) o in
              (Done, renderOrders ui (putRegion (set_orders (<[orderNo_ := o']> (orders region)) region) db))
          end)
  end.

(** [_cloneSourceOrderNo] is [null] until a clone dialog is opened; indexing
    with [null] reads the property named "null". *)
Definition confirmClone (ui : UI) (today : string) (_cloneSourceOrderNo : option string)
  (cloneNewOrderNoInput cloneNewOrderDateInput : string) (db : DB) : Outcome * DB :=
  withRegion db (λ region,
    match orders region !! default "null" _cloneSourceOrderNo with
    | None => (Returned, db)
    | Some src =>
        let newNo := JS.trim cloneNewOrderNoInput in
        if negb (JS.truthy_str newNo) then (Alerted NewOrderNoRequired, db)
        else if JS.has (orders region) newNo then (Alerted OrderExists, db)
        else
          let newDate := JS.or_str cloneNewOrderDateInput today in
          let o := {| orderNo := newNo;
                      vehiclePlate := vehiclePlate src;
                      totalLiters := totalLiters src;
                      suppliedTotal := 0;
                      allocations := allocations src;
                      status := OPEN;
                      createdDate := newDate;
                      overageComments := None |} in
          (Done, renderOrders ui (putRegion (set_orders (<[newNo := o]> (orders region)) region) db))
    end).

(** ** [daily.js] *)

(** The state of one entry card of the daily page, as far as [saveDaily]
    reads it: the technician select, the litres input (its value as a
    number, [+value || 0], and its [max] attribute, [None] when absent or
    empty), the [data-unallocated] and [data-order] attributes, and the
    comment input when the card has one. *)
Record Card := mkCard {
  tech_sel : string;
  supp_input_value : Z;
  supp_input_max : option Z;
  data_unallocated : bool;
  data_order : option string;
  comment_input : option string
}.

(** [addDailyEntry]: a fresh card. *)
Definition addDailyEntry : Card := mkCard "" 0 None false None None.

Definition typeLitres (v : Z) (c : Card) : Card :=
  mkCard (tech_sel c) v (supp_input_max c) (data_unallocated c) (data_order c) (comment_input c).

Definition typeComment (s : string) (c : Card) : Card :=
  mkCard (tech_sel c) (supp_input_value c) (supp_input_max c) (data_unallocated c) (data_order c)
         (match comment_input c with Some _ => Some s | None => None end).

(** The technician's allocation left on the order, floored at zero, and the
    balance of the order, as [updateOrderDetails] computes them. *)
Definition leftFor (order : Order) (tech : string) (region : Region) : Z :=
  let allocated := default 0 (allocations order !! tech) in
  let usedSoFar := suppliedBy (orderNo order) tech region in
  Z.max 0 (allocated - usedSoFar).

Definition orderBal (order : Order) : Z := totalLiters order - suppliedTotal order.

Definition updateOrderDetails (card : Card) (order : Order) (tech : string) (region : Region) : Card :=
  mkCard (tech_sel card) (supp_input_value card)
         (Some (Z.min (leftFor order tech region) (orderBal order)))
         (data_unallocated card) (Some (orderNo order)) (comment_input card).

Definition hasAllocation (tech : string) (o : Order) : bool :=
  bool_decide (is_Some (allocations o !! tech)).

(** [techSelected], the change handler of the technician select. *)
Definition techSelected (tech : string) (card0 : Card) (region : Region) : Card :=
  let card := mkCard tech (supp_input_value card0) (supp_input_max card0)
                     (data_unallocated card0) (data_order card0) (comment_input card0) in
  if negb (JS.truthy_str tech) then mkCard tech 0 None false None None
  else
    let assignedOrders :=
      filter (λ o, bool_decide (status o = OPEN) && hasAllocation tech o) (JS.values (orders region)) in
    match assignedOrders with
    | [] =>
        mkCard tech (supp_input_value card) None true None
               (Some (default "" (comment_input card)))
    | [o] =>
        updateOrderDetails
          (mkCard tech (supp_input_value card) (supp_input_max card) false (data_order card)
                  (comment_input card))
          o tech region
    | _ =>
        mkCard tech (supp_input_value card) (supp_input_max card) false (data_order card)
               (comment_input card)
    end.

(** [orderDropdownChanged], the change handler of the order select shown
    when the technician holds allocations on several open orders. *)
Definition orderDropdownChanged (orderNo_ : string) (card : Card) (region : Region) : Card :=
  if negb (JS.truthy_str orderNo_)
  then mkCard (tech_sel card) (supp_input_value card) None (data_unallocated card) None
              (comment_input card)
  else match orders region !! orderNo_ with
       | Some order => updateOrderDetails card order (tech_sel card) region
       | None => card
       end.

(** [+max || Infinity]; [None] is [Infinity]. *)
Definition maxAllowed (card : Card) : option Z :=
  match supp_input_max card with
  | Some m => if JS.truthy_num m then Some m else None
  | None => None
  end.

Definition minWith (x : Z) (bound : option Z) : Z :=
  match bound with Some m => Z.min x m | None => x end.

Definition pushEntry (d : string) (e : Entry) (region : Region) : Region :=
  set_dailyLog (alter (λ es, (es ++ [e])%list) d (dailyLog region)) region.

(** The loop state of [saveDaily]: the region and the two counters. *)
Definition SaveState : Type := Region * nat * nat.

(** Body of [cards.forEach(card => ...)]. *)
Definition saveCard (d : string) (st : SaveState) (card : Card) : SaveState :=
  let '(region, saved, skipped) := st in
  let tech := tech_sel card in
  let supplied_ := supp_input_value card in
  if negb (JS.truthy_str tech) || (supplied_ <=? 0) then st
  else if data_unallocated card then
    let comment_ := match comment_input card with Some v => JS.trim v | None => "" end in
    if negb (JS.truthy_str comment_) then (region, saved, S skipped)
    else
      (pushEntry d (mkEntry None tech supplied_ (Some comment_) true) region, S saved, skipped)
  else
    match data_order card with
    | None => st
    | Some orderNo_ =>
        if negb (JS.truthy_str orderNo_) then st
        else match orders region !! orderNo_ with
             | None => st
             | Some o =>
                 if bool_decide (status o = CLOSED) then st
                 else
                   let actual := minWith supplied_ (maxAllowed card) in
                   let o' := set_suppliedTotal (suppliedTotal o + actual) o in
                   (pushEntry d (mkEntry (Some orderNo_) tech actual None false)
                              (set_orders (<[orderNo_ := o']> (orders region)) region),
                    S saved, skipped)
             end
    end.

(** The pass over all orders after the loop. *)
Definition closeFilled (o : Order) : Order :=
  if totalLiters o <=? suppliedTotal o then set_status CLOSED o else o.

Definition saveDaily (ui : UI) (d : string) (cards : list Card) (db : DB) : Outcome * DB :=
  if negb (JS.truthy_str d) then (Alerted SelectDateFirst, db)
  else
    withRegion db (λ region0,
      let region1 :=
        match dailyLog region0 !! d with
        | Some _ => region0
        | None => set_dailyLog (<[d := []]> (dailyLog region0)) region0
        end in
      match cards with
      | [] => (Alerted NoEntries, putRegion region1 db)
      | _ =>
          let '(region2, saved, skipped) := foldl (saveCard d) (region1, 0%nat, 0%nat) cards in
          let region3 := set_orders (closeFilled <$> orders region2) region2 in
          (DoneCounts saved skipped, renderOrders ui (putRegion region3 db))
      end).

(** The [max] that [openEditModal] puts on the litres input of the edit
    dialog of an allocated entry (the handler does not read it back). *)
Definition openEditModal_max (entry : Entry) (o : Order) (region : Region) : Z :=
  let allocated := default 0 (allocations o !! technician entry) in
  let usedOthers :=
    match entryOrderNo entry with
    | Some no => suppliedBy no (technician entry) region - supplied entry
    | None => 0
    end in
  Z.max 0 (Z.min (allocated - usedOthers) (totalLiters o - (suppliedTotal o - supplied entry))).

(** [entry.orderNo] as a condition. *)
Definition orderNoTruthy (e : Entry) : option string :=
  match entryOrderNo e with
  | Some no => if JS.truthy_str no then Some no else None
  | None => None
  end.

Definition applyEdit (diff : Z) (o : Order) : Order :=
  let o1 := set_suppliedTotal (Z.max 0 (suppliedTotal o + diff)) o in
  let o2 := if bool_decide (status o1 = CLOSED) && (suppliedTotal o1 <? totalLiters o1)
            then set_status OPEN o1 else o1 in
  if totalLiters o2 <=? suppliedTotal o2 then set_status CLOSED o2 else o2.

Definition renderOrdersIfActive (ui : UI) (db : DB) : DB :=
  if pageOrdersActive ui then renderOrders ui db else db.

(** The order update of [saveEditEntry] and of [deleteDailyEntry]: it is
    made when the entry is not unallocated, carries an order number, and
    that order exists. *)
Definition updateReferenced (f : Order → Order) (entry : Entry) (region : Region)
  : gmap string Order :=
  if negb (unallocated entry) then
    match orderNoTruthy entry with
    | Some no =>
        match orders region !! no with
        | Some o => <[no := f o]> (orders region)
        | None => orders region
        end
    | None => orders region
    end
  else orders region.

Definition editedEntry (newSupply : Z) (newComment : string) (entry : Entry) : Entry :=
  let entry1 := set_supplied newSupply entry in
  if unallocated entry then set_comment (Some newComment) entry1 else entry1.

(** [_editCtx] is the module variable set by [openEditModal]. *)
Definition saveEditEntry (ui : UI) (_editCtx : option (string * nat))
  (editSuppliedInput : Z) (editCommentInput : string) (db : DB) : Outcome * DB :=
  match _editCtx with
  | None => (Returned, db)
  | Some (date, idx) =>
      withRegion db (λ region,
        match dailyLog region !! date with
        | None => (Returned, db)
        | Some entries =>
            match entries !! idx with
            | None => (Returned, db)
            | Some entry =>
                let newSupply := editSuppliedInput in
                let newComment := JS.trim editCommentInput in
                if negb (JS.truthy_num newSupply) || (newSupply <=? 0)
                then (Alerted InvalidLitres, db)
                else if unallocated entry && negb (JS.truthy_str newComment)
                then (Alerted CommentRequired, db)
                else
                  let diff := newSupply - supplied entry in
                  let orders' := updateReferenced (applyEdit diff) entry region in
                  let log := <[date := <[idx := editedEntry newSupply newComment entry]> entries]>
                               (dailyLog region) in
                  (Done, renderOrdersIfActive ui
                           (putRegion (set_dailyLog log (set_orders orders' region)) db))
            end
        end)
  end.

Definition applyDelete (e : Entry) (order : Order) : Order :=
  let o1 := set_suppliedTotal (Z.max 0 (suppliedTotal order - supplied e)) order in
  if bool_decide (status o1 = CLOSED) && (suppliedTotal o1 <? totalLiters o1)
  then set_status OPEN o1 else o1.

(** [entries.splice(idx, 1)], and the date key dropped with its last entry. *)
Definition logAfterDelete (date : string) (idx : nat) (entries : list Entry)
  (log : gmap string (list Entry)) : gmap string (list Entry) :=
  match JS.splice1 idx entries with
  | [] => delete date log
  | entries' => <[date := entries']> log
  end.

Definition deleteDailyEntry (ui : UI) (confirmed : bool) (date : string) (idx : nat) (db : DB)
  : Outcome * DB :=
  withRegion db (λ region,
    match dailyLog region !! date with
    | None => (Returned, db)
    | Some entries =>
        match entries !! idx with
        | None => (Returned, db)
        | Some entry =>
            if negb confirmed then (Returned, db)
            else
              let orders' := updateReferenced (applyDelete entry) entry region in
              let log := logAfterDelete date idx entries (dailyLog region) in
              (Done, renderOrdersIfActive ui
                       (putRegion (set_dailyLog log (set_orders orders' region)) db))
        end
    end).

(** ** [regions.js] *)

(** [populateRegions], as far as the outcome of a handler depends on it: it
    fills the selects from the store and, through [populateAllocOrder],
    reads [DB.regions[DB.currentRegion].orders], which throws when the
    current region is undefined.  The handlers below call it after they
    have written and saved the store. *)
Definition populateRegions (db : DB) : Outcome * DB :=
  match theRegion db with
  | Some _ => (Done, db)
  | None => (Threw, db)
  end.

Definition changeRegion (regionSelectValue : string) (db : DB) : Outcome * DB :=
  populateRegions (set_currentRegion regionSelectValue db).

Definition addRegion (newRegionInput : string) (db : DB) : Outcome * DB :=
  let n := JS.trim newRegionInput in
  if negb (JS.truthy_str n) || JS.has (regions db) n then (Returned, db)
  else populateRegions (set_regions (<[n := emptyRegion]> (regions db)) db).

(** After the deletion the current region, if it was the deleted one,
    becomes [Object.keys(DB.regions)[0]]; with no key left that would be
    [undefined], which the first guard excludes.  Which of the remaining
    regions comes first depends on the order in which the regions were
    created, which a finite map does not record: here it is the first key
    of the map, and the properties below only use that it is one of the
    remaining regions. *)
Definition deleteRegion (confirmed : bool) (rName : string) (db : DB) : Outcome * DB :=
  if bool_decide (size (regions db) ≤ 1)%nat then (Alerted OnlyRegion, db)
  else match regions db !! rName with
       | None => (Threw, db)
       | Some r =>
           if negb confirmed then (Returned, db)
           else
             let rs := delete rName (regions db) in
             let cur := if String.eqb (currentRegion db) rName
                        then default (currentRegion db) (head (JS.keys rs))
                        else currentRegion db in
             populateRegions (mkDB cur rs)
       end.

Definition addTechnician (techNameInput techPlateInput : string) (db : DB) : Outcome * DB :=
  withRegion db (λ region,
    let t := JS.trim techNameInput in
    let p := JS.trim techPlateInput in
    if negb (JS.truthy_str t) || negb (JS.truthy_str p) then (Returned, db)
    else if bool_decide (t ∈ technicians region) then (Alerted TechnicianExists, db)
    else
      (Done, putRegion (set_technicianPlates (JS.assign t p (technicianPlates region))
                          (set_technicians (technicians region ++ [t])%list region)) db)).

Definition deleteTech (confirmed : bool) (techName : string) (db : DB) : Outcome * DB :=
  withRegion db (λ r,
    if negb confirmed then (Returned, db)
    else
      let ts := filter (λ t, negb (String.eqb t techName)) (technicians r) in
      let ps := delete techName (technicianPlates r) in
      let os := (λ o, set_allocations (delete techName (allocations o)) o) <$> orders r in
      (Done, putRegion (mkRegion ts ps os (dailyLog r)) db)).

(** The rename dialog is opened from the list of regions, so [oldName] is
    a region.  For a name that is not, [DB.regions[newName] =
    DB.regions[oldName]] stores [undefined], which a finite map of regions
    does not hold; the properties of the rename assume that [oldName]
    exists. *)
Definition _renameRegion (oldName newName : string) (db : DB) : Outcome * DB :=
  if String.eqb newName oldName then (Returned, db)
  else if JS.has (regions db) newName then (Alerted RegionExists, db)
  else
    match regions db !! oldName with
    | None => (Threw, db)
    | Some r =>
        let rs := delete oldName (<[newName := r]> (regions db)) in
        let cur := if String.eqb (currentRegion db) oldName then newName else currentRegion db in
        populateRegions (mkDB cur rs)
    end.

(** Moving a key of an object of strings or numbers:
    [m[newName] = m[oldName]; delete m[oldName]], guarded by
    [m[oldName] !== undefined]. *)
Definition moveKey {A} (oldName newName : string) (m : gmap string A) : gmap string A :=
  match m !! oldName with
  | Some v => delete oldName (JS.assign newName v m)
  | None => m
  end.

Definition renameInOrder (oldName newName : string) (o : Order) : Order :=
  set_overageComments (moveKey oldName newName <$> overageComments o)
    (set_allocations (moveKey oldName newName (allocations o)) o).

Definition renameInEntry (oldName newName : string) (e : Entry) : Entry :=
  if String.eqb (technician e) oldName then set_technician newName e else e.

(** Body of [Object.values(DB.regions).forEach(r => ...)] in [_renameTech]. *)
Definition renameInRegion (oldName newName : string) (r : Region) : Region :=
  match JS.indexOf oldName (technicians r) with
  | None => r
  | Some idx =>
      mkRegion (<[idx := newName]> (technicians r))
               (moveKey oldName newName (technicianPlates r))
               (renameInOrder oldName newName <$> orders r)
               ((λ es : list Entry, renameInEntry oldName newName <$> es) <$> dailyLog r)
  end.

Definition _renameTech (oldName newName : string) (db : DB) : Outcome * DB :=
  if String.eqb newName oldName then (Returned, db)
  else populateRegions (set_regions (renameInRegion oldName newName <$> regions db) db).

Inductive RenameCtx := RenameRegion (name : string) | RenameTech (name : string).

Definition confirmRename (_renameCtx : option RenameCtx) (renameInput : string) (db : DB)
  : Outcome * DB :=
  match _renameCtx with
  | None => (Returned, db)
  | Some ctx =>
      let newName := JS.trim renameInput in
      if negb (JS.truthy_str newName) then (Alerted NameRequired, db)
      else match ctx with
           | RenameRegion name => _renameRegion name newName db
           | RenameTech name => _renameTech name newName db
           end
  end.

(** ** [reports.js] and [leaderboard.js] *)

(** A parsed backup file, as far as [restoreData] looks at it: the value
    of its [regions] property when that is an object of regions, and the
    value of its [currentRegion] property when that is a string.  [None]
    stands for a missing (or otherwise falsy) property. *)
Record Candidate := mkCandidate {
  cand_regions : option (gmap string Region);
  cand_currentRegion : option string
}.

(** [replaceDB(newDB)]. *)
Definition replaceDB (newDB : DB) (_ : DB) : DB := newDB.

(** [reader.onload] of [restoreData].  The renders that follow [replaceDB]
    read [DB.regions[DB.currentRegion]]; when that is undefined they throw
    into the [catch], after the store has been replaced and saved. *)
Definition restoreData (confirmed : bool) (parsed : Candidate) (db : DB) : Outcome * DB :=
  match cand_regions parsed, cand_currentRegion parsed with
  | Some rs, Some cur =>
      if negb (JS.truthy_str cur) then (Alerted InvalidBackup, db)
      else if negb confirmed then (Returned, db)
      else
        let db' := replaceDB (mkDB cur rs) db in
        match theRegion db' with
        | Some _ => (Done, db')
        | None => (Alerted RestoreFailed, db')
        end
  | _, _ => (Alerted InvalidBackup, db)
  end.

(** All entries of the store with their region and date, in the order of
    the nested [Object.entries(...).forEach] loops. *)
Definition datedEntries (r : Region) : list (string * Entry) :=
  '(date, es) ← map_to_list (dailyLog r); (λ e, (date, e)) <$> es.

Definition storeEntries (db : DB) : list (string * string * Entry) :=
  '(rName, r) ← map_to_list (regions db); (λ de, (rName, de.1, de.2)) <$> datedEntries r.

(** [renderLeaderboard]: litres per technician, within an optional region
    and from an optional cutoff date on.  [leaderboardStep] is the body of
    the nested loops for one entry.  A row is created when
    [!totals[e.technician]]; for an inherited name that test fails, no row
    is created, and the litres are added to a property of the inherited
    object. *)
Definition leaderboardStep (regionFilter : string) (cutoff : option string)
  (totals : gmap string Z) (x : string * string * Entry) : gmap string Z :=
  let '(rName, date, e) := x in
  if JS.truthy_str regionFilter && negb (String.eqb rName regionFilter) then totals
  else if match cutoff with Some c => String.ltb date c | None => false end then totals
  else if negb (JS.has totals (technician e))
  then <[technician e := 0 + supplied e]> totals
  else match totals !! technician e with
       | Some litres => <[technician e := litres + supplied e]> totals
       | None => totals
       end.

Definition leaderboardTotals (regionFilter : string) (cutoff : option string) (db : DB)
  : gmap string Z :=
  foldl (leaderboardStep regionFilter cutoff) ∅ (storeEntries db).

(** [openTechHistory]: the entries of one technician in all regions and the
    total shown in the first tile. *)
Definition techHistory (techName : string) (db : DB) : list (string * string * Entry) :=
  filter (λ x, String.eqb (technician x.2) techName) (storeEntries db).

Definition techHistoryTotal (techName : string) (db : DB) : Z :=
  JS.sum ((λ x, supplied x.2) <$> techHistory techName db).

(** The same total within one region. *)
Definition techTotalIn (techName : string) (r : Region) : Z :=
  JS.sum (supplied <$> filter (λ e, String.eqb (technician e) techName) (flatLog r)).

(** [renderUnallocReport]: the unallocated entries of the current region
    and their total. *)
Definition unallocRows (db : DB) : list (string * Entry) :=
  match theRegion db with
  | Some region => filter (λ de, unallocated de.2) (datedEntries region)
  | None => []
  end.

Definition totalUnalloc (db : DB) : Z := JS.sum ((λ de, supplied de.2) <$> unallocRows db).

(** [exportOrders]: the rows of the three sheets. *)
Definition exportOrdersSheet (db : DB) : list (string * string * string * Z * Z * Z * Status) :=
  '(rName, r) ← map_to_list (regions db);
  (λ o, (rName, orderNo o, vehiclePlate o, totalLiters o, suppliedTotal o,
         totalLiters o - suppliedTotal o, status o)) <$> JS.values (orders r).

Definition exportUnallocSheet (db : DB) : list (string * string * string * Z * string) :=
  (λ x, (x.1.1, x.1.2, technician x.2, supplied x.2, default "" (comment x.2)))
    <$> filter (λ x, unallocated x.2) (storeEntries db).

Definition exportDailySheet (db : DB) : list (string * string * string * string * Z) :=
  (λ x, (x.1.1, x.1.2, default "" (entryOrderNo x.2), technician x.2, supplied x.2))
    <$> filter (λ x, negb (unallocated x.2) && bool_decide (is_Some (orderNoTruthy x.2)))
               (storeEntries db).

(** The screens that only display: what each leaves in the store.  The
    functions above that compute their contents take the store and return
    a value; the order cards are the one display that assigns to it. *)
Inductive View :=
  | Leaderboard (regionFilter : string) (cutoff : option string)
  | TechHistory (techName : string)
  | UnallocReport
  | ExportSheets
  | OrderCards (ui : UI).

Definition render (v : View) (db : DB) : DB :=
  match v with
  | OrderCards ui => renderOrders ui db
  | Leaderboard _ _ | TechHistory _ | UnallocReport | ExportSheets => db
  end.

(** Whether a display builds the card of an order. *)
Definition buildsCard (v : View) (o : Order) : bool :=
  match v with
  | OrderCards ui => passesFilter ui o
  | _ => false
  end.

(** ** [app.js]: the handlers as one command interface *)

Inductive Command :=
  | CreateOrder (ui : UI) (today orderNoInput vehiclePlateInput : string)
                (totalLitersInput : Z) (orderDateInput : string)
  | AllocateFuel (orderKey t : string) (amt : Z)
  | SaveOrderDate (ui : UI) (orderNo_ editDateInput : string)
  | DeleteOrder (ui : UI) (confirmed : bool) (orderNo_ : string)
  | SaveAllocEdit (ui : UI) (orderNo_ tech : string) (newAmt : option Z)
  | SaveOverageComment (ui : UI) (ctx : option (string * string)) (commentInput : string)
  | ConfirmClone (ui : UI) (today : string) (source : option string) (newNoInput newDateInput : string)
  | RenderOrders (ui : UI)
  | SaveDaily (ui : UI) (d : string) (cards : list Card)
  | SaveEditEntry (ui : UI) (ctx : option (string * nat)) (suppliedInput : Z) (commentInput : string)
  | DeleteDailyEntry (ui : UI) (confirmed : bool) (date : string) (idx : nat)
  | ChangeRegion (regionSelectValue : string)
  | AddRegion (newRegionInput : string)
  | DeleteRegion (confirmed : bool) (rName : string)
  | AddTechnician (techNameInput techPlateInput : string)
  | DeleteTech (confirmed : bool) (techName : string)
  | ConfirmRename (ctx : option RenameCtx) (renameInput : string)
  | RestoreData (confirmed : bool) (parsed : Candidate).

Definition exec (c : Command) (db : DB) : Outcome * DB :=
  match c with
  | CreateOrder ui today no plate total date => createOrder ui today no plate total date db
  | AllocateFuel k t amt => allocateFuel k t amt db
  | SaveOrderDate ui no date => saveOrderDate ui no date db
  | DeleteOrder ui ok no => deleteOrder ui ok no db
  | SaveAllocEdit ui no tech amt => saveAllocEdit ui no tech amt db
  | SaveOverageComment ui ctx c => saveOverageComment ui ctx c db
  | ConfirmClone ui today src no date => confirmClone ui today src no date db
  | RenderOrders ui => (Done, renderOrders ui db)
  | SaveDaily ui d cards => saveDaily ui d cards db
  | SaveEditEntry ui ctx v c => saveEditEntry ui ctx v c db
  | DeleteDailyEntry ui ok date idx => deleteDailyEntry ui ok date idx db
  | ChangeRegion v => changeRegion v db
  | AddRegion n => addRegion n db
  | DeleteRegion ok n => deleteRegion ok n db
  | AddTechnician t p => addTechnician t p db
  | DeleteTech ok t => deleteTech ok t db
  | ConfirmRename ctx n => confirmRename ctx n db
  | RestoreData ok parsed => restoreData ok parsed db
  end.

(** The store after a command, and after a sequence of commands. *)
Definition after (c : Command) (db : DB) : DB := (exec c db).2.

Definition afterAll (cs : list Command) (db : DB) : DB := foldl (λ s c, after c s) db cs.

(** ** The invariants of the ledger *)

(** Status as a function of the two totals. *)
Definition statusOf (o : Order) : Status :=
  if bool_decide (totalLiters o ≤ suppliedTotal o) then CLOSED else OPEN.

(** Litres recorded in the log of a region against an order number. *)
Definition loggedFor (no : string) (r : Region) : Z :=
  JS.sum (supplied <$> filter (λ e, refersTo no e) (flatLog r)).

(** A property of every order of every region. *)
Definition everyOrder (P : Region → string → Order → Prop) (db : DB) : Prop :=
  map_Forall (λ _ r, map_Forall (λ no o, P r no o) (orders r)) (regions db).

Definition statusInv : DB → Prop :=
  everyOrder (λ _ _ o, status o = statusOf o).

Definition suppliedInv : DB → Prop :=
  everyOrder (λ r no o, suppliedTotal o = loggedFor no r).

Definition allocInv : DB → Prop :=
  everyOrder (λ _ _ o, allocatedSum o ≤ totalLiters o).

Definition regionsNonEmpty (db : DB) : Prop := regions db ≠ ∅.

#[export] Instance everyOrder_dec P `{∀ r no o, Decision (P r no o)} db :
  Decision (everyOrder P db).
Proof. unfold everyOrder. apply _. Defined.

#[export] Instance statusInv_dec db : Decision (statusInv db).
Proof. unfold statusInv. apply _. Defined.
#[export] Instance suppliedInv_dec db : Decision (suppliedInv db).
Proof. unfold suppliedInv. apply _. Defined.
#[export] Instance allocInv_dec db : Decision (allocInv db).
Proof. unfold allocInv. apply _. Defined.










(** Litres recorded under a technician name in a list of entries tagged
    with region and date, as [openTechHistory] sums them. *)
Definition litresOf (name : string) (l : list (string * string * Entry)) : Z :=
  JS.sum ((λ x, supplied x.2) <$> filter (λ x, String.eqb (technician x.2) name) l).

Definition entriesOfRegion (rName : string) (r : Region) : list (string * string * Entry) :=
  (λ de, (rName, de.1, de.2)) <$> datedEntries r.

Definition renameRow (oldName newName : string) (x : string * string * Entry)
  : string * string * Entry :=
  (x.1, renameInEntry oldName newName x.2).

(** The log of the region has an entry under the name. *)
Definition hasHistory (name : string) (r : Region) : Prop :=
  ∃ date es e, dailyLog r !! date = Some es ∧ e ∈ es ∧ technician e = name.

(** Litres recorded against an order number in one list of entries. *)
Definition loggedIn (no : string) (es : list Entry) : Z :=
  JS.sum (supplied <$> filter (λ e, refersTo no e) es).

(** Litres one entry adds to the account of an order number, and the
    account summed date by date. *)
Definition litresFor (no : string) (e : Entry) : Z :=
  if refersTo no e then supplied e else 0.

Definition logSum (no : string) (log : gmap string (list Entry)) : Z :=
  JS.sum ((λ x, loggedIn no x.2) <$> map_to_list log).

(** The supplied total of every order of a region equals its account in
    the log of the region. *)
Definition regionSupplied (r : Region) : Prop :=
  map_Forall (λ no o, suppliedTotal o = loggedFor no r) (orders r).

(** An entry as the handlers write it: an unallocated entry has no order
    number, and an order number is never the empty string. *)
Definition wellFormedEntry (e : Entry) : Prop :=
  (unallocated e = true → entryOrderNo e = None) ∧ entryOrderNo e ≠ Some "".

(** How a batch may change an order: neither its status nor its total, and
    not the supplied total of a CLOSED order. *)
Definition onlySupplied (o o' : Order) : Prop :=
  status o' = status o ∧ totalLiters o' = totalLiters o
  ∧ (status o = CLOSED → suppliedTotal o' = suppliedTotal o).

(** ** Concrete stores used in the examples

    Each store is reached from [DB_DEFAULT] by the commands listed. *)

Definition day1 : string := "2026-01-10".

(** An order created with the litres field left blank while the orders
    page shows the orders created from 2027 on. *)
Definition filterFrom2027 : UI := mkUI "2027-01-01" "" "" false.
Definition createBlankTotal (ui : UI) : Command := CreateOrder ui day1 "O1" "KBB 002" 0 "".

(** One technician; the orders page filtered on that technician. *)
Definition bobOnly : DB := after (AddTechnician "Bob" "KAA 001") DB_DEFAULT.
Definition filterBob : UI := mkUI "" "" "Bob" false.

Definition hiddenOrder : DB := after (createBlankTotal filterFrom2027) DB_DEFAULT.

(** Two technicians and an order of 100 litres. *)
Definition annBobOrder : DB :=
  afterAll [AddTechnician "Ann" "KAA 001"; AddTechnician "Bob" "KAA 002";
            CreateOrder noFilter day1 "O1" "KBB 002" 100 ""] DB_DEFAULT.

(** A negative allocation next to one above the order total. *)
Definition negativeAllocation : DB :=
  afterAll [AllocateFuel "O1" "Ann" (-50); AllocateFuel "O1" "Bob" 150] annBobOrder.

(** An allocation edited down to zero. *)
Definition zeroAllocation : DB :=
  afterAll [AllocateFuel "O1" "Bob" 5; SaveAllocEdit noFilter "O1" "Bob" (Some 0)] annBobOrder.

(** Ann holds 60 of the 100 litres of O1 and asks for 70: the card is
    filled in by [techSelected] against the store it is saved to. *)
Definition annHolds60 : DB := after (AllocateFuel "O1" "Ann" 60) annBobOrder.
Definition annCard (litres : Z) (db : DB) : Card :=
  typeLitres litres (techSelected "Ann" addDailyEntry (regionOf db)).
Definition annSupplied60 : DB :=
  after (SaveDaily noFilter day1 [annCard 70 annHolds60]) annHolds60.

(** Bob holds 50 litres on each of two open orders; 10 litres are logged on
    O1; a second card is opened and, while its order select is still
    showing, the logged entry is edited to 150 litres, O1 is picked on the
    card, and the entry is edited back to 10. *)
Definition twoOrders : DB :=
  afterAll [CreateOrder noFilter day1 "O2" "KBB 003" 100 "";
            AllocateFuel "O1" "Bob" 50; AllocateFuel "O2" "Bob" 50] annBobOrder.
Definition firstCard : Card :=
  typeLitres 10 (orderDropdownChanged "O1" (techSelected "Bob" addDailyEntry (regionOf twoOrders))
                                      (regionOf twoOrders)).
Definition logged10 : DB := after (SaveDaily noFilter day1 [firstCard]) twoOrders.
Definition secondCardOpened : Card := techSelected "Bob" addDailyEntry (regionOf logged10).
Definition editedTo150 : DB := after (SaveEditEntry noFilter (Some (day1, 0%nat)) 150 "") logged10.
Definition secondCard : Card :=
  typeLitres 5 (orderDropdownChanged "O1" secondCardOpened (regionOf editedTo150)).
Definition editedBack : DB := after (SaveEditEntry noFilter (Some (day1, 0%nat)) 10 "") editedTo150.
Definition staleCardSaved : DB := after (SaveDaily noFilter day1 [secondCard]) editedBack.
Definition firstEntryDeleted : DB := after (DeleteDailyEntry noFilter true day1 0%nat) staleCardSaved.

(** Unallocated supplies of two technicians, then a rename of one to the
    name of the other. *)
Definition unallocCard (tech : string) (litres : Z) (why : string) (db : DB) : Card :=
  typeComment why (typeLitres litres (techSelected tech addDailyEntry (regionOf db))).
Definition annBob : DB :=
  afterAll [AddTechnician "Ann" "KAA 001"; AddTechnician "Bob" "KAA 002"] DB_DEFAULT.
Definition bothSupplied : DB :=
  after (SaveDaily noFilter day1 [unallocCard "Ann" 30 "top-up" annBob;
                                   unallocCard "Bob" 20 "top-up" annBob]) annBob.
Definition annRenamedBob : DB :=
  after (ConfirmRename (Some (RenameTech "Ann")) "Bob") bothSupplied.

(** Ann is removed from the technicians of a second region, where her
    supplies stay in the log, and is then renamed from the first. *)
Definition annLeftEast : DB :=
  afterAll [SaveDaily noFilter day1 [unallocCard "Ann" 30 "top-up" annBob];
            AddRegion "East"; ChangeRegion "East"; AddTechnician "Ann" "KAA 001"] annBob.
Definition annEastSupplied : DB :=
  afterAll [SaveDaily noFilter day1 [unallocCard "Ann" 5 "top-up" annLeftEast];
            DeleteTech true "Ann"; ChangeRegion "New CCS"] annLeftEast.
Definition annRenamedAnna : DB :=
  after (ConfirmRename (Some (RenameTech "Ann")) "Anna") annEastSupplied.

(** A backup file whose [regions] object has no keys. *)
Definition emptyBackup : Candidate := mkCandidate (Some ∅) (Some "New CCS").

(** ** Outcomes and further observations of the store *)

(** A handler declined: it alerted or returned early. *)
Definition declined (o : Outcome) : bool :=
  match o with
  | Alerted _ | Returned => true
  | Done | DoneCounts _ _ | Threw => false
  end.

(** ** The inputs on which the embedding is exact

    Three things bound what the embedding says about the code.  Litres are
    doubles in the code and whole numbers here: sums, differences and
    comparisons agree as long as no magnitude reaches [2^53], which is so
    when the magnitudes of all numbers at hand add up to less.  Names are
    keys of objects in the code and of finite maps here: they agree on
    every name that [Object.prototype] does not define.  And the rename
    dialog of a region is opened on a region that exists. *)

(** [Number.MAX_SAFE_INTEGER]. *)
Definition MAX_SAFE_INTEGER : Z := 2 ^ 53 - 1.

Definition orderMagnitude (o : Order) : Z :=
  Z.abs (totalLiters o) + Z.abs (suppliedTotal o)
  + JS.sum (Z.abs <$> JS.values (allocations o)).

Definition logMagnitude (es : list Entry) : Z := JS.sum ((λ e, Z.abs (supplied e)) <$> es).

Definition regionMagnitude (r : Region) : Z :=
  JS.sum (orderMagnitude <$> JS.values (orders r)) + logMagnitude (flatLog r).

Definition regionsMagnitude (rs : gmap string Region) : Z :=
  JS.sum (regionMagnitude <$> JS.values rs).

Definition storeMagnitude (db : DB) : Z := regionsMagnitude (regions db).

Definition cardMagnitude (card : Card) : Z :=
  Z.abs (supp_input_value card) + Z.abs (default 0 (supp_input_max card)).

(** The numbers a command brings in. *)
Definition inputMagnitude (c : Command) : Z :=
  match c with
  | CreateOrder _ _ _ _ totalLitersInput _ => Z.abs totalLitersInput
  | AllocateFuel _ _ amt => Z.abs amt
  | SaveAllocEdit _ _ _ (Some newAmt) => Z.abs newAmt
  | SaveDaily _ _ cards => JS.sum (cardMagnitude <$> cards)
  | SaveEditEntry _ _ suppliedInput _ => Z.abs suppliedInput
  | RestoreData _ parsed => regionsMagnitude (default ∅ (cand_regions parsed))
  | _ => 0
  end.

(** The numbers of the store (with those of an input) stay in the range
    in which doubles are exact. *)
Definition exactStore (db : DB) : Prop := storeMagnitude db ≤ MAX_SAFE_INTEGER.

Definition exact (c : Command) (db : DB) : Prop :=
  storeMagnitude db + inputMagnitude c ≤ MAX_SAFE_INTEGER.

(** A name that [Object.prototype] does not define. *)
Definition plain (k : string) : Prop := JS.inherited k = false.

Definition plainOrder (o : Order) : Prop :=
  plain (orderNo o) ∧ Forall plain (JS.keys (allocations o))
  ∧ Forall plain (JS.keys (default ∅ (overageComments o))).

Definition plainEntry (e : Entry) : Prop :=
  plain (technician e) ∧ plain (default "" (entryOrderNo e)).

Definition plainRegion (r : Region) : Prop :=
  Forall plain (technicians r) ∧ Forall plain (JS.keys (technicianPlates r))
  ∧ Forall plain (JS.keys (orders r)) ∧ Forall plainOrder (JS.values (orders r))
  ∧ Forall plain (JS.keys (dailyLog r)) ∧ Forall plainEntry (flatLog r).

Definition plainRegions (rs : gmap string Region) : Prop :=
  Forall plain (JS.keys rs) ∧ Forall plainRegion (JS.values rs).

Definition plainStore (db : DB) : Prop :=
  plain (currentRegion db) ∧ plainRegions (regions db).

(** The names a command brings in, as the handler uses them. *)
Definition namesOf (c : Command) : list string :=
  match c with
  | CreateOrder _ _ orderNoInput _ _ _ => [JS.trim orderNoInput]
  | AllocateFuel orderKey t _ => [orderKey; t]
  | SaveOrderDate _ orderNo_ _ => [orderNo_]
  | DeleteOrder _ _ orderNo_ => [orderNo_]
  | SaveAllocEdit _ orderNo_ tech _ => [orderNo_; tech]
  | SaveOverageComment _ ctx _ =>
      match ctx with Some (orderNo_, tech) => [orderNo_; tech] | None => [] end
  | ConfirmClone _ _ source newNoInput _ => [default "null" source; JS.trim newNoInput]
  | RenderOrders _ => []
  | SaveDaily _ d cards =>
      d :: (cards ≫= λ card, [tech_sel card; default "" (data_order card)])
  | SaveEditEntry _ ctx _ _ => match ctx with Some (date, _) => [date] | None => [] end
  | DeleteDailyEntry _ _ date _ => [date]
  | ChangeRegion regionSelectValue => [regionSelectValue]
  | AddRegion newRegionInput => [JS.trim newRegionInput]
  | DeleteRegion _ rName => [rName]
  | AddTechnician techNameInput _ => [JS.trim techNameInput]
  | DeleteTech _ techName => [techName]
  | ConfirmRename ctx renameInput =>
      JS.trim renameInput
      :: match ctx with
         | Some (RenameRegion name) | Some (RenameTech name) => [name]
         | None => []
         end
  | RestoreData _ parsed => [default "" (cand_currentRegion parsed)]
  end.

Definition plainCommand (c : Command) : Prop :=
  Forall plain (namesOf c)
  ∧ match c with
    | RestoreData _ parsed => plainRegions (default ∅ (cand_regions parsed))
    | _ => True
    end.

Definition knownContext (c : Command) (db : DB) : Prop :=
  match c with
  | ConfirmRename (Some (RenameRegion name)) _ => is_Some (regions db !! name)
  | _ => True
  end.

(** A command and a store within all three bounds. *)
Definition inScope (c : Command) (db : DB) : Prop :=
  exact c db ∧ plainCommand c ∧ plainStore db ∧ knownContext c db.

(** A sequence of commands each of which is in scope where it runs. *)
Fixpoint inScopeRun (cs : list Command) (db : DB) : Prop :=
  match cs with
  | [] => True
  | c :: cs' => inScope c db ∧ inScopeRun cs' (after c db)
  end.

#[export] Instance plain_dec k : Decision (plain k).
Proof. unfold plain. apply _. Defined.
#[export] Instance plainOrder_dec o : Decision (plainOrder o).
Proof. unfold plainOrder. apply _. Defined.
#[export] Instance plainEntry_dec e : Decision (plainEntry e).
Proof. unfold plainEntry. apply _. Defined.
#[export] Instance plainRegion_dec r : Decision (plainRegion r).
Proof. unfold plainRegion. apply _. Defined.
#[export] Instance plainRegions_dec rs : Decision (plainRegions rs).
Proof. unfold plainRegions. apply _. Defined.
#[export] Instance plainStore_dec db : Decision (plainStore db).
Proof. unfold plainStore. apply _. Defined.
#[export] Instance plainCommand_dec c : Decision (plainCommand c).
Proof. unfold plainCommand. destruct c; apply _. Defined.
#[export] Instance knownContext_dec c db : Decision (knownContext c db).
Proof. unfold knownContext. destruct c as [| | | | | | | | | | | | | | | |[[?|?]|] ?|]; apply _. Defined.
#[export] Instance exactStore_dec db : Decision (exactStore db).
Proof. unfold exactStore. apply _. Defined.
#[export] Instance exact_dec c db : Decision (exact c db).
Proof. unfold exact. apply _. Defined.
#[export] Instance inScope_dec c db : Decision (inScope c db).
Proof. unfold inScope. apply _. Defined.
#[export] Instance inScopeRun_dec cs : ∀ db, Decision (inScopeRun cs db).
Proof. induction cs as [|c cs IH]; intros db; simpl; apply _. Defined.

#[export] Hint Opaque exactStore exact plain plainOrder plainEntry plainRegion plainRegions
  plainStore plainCommand knownContext inScope : typeclass_instances.

(** ** The ledger as the handlers leave it *)

(** An entry as [saveDaily] and [saveEditEntry] write it into the log of
    region [r]: a positive amount; an unallocated entry without an order
    number and with a comment; any other entry with the number of an order
    of the region. *)
Definition entryOk (r : Region) (e : Entry) : Prop :=
  0 < supplied e
  ∧ if unallocated e
    then entryOrderNo e = None
         ∧ match comment e with Some c => c ≠ "" | None => False end
    else match entryOrderNo e with
         | Some no => no ≠ "" ∧ is_Some (orders r !! no)
         | None => False
         end.

(** An order stored under [no] in region [r]: it carries its own number, a
    positive total, the status that its totals give, the supplied total
    that the log gives, and non-negative allocations within the total. *)
Definition orderOk (r : Region) (no : string) (o : Order) : Prop :=
  orderNo o = no
  ∧ 0 < totalLiters o
  ∧ status o = statusOf o
  ∧ suppliedTotal o = loggedFor no r
  ∧ allocatedSum o ≤ totalLiters o
  ∧ map_Forall (λ _ v, 0 ≤ v) (allocations o).

Definition regionOk (r : Region) : Prop :=
  map_Forall (orderOk r) (orders r)
  ∧ map_Forall (λ _ es, Forall (entryOk r) es) (dailyLog r).

Definition ledgerInv (db : DB) : Prop := map_Forall (λ _ r, regionOk r) (regions db).

#[export] Instance entryOk_dec r e : Decision (entryOk r e).
Proof. unfold entryOk. destruct (unallocated e), (entryOrderNo e), (comment e); apply _. Defined.
#[export] Instance orderOk_dec r no o : Decision (orderOk r no o).
Proof. unfold orderOk. apply _. Defined.
#[export] Instance regionOk_dec r : Decision (regionOk r).
Proof. unfold regionOk. apply _. Defined.
#[export] Instance ledgerInv_dec db : Decision (ledgerInv db).
Proof. unfold ledgerInv. apply _. Defined.

(** The [max] attribute of the litres input of a card, when set, is not
    negative. *)
Definition boundNonneg (card : Card) : Prop :=
  match supp_input_max card with Some m => 0 ≤ m | None => True end.

(** Inputs under which the ledger stays as above: a positive total for a
    new order, no negative allocation, entry cards without a negative
    bound, and a backup file whose regions are themselves in order. *)
Definition admissible (c : Command) : Prop :=
  match c with
  | CreateOrder _ _ _ _ totalLitersInput _ => 0 < totalLitersInput
  | AllocateFuel _ _ amt => 0 ≤ amt
  | SaveDaily _ _ cards => Forall boundNonneg cards
  | RestoreData _ parsed =>
      match cand_regions parsed with
      | Some rs => map_Forall (λ _ r, regionOk r) rs
      | None => True
      end
  | _ => True
  end.

(** The region inside the loop of [saveDaily], against the region [r0] the
    loop started from: the same order numbers, each order with its number
    and allocations unchanged, and entries in order. *)
Definition batchKeeps (r0 r : Region) : Prop :=
  (∀ no o', orders r !! no = Some o' →
      ∃ o, orders r0 !! no = Some o ∧ orderNo o' = orderNo o ∧ allocations o' = allocations o)
  ∧ (∀ no, is_Some (orders r0 !! no) → is_Some (orders r !! no))
  ∧ map_Forall (λ _ es, Forall (entryOk r0) es) (dailyLog r).

(** ** The technician list *)

(** The technicians of a region are listed once each, and the plates are
    recorded for exactly the listed names. *)
Definition techListOk (r : Region) : Prop :=
  NoDup (technicians r)
  ∧ list_to_set (technicians r) =@{gset string} dom (technicianPlates r).

Definition techInv (db : DB) : Prop := map_Forall (λ _ r, techListOk r) (regions db).

#[export] Instance techListOk_dec r : Decision (techListOk r).
Proof. unfold techListOk. apply _. Defined.
#[export] Instance techInv_dec db : Decision (techInv db).
Proof. unfold techInv. apply _. Defined.

(** ** Classes of commands *)

(** The handlers that work on the current region: those of the orders and
    daily pages and the two that edit its technician list. *)
Definition regionLocal (c : Command) : bool :=
  match c with
  | ChangeRegion _ | AddRegion _ | DeleteRegion _ _ | ConfirmRename _ _ | RestoreData _ _ => false
  | _ => true
  end.

(** The handlers of the orders and daily pages. *)
Definition ledgerOnly (c : Command) : bool :=
  match c with
  | AddTechnician _ _ | DeleteTech _ _ => false
  | _ => regionLocal c
  end.

(** The handlers that do not write to any log. *)
Definition keepsLog (c : Command) : bool :=
  match c with
  | CreateOrder _ _ _ _ _ _ | AllocateFuel _ _ _ | SaveOrderDate _ _ _ | SaveAllocEdit _ _ _ _
  | SaveOverageComment _ _ _ | ConfirmClone _ _ _ _ _ | RenderOrders _ | ChangeRegion _
  | AddTechnician _ _ | DeleteTech _ _ => true
  | _ => false
  end.

(** ** The leaderboard against the history of a technician *)

(** The two tests of the loop of [renderLeaderboard] on an entry tagged
    with its region and date: within the region filter, and not before the
    cutoff date. *)
Definition inLeaderboard (regionFilter : string) (cutoff : option string)
  (x : string * string * Entry) : bool :=
  negb (JS.truthy_str regionFilter && negb (String.eqb x.1.1 regionFilter))
  && negb (match cutoff with Some c => String.ltb x.1.2 c | None => false end).

(** ** The figures of [ui.js], of the log view and of the unallocated report *)

(** [updateOrderCounter]: the figures of the counter badge and of the
    summary strip of the current region. *)
Record OrderCounter := mkOrderCounter {
  ordersCount : nat;
  openCount : nat;
  totalOrdered : Z;
  totalSupplied : Z;
  totalBalance : Z
}.

Definition updateOrderCounter (db : DB) : option OrderCounter :=
  match theRegion db with
  | None => None
  | Some region =>
      let os := JS.values (orders region) in
      let ordered := JS.sum (totalLiters <$> os) in
      let supplied_ := JS.sum (suppliedTotal <$> os) in
      Some (mkOrderCounter (length os)
              (length (filter (λ o, bool_decide (status o = OPEN)) os))
              ordered supplied_ (ordered - supplied_))
  end.

(** [renderLogView]: the figures of the entries of the chosen date,
    computed once for the stat row above the list and once for the totals
    row below it. *)
Record DayFigures := mkDayFigures {
  allocTotal : Z;
  unallocTotal : Z;
  dayTotal : Z
}.

Definition dayStatRow (entries : list Entry) : DayFigures :=
  let allocTotal := JS.sum (supplied <$> filter (λ e, negb (unallocated e)) entries) in
  let unallocTotal := JS.sum (supplied <$> filter (λ e, unallocated e) entries) in
  mkDayFigures allocTotal unallocTotal (allocTotal + unallocTotal).

Definition dayTotalsRow (entries : list Entry) : DayFigures :=
  mkDayFigures (JS.sum (supplied <$> filter (λ e, negb (unallocated e)) entries))
               (JS.sum (supplied <$> filter (λ e, unallocated e) entries))
               (JS.sum (supplied <$> entries)).

(** Litres of the entries of a list that pass a test. *)
Definition sumWhere (p : Entry → bool) (es : list Entry) : Z :=
  JS.sum (supplied <$> filter (λ e, p e) es).

(** The test of [suppliedBy]: the entry names the order and the
    technician. *)
Definition suppliedByTest (no tech : string) (e : Entry) : bool :=
  refersTo no e && String.eqb (technician e) tech.

(** ** Which handlers can part an invariant *)

(** The handlers that keep the status of every order in step with its
    totals whatever their input, those that keep the supplied totals equal
    to the log, and those that keep the allocations within the totals. *)
Definition keepsStatus (c : Command) : bool :=
  match c with
  | CreateOrder _ _ _ _ _ _ | ConfirmClone _ _ _ _ _ | DeleteDailyEntry _ _ _ _
  | RestoreData _ _ => false
  | _ => true
  end.

Definition keepsSupplied (c : Command) : bool :=
  match c with
  | CreateOrder _ _ _ _ _ _ | ConfirmClone _ _ _ _ _ | SaveEditEntry _ _ _ _
  | DeleteDailyEntry _ _ _ _ | RestoreData _ _ => false
  | _ => true
  end.

Definition keepsAllocations (c : Command) : bool :=
  match c with
  | CreateOrder _ _ _ _ _ _ | DeleteTech _ _ | ConfirmRename (Some (RenameTech _)) _
  | RestoreData _ _ => false
  | _ => true
  end.

(** Every order of [r1] is an order of [r] under the same number with the
    same totals and status, or with the same total and allocations. *)
Definition keepsTotals (r r1 : Region) : Prop :=
  ∀ no o1, orders r1 !! no = Some o1 →
    ∃ o, orders r !! no = Some o ∧ totalLiters o1 = totalLiters o
         ∧ suppliedTotal o1 = suppliedTotal o ∧ status o1 = status o.

Definition keepsAllocs (r r1 : Region) : Prop :=
  ∀ no o1, orders r1 !! no = Some o1 →
    ∃ o, orders r !! no = Some o ∧ totalLiters o1 = totalLiters o
         ∧ allocations o1 = allocations o.

(** ** [renderDailyHistory]: the summary card of a date *)

(** One row of the summary card: a technician, the litres of the
    technician on that date, the order number taken from the technician's
    first entry of the date (a dash when that entry has none), and the
    balance shown. *)
Record TechSummary := mkTechSummary {
  ts_technician : string;
  ts_supplied : Z;
  ts_orderNo : string;
  ts_balance : Z
}.

Definition dash : string := "—".

(** Body of [entries.forEach(e => ...)].  For an inherited name the test
    [!techSummaries[e.technician]] fails, no row is created, and the litres
    are added to a property of the inherited object. *)
Definition addToSummary (techSummaries : gmap string TechSummary) (e : Entry)
  : gmap string TechSummary :=
  let t := technician e in
  let m1 :=
    if JS.has techSummaries t then techSummaries
    else <[t := mkTechSummary t 0 (JS.or_str (default "" (entryOrderNo e)) dash) 0]> techSummaries in
  alter (λ ts, mkTechSummary (ts_technician ts) (ts_supplied ts + supplied e)
                 (ts_orderNo ts) (ts_balance ts)) t m1.

(** Body of [Object.values(techSummaries).forEach(ts => ...)]. *)
Definition withBalance (region : Region) (ts : TechSummary) : TechSummary :=
  if String.eqb (ts_orderNo ts) dash then ts
  else match orders region !! ts_orderNo ts with
       | Some order =>
           mkTechSummary (ts_technician ts) (ts_supplied ts) (ts_orderNo ts)
                         (totalLiters order - suppliedTotal order)
       | None => ts
       end.

Definition techSummaries (region : Region) (entries : list Entry) : gmap string TechSummary :=
  withBalance region <$> foldl addToSummary ∅ entries.

(** * Properties *)

(** ** Status and totals at creation *)

(** [statusInv] says of every order: CLOSED exactly when
    [suppliedTotal >= totalLiters], and OPEN otherwise. *)
Lemma status_statusOf o :
  status o = statusOf o
  ↔ (status o = CLOSED ↔ totalLiters o ≤ suppliedTotal o)
    ∧ (status o = OPEN ↔ suppliedTotal o < totalLiters o).
Proof.
  unfold statusOf. case_bool_decide as H; destruct (status o);
    intuition (try congruence; try lia).
Qed.

(** C1.  After creating an order the status need not agree with the two
    totals: with the litres field left blank the order is stored OPEN with
    [suppliedTotal = 0 >= totalLiters = 0].  The render that ends
    [createOrder] closes it when it displays it; when the orders page is
    filtered so that the new order is not displayed, the order stays OPEN. *)
Theorem createOrder_blank_total_filtered :
  statusInv DB_DEFAULT
  ∧ (exec (createBlankTotal filterFrom2027) DB_DEFAULT).1 = Done
  ∧ orderOf "O1" (after (createBlankTotal filterFrom2027) DB_DEFAULT)
      = Some (mkOrder "O1" "KBB 002" 0 0 ∅ OPEN day1 None)
  ∧ ¬ statusInv (after (createBlankTotal filterFrom2027) DB_DEFAULT)
  ∧ orderOf "O1" (after (createBlankTotal noFilter) DB_DEFAULT)
      = Some (mkOrder "O1" "KBB 002" 0 0 ∅ CLOSED day1 None).
Proof.
  split; [by apply (bool_decide_unpack _); vm_compute|].
  split; [by vm_compute|].
  split; [by vm_compute|].
  split; [by apply (bool_decide_eq_false_1 _); vm_compute|].
  by vm_compute.
Qed.

(** ** Reading and writing the current region *)

Lemma theRegion_putRegion r db : theRegion (putRegion r db) = Some r.
Proof. unfold theRegion, putRegion. simpl. apply lookup_insert_eq. Qed.

Lemma regionOf_putRegion r db : regionOf (putRegion r db) = r.
Proof. unfold regionOf. by rewrite theRegion_putRegion. Qed.

Lemma regionOf_Some db r : theRegion db = Some r → regionOf db = r.
Proof. unfold regionOf. by intros ->. Qed.

Lemma putRegion_same db r : theRegion db = Some r → putRegion r db = db.
Proof.
  unfold theRegion, putRegion, set_regions. intros H.
  rewrite insert_id by done. by destruct db.
Qed.

Lemma regions_putRegion_nonempty r db : regions (putRegion r db) ≠ ∅.
Proof. unfold putRegion. simpl. apply insert_non_empty. Qed.

Lemma currentRegion_putRegion r db : currentRegion (putRegion r db) = currentRegion db.
Proof. done. Qed.

Lemma regions_putRegion_other r db rn :
  rn ≠ currentRegion db → regions (putRegion r db) !! rn = regions db !! rn.
Proof. intros H. unfold putRegion. simpl. by rewrite lookup_insert_ne. Qed.

(** [populateRegions] writes nothing. *)
Lemma populateRegions_snd db : (populateRegions db).2 = db.
Proof. unfold populateRegions. by destruct (theRegion db). Qed.

(** What the guards [JS.has] and [JS.assign] come to. *)
Lemma has_false {A} (m : gmap string A) k :
  JS.has m k = false → m !! k = None ∧ JS.inherited k = false.
Proof.
  unfold JS.has. intros H. apply orb_false_iff in H as [H1 H2]. split; [|done].
  apply bool_decide_eq_false_1 in H1. destruct (m !! k); [|done]. exfalso. apply H1. by eexists.
Qed.

Lemma has_own {A} (m : gmap string A) k : is_Some (m !! k) → JS.has m k = true.
Proof. intros H. unfold JS.has. by rewrite (bool_decide_eq_true_2 _ H). Qed.

Lemma has_fresh {A} (m : gmap string A) k :
  m !! k = None → JS.inherited k = false → JS.has m k = false.
Proof.
  intros H1 H2. unfold JS.has. rewrite H2, orb_false_r.
  apply bool_decide_eq_false_2. rewrite H1. by intros [? ?].
Qed.

Lemma assign_cases {A} k (v : A) (m : gmap string A) :
  JS.assign k v m = <[k := v]> m
  ∨ (JS.assign k v m = m ∧ k = "__proto__" ∧ m !! k = None).
Proof.
  unfold JS.assign. destruct (String.eqb_spec k "__proto__") as [->|Hk]; simpl; [|by left].
  case_bool_decide as Hs; simpl; [by left|]. right. split; [done|]. split; [done|].
  destruct (m !! "__proto__"); [|done]. exfalso. apply Hs. by eexists.
Qed.

Lemma assign_plain {A} k (v : A) (m : gmap string A) :
  JS.inherited k = false → JS.assign k v m = <[k := v]> m.
Proof.
  intros Hk. unfold JS.assign. destruct (String.eqb_spec k "__proto__") as [->|]; [|done].
  by vm_compute in Hk.
Qed.

(** ** The render of the order cards *)

Lemma _buildOrderCard_status_spec o :
  _buildOrderCard_status o
  = if bool_decide (totalLiters o ≤ suppliedTotal o) then set_status CLOSED o else o.
Proof.
  unfold _buildOrderCard_status.
  destruct (Z.leb_spec (totalLiters o - suppliedTotal o) 0);
    destruct (decide (status o = CLOSED)) as [Hs|Hs];
    [rewrite (bool_decide_eq_true_2 _ Hs)|rewrite (bool_decide_eq_false_2 _ Hs)
    |rewrite (bool_decide_eq_true_2 _ Hs)|rewrite (bool_decide_eq_false_2 _ Hs)];
    simpl; case_bool_decide; try lia; try done.
  destruct o; simpl in *; by subst.
Qed.

Lemma cardIfShown_fixed ui o : status o = statusOf o → cardIfShown ui o = o.
Proof.
  intros Hs. unfold cardIfShown. destruct (passesFilter ui o); [|done].
  rewrite _buildOrderCard_status_spec. unfold statusOf in Hs.
  case_bool_decide; [|done]. destruct o; simpl in *; by subst.
Qed.

Lemma renderOrders_regionOf ui db :
  regionOf (renderOrders ui db)
  = set_orders (cardIfShown ui <$> orders (regionOf db)) (regionOf db).
Proof.
  unfold renderOrders, regionOf at 2 3. destruct (theRegion db) as [r|] eqn:E; simpl.
  - by rewrite regionOf_putRegion.
  - unfold regionOf. rewrite E. simpl. by rewrite fmap_empty.
Qed.

Lemma renderOrders_dailyLog ui db :
  dailyLog (regionOf (renderOrders ui db)) = dailyLog (regionOf db).
Proof. by rewrite renderOrders_regionOf. Qed.

Lemma renderOrders_currentRegion ui db :
  currentRegion (renderOrders ui db) = currentRegion db.
Proof. unfold renderOrders. by destruct (theRegion db). Qed.

Lemma renderOrders_nonempty ui db : regions db ≠ ∅ → regions (renderOrders ui db) ≠ ∅.
Proof.
  unfold renderOrders. destruct (theRegion db); [|done].
  intros _. apply regions_putRegion_nonempty.
Qed.

Lemma renderOrders_other ui db rn :
  rn ≠ currentRegion db → regions (renderOrders ui db) !! rn = regions db !! rn.
Proof.
  intros H. unfold renderOrders. destruct (theRegion db); [|done].
  by apply regions_putRegion_other.
Qed.

Lemma statusInv_current db r no o :
  statusInv db → theRegion db = Some r → orders r !! no = Some o → status o = statusOf o.
Proof. intros H Hr Ho. exact (H _ _ Hr _ _ Ho). Qed.

Lemma renderOrders_id ui db : statusInv db → renderOrders ui db = db.
Proof.
  intros Hinv. unfold renderOrders. destruct (theRegion db) as [r|] eqn:E; [|done].
  apply putRegion_same. rewrite E. f_equal.
  assert (cardIfShown ui <$> orders r = orders r) as ->.
  { apply map_eq. intros no. rewrite lookup_fmap.
    destruct (orders r !! no) as [o|] eqn:Ho; [|done]. simpl.
    by rewrite (cardIfShown_fixed ui o (statusInv_current _ _ _ _ Hinv E Ho)). }
  by destruct r.
Qed.

Lemma cardIfShown_cases ui o :
  cardIfShown ui o = o
  ∨ (cardIfShown ui o = set_status CLOSED o ∧ totalLiters o ≤ suppliedTotal o
     ∧ passesFilter ui o = true).
Proof.
  unfold cardIfShown. destruct (passesFilter ui o); [|by left].
  rewrite _buildOrderCard_status_spec. case_bool_decide; [by right|by left].
Qed.

Lemma cardIfShown_spec ui o :
  cardIfShown ui o
  = if passesFilter ui o && bool_decide (totalLiters o ≤ suppliedTotal o)
    then set_status CLOSED o else o.
Proof.
  unfold cardIfShown. destruct (passesFilter ui o); [|done].
  apply _buildOrderCard_status_spec.
Qed.

(** C9, as the code has it.  The leaderboard, the technician history, the
    unallocated report and the export sheets leave the store as it is.  The
    render of the order cards, which hosts the stale-order check, writes to
    the store: every order of the current region that it displays and whose
    [suppliedTotal >= totalLiters] gets status CLOSED.  It changes nothing
    else, and it leaves the store unchanged when every status agrees with
    the two totals. *)
Theorem render_writes_only_status v db :
  (match v with OrderCards _ => True | _ => render v db = db end)
  ∧ (statusInv db → render v db = db)
  ∧ currentRegion (render v db) = currentRegion db
  ∧ (∀ rn, rn ≠ currentRegion db → regions (render v db) !! rn = regions db !! rn)
  ∧ technicians (regionOf (render v db)) = technicians (regionOf db)
  ∧ technicianPlates (regionOf (render v db)) = technicianPlates (regionOf db)
  ∧ dailyLog (regionOf (render v db)) = dailyLog (regionOf db)
  ∧ (∀ no, orders (regionOf (render v db)) !! no
           = (λ o, if buildsCard v o && bool_decide (totalLiters o ≤ suppliedTotal o)
                   then set_status CLOSED o else o) <$> orders (regionOf db) !! no).
Proof.
  destruct v; simpl.
  1-4: by (repeat split; try done; intros no; destruct (orders _ !! no)).
  split; [done|]. split; [apply renderOrders_id|].
  split; [apply renderOrders_currentRegion|].
  split; [intros rn; apply renderOrders_other|].
  rewrite renderOrders_regionOf. simpl. repeat split; try done.
  intros no. rewrite lookup_fmap. destruct (orders (regionOf db) !! no) as [o|]; [|done].
  simpl. by rewrite cardIfShown_spec.
Qed.

(** On a store with orders: the cards of [annSupplied60] are built for its
    order O1 (100 litres, 60 supplied, OPEN), whose status agrees with its
    totals, and the store stays as it is; the card of the order that
    [hiddenOrder] holds (0 of 0 litres, OPEN) is built and closes it. *)
Lemma render_writes_only_status_witness :
  orderOf "O1" annSupplied60
    = Some (mkOrder "O1" "KBB 002" 100 60 {["Ann" := 60]} OPEN day1 None)
  ∧ buildsCard (OrderCards noFilter)
      (mkOrder "O1" "KBB 002" 100 60 {["Ann" := 60]} OPEN day1 None) = true
  ∧ statusInv annSupplied60
  ∧ render (OrderCards noFilter) annSupplied60 = annSupplied60
  ∧ orders (regionOf (render (OrderCards noFilter) hiddenOrder)) !! "O1"
    = Some (mkOrder "O1" "KBB 002" 0 0 ∅ CLOSED day1 None).
Proof.
  assert (statusInv annSupplied60) as H by (apply (bool_decide_unpack _); by vm_compute).
  split; [by vm_compute|]. split; [by vm_compute|]. split; [exact H|].
  split.
  - exact (proj1 (proj2 (render_writes_only_status (OrderCards noFilter) annSupplied60)) H).
  - rewrite (proj2 (proj2 (proj2 (proj2 (proj2 (proj2 (proj2
               (render_writes_only_status (OrderCards noFilter) hiddenOrder))))))) "O1").
    by vm_compute.
Defined.

(** C9, as stated, fails for the order cards: a render of the orders page
    without filters closes the order that [createOrder] left OPEN. *)
Lemma render_order_cards_changes_store :
  orderOf "O1" hiddenOrder = Some (mkOrder "O1" "KBB 002" 0 0 ∅ OPEN day1 None)
  ∧ orderOf "O1" (render (OrderCards noFilter) hiddenOrder)
      = Some (mkOrder "O1" "KBB 002" 0 0 ∅ CLOSED day1 None)
  ∧ render (OrderCards noFilter) hiddenOrder ≠ hiddenOrder.
Proof.
  split; [by vm_compute|]. split; [by vm_compute|].
  intros H. apply (f_equal (orderOf "O1")) in H. vm_compute in H. discriminate.
Qed.

(** ** Regions *)

Lemma withRegion_nonempty db k :
  regions db ≠ ∅ →
  (∀ r, theRegion db = Some r → regions (k r).2 ≠ ∅) →
  regions (withRegion db k).2 ≠ ∅.
Proof. unfold withRegion. intros Hd Hk. destruct (theRegion db); [by apply Hk|done]. Qed.

Ltac nonempty_step :=
  first [ assumption
        | apply regions_putRegion_nonempty
        | apply renderOrders_nonempty; apply regions_putRegion_nonempty
        | apply insert_non_empty ].

Ltac nonempty_cases :=
  repeat (simpl; first [ nonempty_step | case_match ]).

(** Every handler except [restoreData] keeps the set of regions non-empty;
    [restoreData] installs the mapping of the file, whatever it holds. *)
Lemma regions_stay_nonempty c db :
  regions db ≠ ∅ →
  regions (after c db) ≠ ∅
  ∨ ∃ parsed cur, c = RestoreData true parsed ∧ cand_regions parsed = Some ∅
                  ∧ cand_currentRegion parsed = Some cur ∧ after c db = mkDB cur ∅.
Proof.
  intros Hd. destruct c; unfold after; simpl;
    try (left;
         first [ apply withRegion_nonempty; [done|intros r Hr]
               | idtac ];
         unfold createOrder, allocateFuel, saveOrderDate, deleteOrder, saveAllocEdit,
           saveOverageComment, confirmClone, saveDaily, saveEditEntry, deleteDailyEntry,
           changeRegion, addRegion, addTechnician, deleteTech, renderOrdersIfActive;
         rewrite ?populateRegions_snd;
         nonempty_cases; fail).
  - (* saveOverageComment *)
    left. unfold saveOverageComment. destruct ctx as [[no tech]|]; [|done].
    case_match; [done|]. apply withRegion_nonempty; [done|intros r Hr]. nonempty_cases.
  - (* renderOrders *)
    left. by apply renderOrders_nonempty.
  - (* saveDaily *)
    left. unfold saveDaily. case_match; [done|].
    apply withRegion_nonempty; [done|intros r Hr].
    destruct cards; [apply regions_putRegion_nonempty|].
    destruct (foldl _ _ _) as [[r2 sv] sk]. simpl.
    apply renderOrders_nonempty, regions_putRegion_nonempty.
  - (* saveEditEntry *)
    left. unfold saveEditEntry. destruct ctx as [[date idx]|]; [|done].
    apply withRegion_nonempty; [done|intros r Hr].
    unfold renderOrdersIfActive. nonempty_cases.
  - (* addRegion *)
    left. unfold addRegion. case_match; [done|]. rewrite populateRegions_snd. simpl.
    apply insert_non_empty.
  - (* deleteRegion *)
    left. unfold deleteRegion. case_bool_decide as Hsz; [done|].
    destruct (regions db !! rName) as [r|] eqn:Hr; [|done].
    destruct confirmed; simpl; [|done]. rewrite populateRegions_snd. simpl.
    intros He. apply Hsz. rewrite <- (insert_delete_id (regions db) rName r Hr).
    rewrite He. rewrite insert_empty, map_size_singleton. lia.
  - (* confirmRename *)
    left. unfold confirmRename. destruct ctx as [[name|name]|]; [| |done].
    + case_match; [done|]. unfold _renameRegion.
      case_match eqn:Hn; [done|]. destruct (JS.has _ _); [done|].
      destruct (regions db !! name) as [r|]; [|done]. rewrite populateRegions_snd. simpl.
      apply String.eqb_neq in Hn.
      intros He. apply (f_equal (λ m, m !! JS.trim renameInput)) in He.
      rewrite lookup_delete_ne, lookup_insert_eq, lookup_empty in He by done. done.
    + case_match; [done|]. unfold _renameTech. case_match; [done|].
      rewrite populateRegions_snd. simpl.
      intros He. apply fmap_empty_inv in He. done.
  - (* restoreData *)
    unfold restoreData.
    destruct (cand_regions parsed) as [rs|] eqn:Hrs; [|by left].
    destruct (cand_currentRegion parsed) as [cur|] eqn:Hcur; [|by left].
    case_match; [by left|]. destruct confirmed; simpl; [|by left].
    destruct (decide (rs = ∅)) as [->|Hne].
    + right. exists parsed, cur. unfold replaceDB. repeat split; try done; by case_match.
    + left. unfold replaceDB. by case_match.
Qed.

(** C4.  [deleteRegion] refuses when one region is left, but [restoreData]
    installs a backup whose [regions] object is empty: the check
    [!parsed.regions] only asks for the property.  The store is replaced,
    and the renders that follow throw on the missing current region. *)
Theorem restore_installs_empty_regions :
  regionsNonEmpty DB_DEFAULT
  ∧ exec (DeleteRegion true "New CCS") DB_DEFAULT = (Alerted OnlyRegion, DB_DEFAULT)
  ∧ exec (RestoreData true emptyBackup) DB_DEFAULT = (Alerted RestoreFailed, mkDB "New CCS" ∅)
  ∧ ¬ regionsNonEmpty (after (RestoreData true emptyBackup) DB_DEFAULT).
Proof.
  split; [apply insert_non_empty|]. split; [by vm_compute|]. split; [by vm_compute|].
  intros H. by apply H.
Qed.

(** ** Date keys of the daily log *)

Lemma logOf_putRegion date r db : logOf date (putRegion r db) = dailyLog r !! date.
Proof. unfold logOf. by rewrite regionOf_putRegion. Qed.

Lemma logOf_renderOrders date ui db : logOf date (renderOrders ui db) = logOf date db.
Proof. unfold logOf. by rewrite renderOrders_dailyLog. Qed.

Lemma logOf_renderOrdersIfActive date ui db :
  logOf date (renderOrdersIfActive ui db) = logOf date db.
Proof. unfold renderOrdersIfActive. destruct (pageOrdersActive ui); [apply logOf_renderOrders|done]. Qed.

Lemma deleteDailyEntry_log ui date idx db region entries entry :
  theRegion db = Some region →
  dailyLog region !! date = Some entries →
  entries !! idx = Some entry →
  ∀ date',
    logOf date' (after (DeleteDailyEntry ui true date idx) db)
    = if bool_decide (date' = date)
      then (if bool_decide (length entries = 1%nat) then None else Some (delete idx entries))
      else dailyLog region !! date'.
Proof.
  intros Hr Hd He date'. unfold after. simpl. unfold deleteDailyEntry, withRegion.
  rewrite Hr, Hd, He. simpl. rewrite logOf_renderOrdersIfActive, logOf_putRegion. simpl.
  unfold logAfterDelete, JS.splice1.
  assert (length (delete idx entries) = (length entries - 1)%nat) as Hlen
    by (apply length_delete; rewrite He; eexists; reflexivity).
  destruct (delete idx entries) as [|e es] eqn:Hdel; simpl in Hlen.
  - apply lookup_lt_Some in He.
    rewrite (bool_decide_eq_true_2 (length entries = 1%nat)) by lia.
    case_bool_decide; subst; [apply lookup_delete_eq|by apply lookup_delete_ne].
  - rewrite (bool_decide_eq_false_2 (length entries = 1%nat)) by lia.
    case_bool_decide; subst; [apply lookup_insert_eq|by apply lookup_insert_ne].
Qed.

Lemma deleteOrder_log ui no db region o :
  theRegion db = Some region →
  orders region !! no = Some o →
  ∀ date, logOf date (after (DeleteOrder ui true no) db)
          = filter (λ e, negb (refersTo no e)) <$> dailyLog region !! date.
Proof.
  intros Hr Ho date. unfold after. simpl. unfold deleteOrder, withRegion.
  rewrite Hr, Ho. simpl. rewrite logOf_renderOrders, logOf_putRegion. simpl.
  by rewrite lookup_fmap.
Qed.

(** C10.  Deleting one daily entry removes the date key when the list of
    that date becomes empty, so it never leaves a date mapped to an empty
    list; deleting an order filters every list and keeps every date key, and
    there are stores (here: one entry logged on the order) where a date is
    left mapped to the empty list. *)
Theorem delete_entry_drops_date_delete_order_keeps_it :
  (∀ ui date idx db region entries entry,
      theRegion db = Some region →
      dailyLog region !! date = Some entries →
      entries !! idx = Some entry →
      logOf date (after (DeleteDailyEntry ui true date idx) db)
        = (if bool_decide (length entries = 1%nat) then None else Some (delete idx entries))
      ∧ logOf date (after (DeleteDailyEntry ui true date idx) db) ≠ Some [])
  ∧ (∀ ui no db region o date entries,
      theRegion db = Some region →
      orders region !! no = Some o →
      dailyLog region !! date = Some entries →
      logOf date (after (DeleteOrder ui true no) db)
        = Some (filter (λ e, negb (refersTo no e)) entries))
  ∧ (∃ db no date,
      is_Some (orderOf no db)
      ∧ (∃ e, logOf date db = Some [e])
      ∧ logOf date (after (DeleteOrder noFilter true no) db) = Some []).
Proof.
  split; [|split].
  - intros ui date idx db region entries entry Hr Hd He.
    rewrite (deleteDailyEntry_log ui date idx db region entries entry Hr Hd He date).
    rewrite bool_decide_eq_true_2 by done.
    split; [done|]. case_bool_decide as Hl; [done|].
    intros [= Hdel]. apply (f_equal length) in Hdel.
    rewrite length_delete in Hdel by (rewrite He; eexists; reflexivity). simpl in Hdel.
    apply lookup_lt_Some in He. lia.
  - intros ui no db region o date entries Hr Ho Hd.
    rewrite (deleteOrder_log ui no db region o Hr Ho date). by rewrite Hd.
  - exists annSupplied60, "O1", day1. split; [by vm_compute; eexists|].
    split; [eexists; by vm_compute|]. by vm_compute.
Qed.

Lemma delete_entry_drops_date_delete_order_keeps_it_witness :
  logOf day1 (after (DeleteDailyEntry noFilter true day1 0%nat) annSupplied60) = None
  ∧ logOf day1 (after (DeleteOrder noFilter true "O1") annSupplied60) = Some [].
Proof.
  pose proof delete_entry_drops_date_delete_order_keeps_it as (Hentry & Horder & _).
  split.
  - refine (proj1 (Hentry noFilter day1 0%nat annSupplied60 (regionOf annSupplied60)
                     [mkEntry (Some "O1") "Ann" 60 None false]
                     (mkEntry (Some "O1") "Ann" 60 None false) _ _ _)).
    + by vm_compute.
    + by vm_compute.
    + reflexivity.
  - refine (Horder noFilter "O1" annSupplied60 (regionOf annSupplied60)
              (mkOrder "O1" "KBB 002" 100 60 {["Ann" := 60]} OPEN day1 None) day1
              [mkEntry (Some "O1") "Ann" 60 None false] _ _ _).
    + by vm_compute.
    + by vm_compute.
    + by vm_compute.
Defined.

(** ** Allocations *)

(** C7.  [allocateFuel] tests [o.allocations[t]] for truthiness, so an
    allocation of [0] (left by [saveAllocEdit]) does not count as an
    allocation: the call goes through and overwrites the entry. *)
Theorem allocateFuel_overwrites_zero_allocation :
  (orderOf "O1" zeroAllocation ≫= λ o, allocations o !! "Bob") = Some 0
  ∧ (exec (AllocateFuel "O1" "Bob" 10) zeroAllocation).1 = Done
  ∧ (orderOf "O1" (after (AllocateFuel "O1" "Bob" 10) zeroAllocation)
       ≫= λ o, allocations o !! "Bob") = Some 10.
Proof. repeat split; by vm_compute. Qed.

(** With a non-zero allocation the call is refused and the store is left
    as it is. *)
Lemma allocateFuel_rejects_nonzero_allocation db region o orderKey t v amt :
  theRegion db = Some region →
  orders region !! orderKey = Some o →
  allocations o !! t = Some v →
  v ≠ 0 → t ≠ "" → amt ≠ 0 →
  exec (AllocateFuel orderKey t amt) db = (Alerted AlreadyAllocated, db).
Proof.
  intros Hr Ho Ha Hv Ht Hamt. simpl. unfold allocateFuel, withRegion.
  rewrite Hr, Ho. unfold JS.truthy_str, JS.truthy_num, allocationTruthy.
  rewrite Ha. unfold JS.truthy_num.
  destruct (String.eqb_spec t ""); [done|].
  destruct (Z.eqb_spec amt 0); [done|].
  destruct (Z.eqb_spec v 0); [done|]. done.
Qed.

(** C3.  The sum of the allocations can exceed the order total: the amount
    field of [allocateFuel] accepts a negative number (only [0] and blank
    are refused), and removing the technician who holds it leaves the
    others above the total; the litres field of [createOrder] accepts a
    negative total, under which the empty allocation map already lies. *)
Theorem allocations_can_exceed_total :
  allocInv negativeAllocation
  ∧ (orderOf "O1" (after (DeleteTech true "Ann") negativeAllocation)
       ≫= λ o, Some (allocations o, totalLiters o)) = Some ({["Bob" := 150]}, 100)
  ∧ ¬ allocInv (after (DeleteTech true "Ann") negativeAllocation)
  ∧ allocInv bobOnly
  ∧ ¬ allocInv (after (CreateOrder noFilter day1 "O1" "KBB 002" (-5) "") bobOnly).
Proof.
  split; [by apply (bool_decide_unpack _); vm_compute|].
  split; [by vm_compute|].
  split; [by apply (bool_decide_eq_false_1 _); vm_compute|].
  split; [by apply (bool_decide_unpack _); vm_compute|].
  by apply (bool_decide_eq_false_1 _); vm_compute.
Qed.

(** ** The cached supplied total *)

(** C2.  The cached total can part from the log.  A card whose order is
    picked while the order is over-supplied carries a negative [max]
    ([updateOrderDetails] floors the technician's remainder at zero but not
    the order balance); once the order is open again [saveDaily] applies
    that negative amount; deleting the other entry then clamps the cached
    total at zero while the log sums to [-50]. *)
Theorem stale_cap_then_clamp_breaks_supplied_total :
  supp_input_max secondCard = Some (-50)
  ∧ suppliedInv editedBack
  ∧ logOf day1 staleCardSaved
      = Some [mkEntry (Some "O1") "Bob" 10 None false; mkEntry (Some "O1") "Bob" (-50) None false]
  ∧ suppliedInv staleCardSaved
  ∧ (suppliedTotal <$> orderOf "O1" firstEntryDeleted) = Some 0
  ∧ loggedFor "O1" (regionOf firstEntryDeleted) = -50
  ∧ ¬ suppliedInv firstEntryDeleted.
Proof.
  split; [by vm_compute|].
  split; [by apply (bool_decide_unpack _); vm_compute|].
  split; [by vm_compute|].
  split; [by apply (bool_decide_unpack _); vm_compute|].
  split; [by vm_compute|].
  split; [by vm_compute|].
  by apply (bool_decide_eq_false_1 _); vm_compute.
Qed.

(** ** Saving a daily batch *)

Lemma truthy_str_true s : s ≠ "" → JS.truthy_str s = true.
Proof. unfold JS.truthy_str. by destruct (String.eqb_spec s ""). Qed.

Lemma truthy_str_false s : JS.truthy_str s = false → s = "".
Proof. unfold JS.truthy_str. by destruct (String.eqb_spec s ""). Qed.

Lemma orderOf_putRegion no r db : orderOf no (putRegion r db) = orders r !! no.
Proof. unfold orderOf. by rewrite regionOf_putRegion. Qed.

Lemma orderOf_renderOrders no ui db :
  orderOf no (renderOrders ui db) = cardIfShown ui <$> orderOf no db.
Proof. unfold orderOf. rewrite renderOrders_regionOf. simpl. by rewrite lookup_fmap. Qed.

Lemma suppliedTotal_cardIfShown ui o : suppliedTotal (cardIfShown ui o) = suppliedTotal o.
Proof. by destruct (cardIfShown_cases ui o) as [->|[-> _]]. Qed.

Lemma suppliedTotal_closeFilled o : suppliedTotal (closeFilled o) = suppliedTotal o.
Proof. unfold closeFilled. by case_match. Qed.





(** *** The two counters of a batch *)









(** ** Renaming a technician *)

(** C6, as stated, fails in two ways.  Renaming onto a name that already
    has history adds the two totals; and a region that does not list the
    old name among its technicians is skipped, so its entries stay under
    the old name. *)
Lemma rename_merges_or_skips_history :
  techHistoryTotal "Ann" bothSupplied = 30
  ∧ techHistoryTotal "Bob" bothSupplied = 20
  ∧ techHistoryTotal "Bob" annRenamedBob = 50
  ∧ techHistoryTotal "Ann" annEastSupplied = 35
  ∧ techHistoryTotal "Anna" annRenamedAnna = 30
  ∧ techHistory "Ann" annRenamedAnna
    = [("East", day1, mkEntry None "Ann" 5 (Some "top-up") true)].
Proof. repeat split; by vm_compute. Qed.

Lemma sum_app l1 l2 : JS.sum (l1 ++ l2) = JS.sum l1 + JS.sum l2.
Proof. unfold JS.sum. induction l1 as [|x l1 IH]; simpl; [done|]. rewrite IH. lia. Qed.

Lemma litresOf_app name l1 l2 : litresOf name (l1 ++ l2) = litresOf name l1 + litresOf name l2.
Proof. unfold litresOf. by rewrite filter_app, fmap_app, sum_app. Qed.

Lemma litresOf_cons name x l :
  litresOf name (x :: l)
  = (if String.eqb (technician x.2) name then supplied x.2 else 0) + litresOf name l.
Proof.
  unfold litresOf. destruct (String.eqb (technician x.2) name) eqn:E.
  - rewrite filter_cons_True by (simpl; rewrite E; exact I). done.
  - rewrite filter_cons_False by (simpl; rewrite E; exact id). done.
Qed.

Lemma techHistoryTotal_litresOf name db :
  techHistoryTotal name db = litresOf name (storeEntries db).
Proof. done. Qed.

Lemma storeEntries_cons rn r (rs : list (string * Region)) :
  ('(rName, r) ← (rn, r) :: rs; entriesOfRegion rName r)
  = (entriesOfRegion rn r ++ ('(rName, r) ← rs; entriesOfRegion rName r))%list.
Proof. done. Qed.

Lemma renameInEntry_supplied oldName newName e :
  supplied (renameInEntry oldName newName e) = supplied e.
Proof. unfold renameInEntry. by case_match. Qed.

Lemma renameInEntry_technician oldName newName e :
  technician (renameInEntry oldName newName e)
  = if String.eqb (technician e) oldName then newName else technician e.
Proof. unfold renameInEntry. by case_match. Qed.

(** Relabelling a list of entries moves the litres of the old name to the
    new one and leaves none under the old name. *)
Lemma litresOf_renameRow oldName newName l :
  oldName ≠ newName →
  litresOf newName (renameRow oldName newName <$> l) = litresOf oldName l + litresOf newName l
  ∧ filter (λ x, String.eqb (technician x.2) oldName) (renameRow oldName newName <$> l) = [].
Proof.
  intros Hne. induction l as [|x l [IH1 IH2]]; [done|].
  rewrite fmap_cons, !litresOf_cons, IH1. unfold renameRow at 1 2 4. simpl.
  rewrite renameInEntry_supplied, renameInEntry_technician.
  destruct (String.eqb_spec (technician x.2) oldName) as [Ho|Ho].
  - rewrite String.eqb_refl.
    destruct (String.eqb_spec (technician x.2) newName) as [Hn|Hn]; [congruence|].
    split; [lia|].
    rewrite filter_cons_False; [done|]. simpl.
    rewrite renameInEntry_technician. destruct (String.eqb_spec (technician x.2) oldName); [|done].
    destruct (String.eqb_spec newName oldName); [congruence|exact id].
  - split; [lia|].
    rewrite filter_cons_False; [done|]. simpl.
    rewrite renameInEntry_technician. destruct (String.eqb_spec (technician x.2) oldName); [done|].
    destruct (String.eqb_spec (technician x.2) oldName); [done|exact id].
Qed.

Lemma indexOf_None x xs : JS.indexOf x xs = None ↔ x ∉ xs.
Proof.
  induction xs as [|y ys IH]; simpl.
  - split; [intros _; apply not_elem_of_nil|done].
  - destruct (String.eqb_spec y x) as [->|Hne].
    + split; [done|]. intros H. exfalso. apply H. left.
    + rewrite not_elem_of_cons. destruct (JS.indexOf x ys); simpl.
      * split; [done|]. intros [_ H]. by apply IH in H.
      * split; [|done]. intros _. split; [done|]. by apply IH.
Qed.

Lemma datedEntries_renamed oldName newName (log : gmap string (list Entry)) :
  ('(date, es) ← map_to_list ((λ es : list Entry, renameInEntry oldName newName <$> es) <$> log);
   (λ e, (date, e)) <$> es)
  = prod_map id (renameInEntry oldName newName)
      <$> ('(date, es) ← map_to_list log; (λ e, (date, e)) <$> es).
Proof.
  rewrite map_to_list_fmap. induction (map_to_list log) as [|[date es] l IH]; [done|].
  rewrite fmap_cons, !bind_cons, IH, fmap_app. f_equal. simpl.
  rewrite <- !list_fmap_compose. by apply list_fmap_ext.
Qed.

Lemma entriesOfRegion_renamed oldName newName rn r :
  oldName ∈ technicians r →
  entriesOfRegion rn (renameInRegion oldName newName r)
  = renameRow oldName newName <$> entriesOfRegion rn r.
Proof.
  intros Hin. unfold renameInRegion.
  destruct (JS.indexOf oldName (technicians r)) as [idx|] eqn:E;
    [|by apply indexOf_None in E].
  unfold entriesOfRegion, datedEntries. simpl. rewrite datedEntries_renamed.
  rewrite <- !list_fmap_compose. apply list_fmap_ext. by intros i [date e] _.
Qed.

Lemma entriesOfRegion_elem rn r x :
  x ∈ entriesOfRegion rn r →
  ∃ es, dailyLog r !! x.1.2 = Some es ∧ x.2 ∈ es.
Proof.
  unfold entriesOfRegion, datedEntries. intros H.
  apply list_elem_of_fmap in H as ([date e] & -> & H). simpl.
  apply list_elem_of_bind in H as ([date' es] & H & Hm).
  apply list_elem_of_fmap in H as (e' & [= -> ->] & He).
  apply elem_of_map_to_list in Hm. eauto.
Qed.

Lemma no_history_filter name rn r :
  ¬ hasHistory name r →
  filter (λ x, String.eqb (technician x.2) name) (entriesOfRegion rn r) = [].
Proof.
  intros Hno. apply elem_of_nil_inv. intros x [Hby Hx]%list_elem_of_filter.
  apply Hno. destruct (entriesOfRegion_elem rn r x Hx) as (es & Hd & He).
  exists x.1.2, es, x.2. repeat split; try done.
  simpl in Hby. by destruct (String.eqb_spec (technician x.2) name).
Qed.

Lemma renameInRegion_not_listed oldName newName r :
  oldName ∉ technicians r → renameInRegion oldName newName r = r.
Proof. intros H. unfold renameInRegion. by rewrite (proj2 (indexOf_None _ _) H). Qed.

Lemma rename_regions oldName newName (rs : list (string * Region)) :
  oldName ≠ newName →
  (∀ rn r, (rn, r) ∈ rs → hasHistory oldName r → oldName ∈ technicians r) →
  let rs' := prod_map id (renameInRegion oldName newName) <$> rs in
  litresOf newName ('(rn, r) ← rs'; entriesOfRegion rn r)
  = litresOf oldName ('(rn, r) ← rs; entriesOfRegion rn r)
    + litresOf newName ('(rn, r) ← rs; entriesOfRegion rn r)
  ∧ filter (λ x, String.eqb (technician x.2) oldName) ('(rn, r) ← rs'; entriesOfRegion rn r) = [].
Proof.
  intros Hne. induction rs as [|[rn r] rs IH]; intros Hlisted rs'; [done|].
  destruct IH as [IH1 IH2].
  { intros rn' r' Hin. apply (Hlisted rn'). by right. }
  unfold rs'. rewrite fmap_cons, !bind_cons, !litresOf_app, filter_app, IH1, IH2, app_nil_r.
  change (prod_map id (renameInRegion oldName newName) (rn, r))
    with (rn, renameInRegion oldName newName r).
  cbn beta iota. destruct (decide (oldName ∈ technicians r)) as [Hin|Hnin].
  - rewrite entriesOfRegion_renamed by done.
    destruct (litresOf_renameRow oldName newName (entriesOfRegion rn r) Hne) as [-> ->].
    split; [lia|done].
  - rewrite renameInRegion_not_listed by done.
    assert (¬ hasHistory oldName r) as Hno.
    { intros Hh. apply Hnin, (Hlisted rn r); [left|done]. }
    pose proof (no_history_filter oldName rn r Hno) as Hf.
    assert (litresOf oldName (entriesOfRegion rn r) = 0) as Hz
      by (unfold litresOf; by rewrite Hf).
    split; [lia|done].
Qed.

(** What [_renameTech] does to the history.  A rename of a name to itself
    does nothing.  For two different names, a region that does not list the
    old name among its technicians is left as it is; and when every region
    whose log has entries under the old name lists that name, the rename
    leaves no entry under the old name and adds the old total to whatever
    was recorded under the new name. *)
Lemma renameTech_history oldName newName db :
  (oldName = newName → _renameTech oldName newName db = (Returned, db))
  ∧ (oldName ≠ newName →
     (∀ rn r, regions db !! rn = Some r → oldName ∉ technicians r →
              regions (_renameTech oldName newName db).2 !! rn = Some r)
     ∧ ((∀ rn r, regions db !! rn = Some r → hasHistory oldName r → oldName ∈ technicians r) →
        techHistoryTotal newName (_renameTech oldName newName db).2
        = techHistoryTotal oldName db + techHistoryTotal newName db
        ∧ techHistory oldName (_renameTech oldName newName db).2 = [])).
Proof.
  unfold _renameTech. split.
  { intros ->. by rewrite String.eqb_refl. }
  intros Hne. destruct (String.eqb_spec newName oldName) as [Heq|_]; [congruence|].
  rewrite populateRegions_snd.
  split.
  { intros rn r Hr Hnot. simpl. rewrite lookup_fmap, Hr. simpl.
    by rewrite renameInRegion_not_listed. }
  intros Hlisted.
  rewrite !techHistoryTotal_litresOf. unfold techHistory, storeEntries. simpl.
  rewrite map_to_list_fmap.
  apply (rename_regions oldName newName (map_to_list (regions db)) Hne).
  intros rn r Hin. apply Hlisted with rn. by apply elem_of_map_to_list.
Qed.

(** C6, where it holds.  For two different names, when nothing is recorded
    under the new name and every region whose log has entries under the old
    name lists that name among its technicians, the rename preserves the
    total: what was recorded under the old name before is what is recorded
    under the new name after, and no entry is left under the old name. *)
Theorem renameTech_moves_history oldName newName db :
  oldName ≠ newName →
  techHistory newName db = [] →
  (∀ rn r, regions db !! rn = Some r → hasHistory oldName r → oldName ∈ technicians r) →
  techHistoryTotal newName (_renameTech oldName newName db).2 = techHistoryTotal oldName db
  ∧ techHistory oldName (_renameTech oldName newName db).2 = [].
Proof.
  intros Hne Hfresh Hlisted.
  destruct (proj2 (proj2 (renameTech_history oldName newName db) Hne) Hlisted) as [Htotal Hnone].
  split; [|done]. rewrite Htotal. unfold techHistoryTotal. rewrite Hfresh. simpl.
  unfold JS.sum. simpl. lia.
Qed.

Lemma renameTech_moves_history_witness :
  techHistoryTotal "Anna" (_renameTech "Ann" "Anna" bothSupplied).2 = 30
  ∧ techHistory "Ann" (_renameTech "Ann" "Anna" bothSupplied).2 = [].
Proof.
  refine (renameTech_moves_history "Ann" "Anna" bothSupplied _ _ _).
  - discriminate.
  - by vm_compute.
  - intros rn r Hr _.
    assert (dom (regions bothSupplied) = {["New CCS"]}) as Hdom by (by vm_compute).
    assert (rn = "New CCS") as ->.
    { apply (elem_of_dom_2 (regions bothSupplied)) in Hr. rewrite Hdom in Hr. set_solver. }
    vm_compute in Hr. injection Hr as <-. apply list_elem_of_here.
Defined.

(** ** Where the invariants are kept

    The handlers named by the invariants do keep them; the lemmas below
    state under which inputs. *)

Lemma sum_perm l l' : l ≡ₚ l' → JS.sum l = JS.sum l'.
Proof.
  unfold JS.sum. induction 1 as [|x l l' _ IH|x y l|l1 l2 l3 _ IH1 _ IH2]; simpl; try lia.
Qed.

Lemma sum_values_insert_fresh (m : gmap string Z) k v :
  m !! k = None → JS.sum (JS.values (<[k := v]> m)) = v + JS.sum (JS.values m).
Proof.
  intros H. unfold JS.values.
  rewrite (sum_perm _ _ (fmap_Permutation snd _ _ (map_to_list_insert m k v H))). done.
Qed.

Lemma sum_values_delete (m : gmap string Z) k v :
  m !! k = Some v → JS.sum (JS.values m) = v + JS.sum (JS.values (delete k m)).
Proof.
  intros H. unfold JS.values.
  rewrite <- (sum_perm _ _ (fmap_Permutation snd _ _ (map_to_list_delete m k v H))). done.
Qed.

Lemma sum_values_insert (m : gmap string Z) k v :
  JS.sum (JS.values (<[k := v]> m)) = JS.sum (JS.values m) - default 0 (m !! k) + v.
Proof.
  destruct (m !! k) as [x|] eqn:E; simpl.
  - rewrite <- insert_delete_eq, sum_values_insert_fresh by apply lookup_delete_eq.
    rewrite (sum_values_delete m k x E). lia.
  - rewrite sum_values_insert_fresh by done. lia.
Qed.

Lemma filter_all {A} (P : A → bool) (l : list A) :
  (∀ x, x ∈ l → P x = true) → filter (λ x, P x) l = l.
Proof.
  induction l as [|x l IH]; intros H; [done|].
  rewrite filter_cons_True by (simpl; rewrite (H x) by left; exact I).
  f_equal. apply IH. intros y Hy. apply H. by right.
Qed.

Lemma others_of_absent (m : gmap string Z) k :
  m !! k = None →
  filter (λ tv, negb (String.eqb tv.1 k)) (map_to_list m) = map_to_list m.
Proof.
  intros Hk. apply (filter_all (λ tv, negb (String.eqb tv.1 k))).
  intros [t v] Hin%elem_of_map_to_list. simpl.
  destruct (String.eqb_spec t k) as [->|]; [congruence|done].
Qed.

Lemma sum_values_others (m : gmap string Z) k :
  JS.sum ((filter (λ tv, negb (String.eqb tv.1 k)) (map_to_list m)).*2)
  = JS.sum (JS.values m) - default 0 (m !! k).
Proof.
  destruct (m !! k) as [v|] eqn:E; simpl.
  - rewrite (sum_values_delete m k v E).
    pose proof (map_to_list_delete m k v E) as Hp.
    rewrite <- (sum_perm _ _ (fmap_Permutation snd _ _
                 (filter_Permutation (λ tv : string * Z, negb (String.eqb tv.1 k)) _ _ Hp))).
    rewrite filter_cons_False by (simpl; rewrite String.eqb_refl; exact id).
    rewrite others_of_absent by apply lookup_delete_eq. unfold JS.values. lia.
  - rewrite others_of_absent by done. unfold JS.values. lia.
Qed.

Lemma allocatedSum_insert o t amt :
  allocatedSum (set_allocations (<[t := amt]> (allocations o)) o)
  = allocatedSum o - default 0 (allocations o !! t) + amt.
Proof. unfold allocatedSum. simpl. apply sum_values_insert. Qed.

Lemma everyOrder_putRegion (P : Region → string → Order → Prop) db r :
  everyOrder P db →
  map_Forall (λ no o, P r no o) (orders r) →
  everyOrder P (putRegion r db).
Proof. intros Hdb Hr. unfold everyOrder, putRegion. simpl. by apply map_Forall_insert_2. Qed.

Lemma everyOrder_current (P : Region → string → Order → Prop) db r :
  everyOrder P db → theRegion db = Some r → map_Forall (λ no o, P r no o) (orders r).
Proof. intros Hdb Hr. exact (Hdb _ _ Hr). Qed.

Lemma allocInv_renderOrders ui db : allocInv db → allocInv (renderOrders ui db).
Proof.
  intros Hinv. unfold renderOrders. destruct (theRegion db) as [r|] eqn:Hr; [|done].
  apply everyOrder_putRegion; [done|]. simpl.
  apply map_Forall_fmap. intros no o Ho. simpl.
  pose proof (everyOrder_current _ _ _ Hinv Hr no o Ho) as Hle. simpl in Hle.
  by destruct (cardIfShown_cases ui o) as [->|[-> _]].
Qed.

(** The part of C3 about the two allocation handlers: each keeps the sum
    of allocations of every order within the order total. *)
Lemma allocation_handlers_keep_allocInv db :
  allocInv db →
  (∀ orderKey t amt, allocInv (after (AllocateFuel orderKey t amt) db))
  ∧ (∀ ui orderNo_ tech newAmt, allocInv (after (SaveAllocEdit ui orderNo_ tech newAmt) db)).
Proof.
  intros Hinv. split.
  - intros orderKey t amt. unfold after. simpl. unfold allocateFuel, withRegion.
    destruct (theRegion db) as [r|] eqn:Hr; [|done].
    destruct (orders r !! orderKey) as [o|] eqn:Ho; [|done].
    repeat (case_match; try done). simpl.
    apply everyOrder_putRegion; [done|]. simpl.
    apply map_Forall_insert_2; [|exact (everyOrder_current _ _ _ Hinv Hr)].
    simpl. rewrite allocatedSum_insert.
    assert (default 0 (allocations o !! t) = 0) as ->.
    { unfold allocationTruthy, JS.truthy_num in *. destruct (allocations o !! t) as [v|]; [|done].
      simpl. destruct (Z.eqb_spec v 0); [done|]. done. }
    match goal with H : (_ <? _) = false |- _ => apply Z.ltb_ge in H end. lia.
  - intros ui orderNo_ tech newAmt. unfold after. simpl. unfold saveAllocEdit, withRegion.
    destruct (theRegion db) as [r|] eqn:Hr; [|done].
    destruct (orders r !! orderNo_) as [o|] eqn:Ho; [|done].
    destruct newAmt as [newAmt|]; [|done].
    repeat (case_match; try done). simpl.
    apply allocInv_renderOrders, everyOrder_putRegion; [done|]. simpl.
    apply map_Forall_insert_2; [|exact (everyOrder_current _ _ _ Hinv Hr)].
    simpl. destruct (assign_cases tech newAmt (allocations o)) as [->|(-> & _ & _)].
    + rewrite allocatedSum_insert.
      match goal with H : (_ <? _ + _) = false |- _ =>
        apply Z.ltb_ge in H; rewrite sum_values_others in H end.
      unfold allocatedSum. lia.
    + exact (everyOrder_current _ _ _ Hinv Hr _ o Ho).
Qed.

(** *** Status *)

Lemma applyEdit_status diff o : status (applyEdit diff o) = statusOf (applyEdit diff o).
Proof.
  destruct o as [no plate total sup allocs st date cs].
  unfold applyEdit, statusOf. simpl.
  set (s := Z.max 0 (sup + diff)).
  destruct (Z.ltb_spec s total) as [Hlt|Hge].
  - rewrite andb_true_r.
    destruct st; simpl; (destruct (Z.leb_spec total s); [lia|]); simpl;
      by rewrite bool_decide_eq_false_2 by lia.
  - rewrite andb_false_r. simpl.
    destruct (Z.leb_spec total s); [|lia]. simpl. by rewrite bool_decide_eq_true_2.
Qed.

Lemma closeFilled_status o :
  status o = OPEN ∨ status o = statusOf o → status (closeFilled o) = statusOf (closeFilled o).
Proof.
  intros H. unfold closeFilled, statusOf in *.
  destruct (Z.leb_spec (totalLiters o) (suppliedTotal o)); simpl.
  - by rewrite bool_decide_eq_true_2.
  - rewrite bool_decide_eq_false_2 in * by lia. by destruct H.
Qed.

Lemma applyDelete_status e o :
  status o = statusOf o → 0 ≤ supplied e → 0 ≤ suppliedTotal o →
  status (applyDelete e o) = statusOf (applyDelete e o).
Proof.
  destruct o as [no plate total sup allocs st date cs].
  unfold applyDelete, statusOf. simpl. intros Hs He Ho.
  set (s := Z.max 0 (sup - supplied e)).
  destruct (Z.ltb_spec s total) as [Hlt|Hge].
  - rewrite andb_true_r. destruct st; simpl; by rewrite bool_decide_eq_false_2 by lia.
  - rewrite andb_false_r. simpl. rewrite bool_decide_eq_true_2 by lia.
    rewrite Hs. by rewrite bool_decide_eq_true_2 by lia.
Qed.

Lemma statusInv_renderOrders ui db : statusInv db → statusInv (renderOrders ui db).
Proof. intros H. by rewrite renderOrders_id. Qed.

Lemma statusInv_renderOrdersIfActive ui db : statusInv db → statusInv (renderOrdersIfActive ui db).
Proof. unfold renderOrdersIfActive. destruct (pageOrdersActive ui); [apply statusInv_renderOrders|done]. Qed.

Lemma onlySupplied_refl o : onlySupplied o o.
Proof. done. Qed.

Lemma saveCard_onlySupplied d st card :
  ∀ no o', orders (saveCard d st card).1.1 !! no = Some o' →
           ∃ o, orders st.1.1 !! no = Some o ∧ onlySupplied o o'.
Proof.
  destruct st as [[region saved] skipped]. intros no o'. unfold saveCard.
  repeat (case_match; simpl; try (intros Hlk; exists o'; by split)).
  subst. intros Hlk.
  match goal with Ho : orders region !! ?k = Some ?o |- _ =>
    destruct (decide (k = no)) as [->|Hne];
    [rewrite lookup_insert_eq in Hlk; injection Hlk as <-; exists o
    |rewrite lookup_insert_ne in Hlk by done; exists o'; by split]
  end.
  split; [done|]. repeat split; simpl.
  intros Hc. match goal with Hb : bool_decide _ = false |- _ =>
    apply bool_decide_eq_false_1 in Hb end. done.
Qed.

Lemma foldl_saveCard_onlySupplied d cards : ∀ st no o',
  orders (foldl (saveCard d) st cards).1.1 !! no = Some o' →
  ∃ o, orders st.1.1 !! no = Some o ∧ onlySupplied o o'.
Proof.
  induction cards as [|card cards IH]; intros st no o' H; simpl in H.
  - exists o'. by split.
  - destruct (IH _ _ _ H) as (o1 & H1 & (Hs1 & Ht1 & Hc1)).
    destruct (saveCard_onlySupplied d st card no o1 H1) as (o & Ho & (Hs & Ht & Hc)).
    exists o. split; [done|]. repeat split; try congruence.
    intros Hcl. rewrite Hc1 by congruence. by apply Hc.
Qed.

(** The two handlers named by C1 keep the status in step with the totals,
    whatever their inputs. *)
Lemma daily_handlers_keep_statusInv db :
  statusInv db →
  (∀ ui d cards, statusInv (after (SaveDaily ui d cards) db))
  ∧ (∀ ui ctx v c, statusInv (after (SaveEditEntry ui ctx v c) db)).
Proof.
  intros Hinv. split.
  - intros ui d cards. unfold after. simpl. unfold saveDaily, withRegion.
    case_match; [done|]. destruct (theRegion db) as [r|] eqn:Hr; [|done].
    set (region1 := match dailyLog r !! d with
                    | Some _ => r
                    | None => set_dailyLog (<[d := []]> (dailyLog r)) r
                    end).
    assert (orders region1 = orders r) as Ho1 by (unfold region1; by case_match).
    destruct cards as [|c0 cards0].
    { simpl. apply everyOrder_putRegion; [done|]. rewrite Ho1.
      exact (everyOrder_current _ _ _ Hinv Hr). }
    destruct (foldl (saveCard d) (region1, 0%nat, 0%nat) (c0 :: cards0))
      as [[region2 saved] skipped] eqn:Hfold. simpl.
    apply statusInv_renderOrders, everyOrder_putRegion; [done|]. simpl.
    apply map_Forall_fmap. intros no o2 Ho2. simpl.
    destruct (foldl_saveCard_onlySupplied d (c0 :: cards0) (region1, 0%nat, 0%nat) no o2)
      as (o & Ho & (Hs & Ht & Hc)); [by rewrite Hfold|].
    simpl in Ho. rewrite Ho1 in Ho.
    pose proof (everyOrder_current _ _ _ Hinv Hr no o Ho) as Hst. simpl in Hst.
    apply closeFilled_status. destruct (status o) eqn:E; [left; congruence|].
    right. rewrite Hs. unfold statusOf in *. rewrite Ht, (Hc eq_refl). done.
  - intros ui ctx v c. unfold after. simpl. unfold saveEditEntry, withRegion.
    destruct ctx as [[date idx]|]; [|done].
    destruct (theRegion db) as [r|] eqn:Hr; [|done].
    pose proof (everyOrder_current _ _ _ Hinv Hr) as Hcur.
    repeat (case_match; try done); simpl;
      apply statusInv_renderOrdersIfActive, everyOrder_putRegion; try done; simpl;
      unfold updateReferenced; repeat case_match; try exact Hcur;
      (apply map_Forall_insert_2; [apply applyEdit_status|exact Hcur]).
Qed.

(** *** The cached supplied total *)

Lemma loggedIn_app no es1 es2 : loggedIn no (es1 ++ es2) = loggedIn no es1 + loggedIn no es2.
Proof. unfold loggedIn. by rewrite filter_app, fmap_app, sum_app. Qed.

Lemma loggedIn_cons no e es : loggedIn no (e :: es) = litresFor no e + loggedIn no es.
Proof.
  unfold loggedIn, litresFor. destruct (refersTo no e) eqn:E.
  - rewrite filter_cons_True by (simpl; rewrite E; exact I). done.
  - rewrite filter_cons_False by (simpl; rewrite E; exact id). done.
Qed.

Lemma loggedIn_snoc no es e : loggedIn no (es ++ [e]) = loggedIn no es + litresFor no e.
Proof.
  rewrite loggedIn_app, loggedIn_cons.
  assert (loggedIn no [] = 0) as -> by done. lia.
Qed.

Lemma loggedFor_logSum no r : loggedFor no r = logSum no (dailyLog r).
Proof.
  unfold loggedFor, logSum, flatLog, JS.values. fold (loggedIn no).
  induction (map_to_list (dailyLog r)) as [|[d es] l IH]; [done|].
  rewrite !fmap_cons. simpl.
  change (loggedIn no (es ++ concat l.*2) = loggedIn no es + JS.sum ((λ x, loggedIn no x.2) <$> l)).
  by rewrite loggedIn_app, <- IH.
Qed.

Lemma logSum_insert_fresh no (log : gmap string (list Entry)) d es :
  log !! d = None → logSum no (<[d := es]> log) = loggedIn no es + logSum no log.
Proof.
  intros H. unfold logSum.
  rewrite (sum_perm _ _ (fmap_Permutation (λ x, loggedIn no x.2) _ _ (map_to_list_insert log d es H))).
  done.
Qed.

Lemma logSum_delete no (log : gmap string (list Entry)) d es :
  log !! d = Some es → logSum no log = loggedIn no es + logSum no (delete d log).
Proof.
  intros H. unfold logSum.
  rewrite <- (sum_perm _ _ (fmap_Permutation (λ x, loggedIn no x.2) _ _ (map_to_list_delete log d es H))).
  done.
Qed.

Lemma logSum_insert no (log : gmap string (list Entry)) d es es' :
  log !! d = Some es →
  logSum no (<[d := es']> log) = logSum no log - loggedIn no es + loggedIn no es'.
Proof.
  intros H. rewrite <- insert_delete_eq, logSum_insert_fresh by apply lookup_delete_eq.
  rewrite (logSum_delete no log d es H). lia.
Qed.

Lemma logSum_fmap no (f : list Entry → list Entry) (log : gmap string (list Entry)) :
  (∀ es, loggedIn no (f es) = loggedIn no es) → logSum no (f <$> log) = logSum no log.
Proof.
  intros Hf. unfold logSum. rewrite map_to_list_fmap, <- list_fmap_compose.
  f_equal. apply list_fmap_ext. intros i [d es] _. simpl. apply Hf.
Qed.

Lemma alter_as_insert (log : gmap string (list Entry)) d f es :
  log !! d = Some es → alter f d log = <[d := f es]> log.
Proof.
  intros H. apply map_eq. intros k. destruct (decide (d = k)) as [<-|Hne].
  - by rewrite lookup_alter_eq, lookup_insert_eq, H.
  - by rewrite lookup_alter_ne, lookup_insert_ne.
Qed.

Lemma loggedFor_pushEntry no d e r es :
  dailyLog r !! d = Some es →
  loggedFor no (pushEntry d e r) = loggedFor no r + litresFor no e.
Proof.
  intros H. rewrite !loggedFor_logSum. unfold pushEntry. simpl.
  rewrite (alter_as_insert _ _ _ es H), (logSum_insert no _ d es _ H), loggedIn_snoc. lia.
Qed.

Lemma loggedFor_same_log no r1 r2 : dailyLog r1 = dailyLog r2 → loggedFor no r1 = loggedFor no r2.
Proof. intros H. by rewrite !loggedFor_logSum, H. Qed.

Lemma litresFor_other no no' e : entryOrderNo e = Some no' → no ≠ no' → litresFor no e = 0.
Proof.
  intros He Hne. unfold litresFor, refersTo. rewrite He.
  rewrite bool_decide_eq_false_2; [done|]. congruence.
Qed.

Lemma litresFor_same no e : entryOrderNo e = Some no → litresFor no e = supplied e.
Proof. intros He. unfold litresFor, refersTo. by rewrite He, bool_decide_eq_true_2. Qed.

Lemma litresFor_none no e : entryOrderNo e = None → litresFor no e = 0.
Proof. intros He. unfold litresFor, refersTo. by rewrite He. Qed.

Lemma pushEntry_keeps_date d e r : is_Some (dailyLog r !! d) → is_Some (dailyLog (pushEntry d e r) !! d).
Proof. intros [es H]. unfold pushEntry. simpl. rewrite lookup_alter_eq, H. by eexists. Qed.

Lemma saveCard_regionSupplied d st card :
  regionSupplied st.1.1 → is_Some (dailyLog st.1.1 !! d) →
  regionSupplied (saveCard d st card).1.1 ∧ is_Some (dailyLog (saveCard d st card).1.1 !! d).
Proof.
  destruct st as [[region saved] skipped]. cbn [fst snd]. intros Hinv Hd.
  pose proof Hd as [es Hes]. unfold saveCard.
  destruct (negb (JS.truthy_str (tech_sel card)) || (supp_input_value card <=? 0)); [done|].
  destruct (data_unallocated card).
  - destruct (negb (JS.truthy_str _)); [done|]. cbn [fst snd].
    split; [|by apply pushEntry_keeps_date].
    intros no o Ho. cbn beta.
    match goal with |- _ = loggedFor _ (pushEntry _ ?e _) =>
      rewrite (loggedFor_pushEntry no d e region es Hes) end.
    rewrite litresFor_none by done. simpl in Ho. rewrite (Hinv no o Ho). lia.
  - destruct (data_order card) as [k|]; [|done].
    destruct (negb (JS.truthy_str k)); [done|].
    destruct (orders region !! k) as [o|] eqn:Ho; [|done].
    destruct (bool_decide (status o = CLOSED)); [done|]. cbn [fst snd].
    split; [|by apply pushEntry_keeps_date].
    intros no o' Ho'. cbn beta.
    match goal with |- _ = loggedFor _ (pushEntry _ ?e ?r) =>
      rewrite (loggedFor_pushEntry no d e r es Hes);
      rewrite (loggedFor_same_log no r region) by done end.
    simpl in Ho'. destruct (decide (k = no)) as [->|Hne].
    + rewrite lookup_insert_eq in Ho'. injection Ho' as <-. simpl.
      rewrite litresFor_same by done. rewrite (Hinv no o Ho). simpl. lia.
    + rewrite lookup_insert_ne in Ho' by done.
      rewrite (litresFor_other no k) by done. rewrite (Hinv no o' Ho'). lia.
Qed.

Lemma foldl_saveCard_regionSupplied d cards : ∀ st,
  regionSupplied st.1.1 → is_Some (dailyLog st.1.1 !! d) →
  regionSupplied (foldl (saveCard d) st cards).1.1.
Proof.
  induction cards as [|card cards IH]; intros st Hinv Hd; [done|].
  cbn [foldl]. destruct (saveCard_regionSupplied d st card Hinv Hd) as [H1 H2]. by apply IH.
Qed.

Lemma regionSupplied_fmap (f : Order → Order) r :
  (∀ o, suppliedTotal (f o) = suppliedTotal o) →
  regionSupplied r → regionSupplied (set_orders (f <$> orders r) r).
Proof.
  intros Hf Hinv. unfold regionSupplied. simpl. apply map_Forall_fmap.
  intros no o Ho. simpl. rewrite Hf, (Hinv no o Ho). by apply loggedFor_same_log.
Qed.

Lemma suppliedInv_renderOrders ui db : suppliedInv db → suppliedInv (renderOrders ui db).
Proof.
  intros Hinv. unfold renderOrders. destruct (theRegion db) as [r|] eqn:Hr; [|done].
  apply everyOrder_putRegion; [done|].
  apply (regionSupplied_fmap (cardIfShown ui) r (suppliedTotal_cardIfShown ui)).
  exact (everyOrder_current _ _ _ Hinv Hr).
Qed.

Lemma suppliedInv_renderOrdersIfActive ui db :
  suppliedInv db → suppliedInv (renderOrdersIfActive ui db).
Proof. unfold renderOrdersIfActive. destruct (pageOrdersActive ui); [apply suppliedInv_renderOrders|done]. Qed.

(** [saveDaily] keeps every cached total equal to its account in the log,
    whatever the cards hold. *)
Lemma saveDaily_keeps_suppliedInv ui d cards db :
  suppliedInv db → suppliedInv (after (SaveDaily ui d cards) db).
Proof.
  intros Hinv. unfold after. simpl. unfold saveDaily, withRegion.
  case_match; [done|]. destruct (theRegion db) as [r|] eqn:Hr; [|done].
  pose proof (everyOrder_current _ _ _ Hinv Hr) as Hcur.
  set (region1 := match dailyLog r !! d with
                  | Some _ => r
                  | None => set_dailyLog (<[d := []]> (dailyLog r)) r
                  end).
  assert (regionSupplied region1 ∧ is_Some (dailyLog region1 !! d)) as [H1 Hd1].
  { unfold region1. destruct (dailyLog r !! d) as [es|] eqn:E; [split; [done|by eexists]|].
    split; [|simpl; rewrite lookup_insert_eq; by eexists].
    intros no o Ho. simpl in *. rewrite loggedFor_logSum. simpl.
    rewrite logSum_insert_fresh by done. rewrite (Hcur no o Ho), loggedFor_logSum.
    unfold loggedIn. simpl. unfold JS.sum. simpl. lia. }
  destruct cards as [|c0 cards0].
  { simpl. by apply everyOrder_putRegion. }
  pose proof (foldl_saveCard_regionSupplied d (c0 :: cards0) (region1, 0%nat, 0%nat) H1 Hd1) as H2.
  destruct (foldl (saveCard d) (region1, 0%nat, 0%nat) (c0 :: cards0))
    as [[region2 saved] skipped]. simpl in *.
  apply suppliedInv_renderOrders, everyOrder_putRegion; [done|].
  by apply (regionSupplied_fmap closeFilled region2 suppliedTotal_closeFilled).
Qed.

Lemma loggedIn_insert no es idx e e' :
  es !! idx = Some e →
  loggedIn no (<[idx := e']> es) = loggedIn no es - litresFor no e + litresFor no e'.
Proof.
  intros H. rewrite insert_take_drop by (by eapply lookup_lt_Some).
  rewrite <- (take_drop_middle es idx e H) at 3.
  rewrite !loggedIn_app, !loggedIn_cons. lia.
Qed.

Lemma loggedIn_delete no es idx e :
  es !! idx = Some e → loggedIn no (delete idx es) = loggedIn no es - litresFor no e.
Proof.
  intros H. rewrite delete_take_drop.
  rewrite <- (take_drop_middle es idx e H) at 3.
  rewrite !loggedIn_app, !loggedIn_cons. lia.
Qed.

Lemma litresFor_not_truthy no e :
  wellFormedEntry e →
  (unallocated e = true ∨ orderNoTruthy e = None) → litresFor no e = 0.
Proof.
  intros [Hu Hne] [H|H].
  - by apply litresFor_none, Hu.
  - unfold orderNoTruthy in H. destruct (entryOrderNo e) as [k|] eqn:E; [|by apply litresFor_none].
    destruct (JS.truthy_str k) eqn:Ek; [done|]. apply truthy_str_false in Ek. by subst.
Qed.

Lemma orderNoTruthy_Some e k : orderNoTruthy e = Some k → entryOrderNo e = Some k.
Proof. unfold orderNoTruthy. destruct (entryOrderNo e); [|done]. by case_match. Qed.

(** Removing one entry of a date moves every account by the litres of
    that entry. *)
Lemma logSum_logAfterDelete no (log : gmap string (list Entry)) date es idx e :
  log !! date = Some es → es !! idx = Some e →
  logSum no (logAfterDelete date idx es log) = logSum no log - litresFor no e.
Proof.
  intros Hd He. pose proof (loggedIn_delete no es idx e He) as Hdel.
  unfold logAfterDelete, JS.splice1. destruct (delete idx es) as [|e0 es0] eqn:E.
  - rewrite (logSum_delete no log date es Hd).
    assert (loggedIn no [] = 0) as Hnil by done. lia.
  - rewrite (logSum_insert no log date es _ Hd). lia.
Qed.

Lemma suppliedTotal_applyDelete e o :
  suppliedTotal (applyDelete e o) = Z.max 0 (suppliedTotal o - supplied e).
Proof. unfold applyDelete. by case_match. Qed.

Lemma suppliedTotal_applyEdit diff o :
  suppliedTotal (applyEdit diff o) = Z.max 0 (suppliedTotal o + diff).
Proof. unfold applyEdit. by repeat case_match. Qed.

(** The accounts after an order update [f] of the referenced order that
    moves its supplied total by [delta], when the log moves by
    [delta] for the order number of the entry and not at all for others. *)
Lemma updateReferenced_regionSupplied f entry region log' delta :
  regionSupplied region →
  wellFormedEntry entry →
  (∀ no o, entryOrderNo entry = Some no → orders region !! no = Some o →
           suppliedTotal (f o) = suppliedTotal o + delta) →
  (∀ no, logSum no log' = logSum no (dailyLog region)
                          + if refersTo no entry then delta else 0) →
  regionSupplied (set_dailyLog log' (set_orders (updateReferenced f entry region) region)).
Proof.
  intros Hcur Hwf Hf Hlog no o' Ho'. cbn beta. rewrite loggedFor_logSum. simpl in *.
  rewrite Hlog, <- loggedFor_logSum. unfold updateReferenced in Ho'.
  assert (∀ k, entryOrderNo entry = Some k → k ≠ no → refersTo no entry = false) as Hother.
  { intros k Hk Hne. unfold refersTo. rewrite Hk. apply bool_decide_eq_false_2. congruence. }
  assert (unallocated entry = true ∨ orderNoTruthy entry = None → refersTo no entry = false)
    as Hnone.
  { intros H. pose proof (litresFor_not_truthy no entry Hwf H) as Hz.
    destruct Hwf as [Hu Hne]. unfold refersTo. destruct H as [H|H].
    - by rewrite (Hu H).
    - unfold orderNoTruthy in H. destruct (entryOrderNo entry) as [k|] eqn:E; [|done].
      destruct (JS.truthy_str k) eqn:Ek; [done|]. apply truthy_str_false in Ek. by subst. }
  destruct (unallocated entry) eqn:Hu; simpl in Ho'.
  { rewrite Hnone by (by left). rewrite (Hcur no o' Ho'). lia. }
  destruct (orderNoTruthy entry) as [k|] eqn:Hk;
    [|rewrite Hnone by (by right); rewrite (Hcur no o' Ho'); lia].
  apply orderNoTruthy_Some in Hk.
  destruct (orders region !! k) as [o|] eqn:Ho.
  - destruct (decide (k = no)) as [->|Hne].
    + rewrite lookup_insert_eq in Ho'. injection Ho' as <-.
      rewrite (Hf no o Hk Ho), (Hcur no o Ho).
      unfold refersTo. rewrite Hk, bool_decide_eq_true_2 by done. lia.
    + rewrite lookup_insert_ne in Ho' by done.
      rewrite (Hother k) by done. rewrite (Hcur no o' Ho'). lia.
  - destruct (decide (k = no)) as [->|Hne]; [congruence|].
    rewrite (Hother k) by done. rewrite (Hcur no o' Ho'). lia.
Qed.

(** [deleteDailyEntry] keeps the cached totals equal to the log as long as
    the clamp at zero does not bite, and [saveEditEntry] likewise. *)
Lemma deleteDailyEntry_keeps_suppliedInv ui ok date idx db region entries entry :
  suppliedInv db →
  theRegion db = Some region →
  dailyLog region !! date = Some entries →
  entries !! idx = Some entry →
  wellFormedEntry entry →
  (∀ no o, entryOrderNo entry = Some no → orders region !! no = Some o →
           0 ≤ suppliedTotal o - supplied entry) →
  suppliedInv (after (DeleteDailyEntry ui ok date idx) db).
Proof.
  intros Hinv Hr Hd He Hwf Hclamp. unfold after. simpl. unfold deleteDailyEntry, withRegion.
  rewrite Hr, Hd, He. destruct ok; [|done]. cbn [negb snd].
  pose proof (everyOrder_current _ _ _ Hinv Hr) as Hcur.
  apply suppliedInv_renderOrdersIfActive, everyOrder_putRegion; [done|].
  apply (updateReferenced_regionSupplied _ entry region _ (- supplied entry)); try done.
  - intros no o Hk Ho. rewrite suppliedTotal_applyDelete. pose proof (Hclamp no o Hk Ho). lia.
  - intros no. rewrite (logSum_logAfterDelete no _ date entries idx entry Hd He).
    unfold litresFor. case_match; lia.
Qed.

Lemma saveEditEntry_keeps_suppliedInv ui date idx v c db region entries entry :
  suppliedInv db →
  theRegion db = Some region →
  dailyLog region !! date = Some entries →
  entries !! idx = Some entry →
  wellFormedEntry entry →
  (∀ no o, entryOrderNo entry = Some no → orders region !! no = Some o →
           0 ≤ suppliedTotal o + (v - supplied entry)) →
  suppliedInv (after (SaveEditEntry ui (Some (date, idx)) v c) db).
Proof.
  intros Hinv Hr Hd He Hwf Hclamp. unfold after. simpl. unfold saveEditEntry, withRegion.
  rewrite Hr, Hd, He. repeat (case_match; try done). cbn [snd].
  pose proof (everyOrder_current _ _ _ Hinv Hr) as Hcur.
  apply suppliedInv_renderOrdersIfActive, everyOrder_putRegion; [done|].
  apply (updateReferenced_regionSupplied _ entry region _ (v - supplied entry)); try done.
  - intros no o Hk Ho. rewrite suppliedTotal_applyEdit. pose proof (Hclamp no o Hk Ho). lia.
  - intros no. rewrite (logSum_insert no _ date entries _ Hd).
    rewrite (loggedIn_insert no entries idx entry _ He).
    unfold litresFor, editedEntry, refersTo. destruct (unallocated entry); simpl; case_match; lia.
Qed.

Lemma loggedIn_without no no' es :
  no ≠ no' → loggedIn no (filter (λ e, negb (refersTo no' e)) es) = loggedIn no es.
Proof.
  intros Hne. induction es as [|e es IH]; [done|].
  destruct (refersTo no' e) eqn:E.
  - rewrite filter_cons_False by (simpl; rewrite E; exact id).
    rewrite loggedIn_cons, IH. unfold litresFor, refersTo in *.
    apply bool_decide_eq_true_1 in E. rewrite E.
    rewrite bool_decide_eq_false_2 by congruence. lia.
  - rewrite filter_cons_True by (simpl; rewrite E; exact I).
    by rewrite !loggedIn_cons, IH.
Qed.

(** [deleteOrder] removes the order with its entries and leaves the other
    accounts as they are. *)
Lemma deleteOrder_keeps_suppliedInv ui ok orderNo_ db :
  suppliedInv db → suppliedInv (after (DeleteOrder ui ok orderNo_) db).
Proof.
  intros Hinv. unfold after. simpl. unfold deleteOrder, withRegion.
  destruct (theRegion db) as [r|] eqn:Hr; [|done].
  destruct (orders r !! orderNo_) as [o|] eqn:Ho; [|done].
  destruct ok; [|done]. cbn [negb snd].
  pose proof (everyOrder_current _ _ _ Hinv Hr) as Hcur.
  apply suppliedInv_renderOrders, everyOrder_putRegion; [done|].
  intros no o' Ho'. cbn beta. simpl in Ho'.
  apply lookup_delete_Some in Ho' as [Hne Ho'].
  rewrite loggedFor_logSum. simpl.
  rewrite (logSum_fmap no (λ es, filter (λ e, negb (refersTo orderNo_ e)) es))
    by (intros es; by apply loggedIn_without).
  rewrite <- loggedFor_logSum. exact (Hcur no o' Ho').
Qed.

(** [deleteDailyEntry] only reopens: it keeps the status in step with the
    totals when the deleted entry and the cached total of its order are not
    negative. *)
Lemma deleteDailyEntry_keeps_statusInv ui ok date idx db region entries entry :
  statusInv db →
  theRegion db = Some region →
  dailyLog region !! date = Some entries →
  entries !! idx = Some entry →
  0 ≤ supplied entry →
  (∀ no o, orders region !! no = Some o → 0 ≤ suppliedTotal o) →
  statusInv (after (DeleteDailyEntry ui ok date idx) db).
Proof.
  intros Hinv Hr Hd He Hpos Hsup. unfold after. simpl. unfold deleteDailyEntry, withRegion.
  rewrite Hr, Hd, He. destruct ok; [|done]. cbn [negb snd].
  pose proof (everyOrder_current _ _ _ Hinv Hr) as Hcur.
  apply statusInv_renderOrdersIfActive, everyOrder_putRegion; [done|]. simpl.
  unfold updateReferenced. repeat case_match; try exact Hcur.
  apply map_Forall_insert_2; [|exact Hcur].
  match goal with Ho : orders region !! ?k = Some ?o |- _ =>
    apply applyDelete_status; [exact (Hcur k o Ho)|done|exact (Hsup k o Ho)] end.
Qed.

(** The card built for an order is the order with its status repaired, and
    the stale flag is raised for an OPEN order older than seven days with
    less than half of its litres supplied. *)
Lemma _buildOrderCard_order daysOpen o region :
  (_buildOrderCard daysOpen o region).1 = _buildOrderCard_status o.
Proof. done. Qed.

Lemma _buildOrderCard_stale daysOpen o region :
  status o = statusOf o → createdDate o ≠ "" → 0 ≤ suppliedTotal o →
  card_isStale (_buildOrderCard daysOpen o region).2 = true
  ↔ status o = OPEN ∧ 7 < daysOpen (createdDate o) ∧ 2 * suppliedTotal o < totalLiters o.
Proof.
  intros Hs Hd Hsup. unfold _buildOrderCard. simpl.
  assert (_buildOrderCard_status o = o) as -> by (apply (cardIfShown_fixed noFilter o Hs)).
  rewrite (truthy_str_true _ Hd). rewrite !andb_true_iff, bool_decide_eq_true, Z.ltb_lt.
  split.
  - intros [[Ho Hdays] Hhalf]. repeat split; try done.
    destruct (Z.ltb_spec 0 (totalLiters o)); [by apply Z.ltb_lt|done].
  - intros (Ho & Hdays & Hhalf). repeat split; try done.
    unfold statusOf in Hs. rewrite Ho in Hs. case_bool_decide; [done|].
    destruct (Z.ltb_spec 0 (totalLiters o)); [by apply Z.ltb_lt|].
    exfalso. lia.
Qed.

(** * Further properties of the handlers *)

(** ** Commands that decline *)

Lemma withRegion_declined db k :
  (∀ r, theRegion db = Some r → declined (k r).1 = true → (k r).2 = db) →
  declined (withRegion db k).1 = true → (withRegion db k).2 = db.
Proof. unfold withRegion. intros Hk. destruct (theRegion db) as [r|]; [by apply Hk|done]. Qed.

(** X1. Within the scope of the embedding, a command that declines (it
    alerts or returns early) leaves the store as it was, with two
    exceptions: [saveDaily] with no cards has already created the empty
    list of a new date, and [restoreData] has already replaced the store
    when the renders that follow fail on a dangling current region. *)
Theorem refused_command_leaves_store c db :
  inScope c db →
  declined (exec c db).1 = true →
  after c db = db
  ∨ (∃ ui d region, c = SaveDaily ui d [] ∧ theRegion db = Some region
       ∧ dailyLog region !! d = None
       ∧ after c db = putRegion (set_dailyLog (<[d := []]> (dailyLog region)) region) db)
  ∨ (∃ parsed rs cur, c = RestoreData true parsed
       ∧ cand_regions parsed = Some rs ∧ cand_currentRegion parsed = Some cur
       ∧ rs !! cur = None ∧ after c db = mkDB cur rs).
Proof.
  intros _.
  destruct c; unfold after; simpl;
    try (intros Hf; left; revert Hf;
         first [ apply withRegion_declined; intros r Hr | idtac ];
         unfold createOrder, allocateFuel, saveOrderDate, deleteOrder, saveAllocEdit,
           confirmClone, changeRegion, addRegion, deleteRegion, addTechnician, deleteTech,
           populateRegions;
         repeat (simpl; first [ done | case_match ]); fail).
  - (* saveOverageComment *)
    intros Hf. left. revert Hf. unfold saveOverageComment.
    destruct ctx as [[no tech]|]; [|done]. case_match; [done|].
    apply withRegion_declined. intros r Hr. by repeat case_match.
  - (* saveDaily *)
    unfold saveDaily. case_match; [by left|]. unfold withRegion.
    destruct (theRegion db) as [region|] eqn:Hr; [|done].
    destruct cards as [|c0 cards0].
    + intros _. simpl. destruct (dailyLog region !! d) eqn:Hd.
      * left. by apply putRegion_same.
      * right. left. by exists ui, d, region.
    + destruct (foldl _ _ _) as [[r2 sv] sk]. done.
  - (* saveEditEntry *)
    intros Hf. left. revert Hf. unfold saveEditEntry.
    destruct ctx as [[date idx]|]; [|done].
    apply withRegion_declined. intros r Hr. by repeat case_match.
  - (* confirmRename *)
    intros Hf. left. revert Hf. unfold confirmRename, _renameRegion, _renameTech, populateRegions.
    by repeat case_match.
  - (* restoreData *)
    unfold restoreData, replaceDB.
    destruct (cand_regions parsed) as [rs|] eqn:Hrs; [|by left].
    destruct (cand_currentRegion parsed) as [cur|] eqn:Hcur; [|by left].
    case_match; [by left|]. destruct confirmed; simpl; [|by left].
    unfold theRegion. simpl. destruct (rs !! cur) eqn:E; [done|].
    intros _. right. right. by exists parsed, rs, cur.
Qed.

Lemma refused_command_leaves_store_witness :
  exec (AllocateFuel "O1" "Bob" 200) annBobOrder = (Alerted AllocationExceedsTotal, annBobOrder)
  ∧ (after (AllocateFuel "O1" "Bob" 200) annBobOrder = annBobOrder
     ∨ (∃ ui d region, AllocateFuel "O1" "Bob" 200 = SaveDaily ui d []
          ∧ theRegion annBobOrder = Some region
          ∧ dailyLog region !! d = None
          ∧ after (AllocateFuel "O1" "Bob" 200) annBobOrder
            = putRegion (set_dailyLog (<[d := []]> (dailyLog region)) region) annBobOrder)
     ∨ (∃ parsed rs cur, AllocateFuel "O1" "Bob" 200 = RestoreData true parsed
          ∧ cand_regions parsed = Some rs ∧ cand_currentRegion parsed = Some cur
          ∧ rs !! cur = None ∧ after (AllocateFuel "O1" "Bob" 200) annBobOrder = mkDB cur rs)).
Proof.
  split; [by vm_compute|].
  apply (refused_command_leaves_store (AllocateFuel "O1" "Bob" 200) annBobOrder).
  - by apply (bool_decide_unpack _); vm_compute.
  - by vm_compute.
Defined.

(** ** Regions *)

(** What the handlers of [regions.js] report once they have written: the
    renders go through exactly when the store they find has its current
    region. *)
Lemma populateRegions_fst db :
  (populateRegions db).1 = if bool_decide (is_Some (theRegion db)) then Done else Threw.
Proof.
  unfold populateRegions. destruct (theRegion db) eqn:E; cbn [fst].
  - by rewrite bool_decide_eq_true_2 by (by eexists).
  - rewrite bool_decide_eq_false_2; [done|]. by intros [? ?].
Qed.

(** X3. [addRegion] never overwrites: every region that exists stays as it
    is and the current region stays current.  A name that is empty, taken,
    or defined by [Object.prototype] is ignored.  Any other name gets an
    empty region; the handler then runs to its end when the store has its
    current region, and otherwise throws in the renders, after the region
    has been added and saved. *)
Theorem addRegion_adds_empty_region input db :
  (∀ k r, regions db !! k = Some r → regions (after (AddRegion input) db) !! k = Some r)
  ∧ (∀ k, k ≠ JS.trim input → regions (after (AddRegion input) db) !! k = regions db !! k)
  ∧ currentRegion (after (AddRegion input) db) = currentRegion db
  ∧ (JS.trim input ≠ "" → regions db !! JS.trim input = None →
     JS.inherited (JS.trim input) = false →
       after (AddRegion input) db
       = set_regions (<[JS.trim input := emptyRegion]> (regions db)) db
       ∧ (exec (AddRegion input) db).1
         = if bool_decide (is_Some (theRegion db) ∨ currentRegion db = JS.trim input)
           then Done else Threw)
  ∧ (JS.trim input = "" ∨ is_Some (regions db !! JS.trim input)
     ∨ JS.inherited (JS.trim input) = true →
       exec (AddRegion input) db = (Returned, db)).
Proof.
  unfold after, exec, addRegion.
  destruct (JS.truthy_str (JS.trim input)) eqn:Et; cbn [negb orb].
  - destruct (JS.has (regions db) (JS.trim input)) eqn:Hex; cbn iota.
    + split; [done|]. split; [done|]. split; [done|]. split; [|done].
      intros Hne Hnone Hin.
      by rewrite (has_fresh _ _ Hnone Hin) in Hex.
    + apply has_false in Hex as [Hnone Hin]. rewrite populateRegions_snd, populateRegions_fst.
      split; [|split; [|split; [|split]]]; try done.
      * intros k r Hk. simpl. rewrite lookup_insert_ne; [done|]. congruence.
      * intros k Hk. simpl. by rewrite lookup_insert_ne.
      * intros _ _ _. split; [done|].
        unfold theRegion. cbn [regions currentRegion set_regions].
        destruct (decide (currentRegion db = JS.trim input)) as [Hc|Hc].
        -- rewrite Hc, lookup_insert_eq.
           rewrite bool_decide_eq_true_2 by (by eexists).
           by rewrite bool_decide_eq_true_2 by (by right).
        -- rewrite lookup_insert_ne by done.
           destruct (regions db !! currentRegion db) eqn:E.
           ++ rewrite bool_decide_eq_true_2 by (by eexists).
              by rewrite bool_decide_eq_true_2 by (left; by eexists).
           ++ rewrite bool_decide_eq_false_2 by (by intros [? ?]).
              rewrite bool_decide_eq_false_2; [done|]. intros [[? ?]|?]; done.
      * intros [H|[H|H]].
        -- rewrite H in Et. done.
        -- rewrite Hnone in H. by destruct H.
        -- congruence.
  - apply truthy_str_false in Et. repeat split; done.
Qed.

(** A new region next to the default one; a name that every object
    inherits; and a region added while the current region is missing. *)
Lemma addRegion_adds_empty_region_witness :
  exec (AddRegion " East ") DB_DEFAULT
    = (Done, set_regions (<["East" := emptyRegion]> (regions DB_DEFAULT)) DB_DEFAULT)
  ∧ exec (AddRegion "constructor") DB_DEFAULT = (Returned, DB_DEFAULT)
  ∧ exec (AddRegion "East") (mkDB "New CCS" ∅)
    = (Threw, mkDB "New CCS" {["East" := emptyRegion]}).
Proof.
  pose proof (addRegion_adds_empty_region " East " DB_DEFAULT) as (_ & _ & _ & H1 & _).
  pose proof (addRegion_adds_empty_region "constructor" DB_DEFAULT) as (_ & _ & _ & _ & H2).
  pose proof (addRegion_adds_empty_region "East" (mkDB "New CCS" ∅)) as (_ & _ & _ & H3 & _).
  split; [|split].
  - destruct H1 as [Ha Hb]; [by vm_compute..|].
    rewrite (surjective_pairing (exec _ _)). unfold after in Ha. rewrite Ha, Hb. by vm_compute.
  - apply H2. right. right. by vm_compute.
  - destruct H3 as [Ha Hb]; [by vm_compute..|].
    rewrite (surjective_pairing (exec _ _)). unfold after in Ha. rewrite Ha, Hb. by vm_compute.
Defined.

Lemma map_head_key_exists {A} (m : gmap string A) k :
  head (JS.keys m) = Some k → is_Some (m !! k).
Proof.
  unfold JS.keys. destruct (map_to_list m) as [|[k' v] l] eqn:E; [done|].
  simpl. intros [= ->]. exists v. apply elem_of_map_to_list. rewrite E. left.
Qed.

(** X4. [deleteRegion], when more than one region exists and the deletion
    is confirmed, removes the named region and nothing else.  A
    current-region pointer that was valid stays valid (it moves to a
    remaining region when the current one is deleted) and the handler runs
    to its end; with a pointer that dangled the region is deleted and
    saved, and the handler then throws in the renders. *)
Theorem deleteRegion_keeps_pointer_valid rName db r :
  (1 < size (regions db))%nat →
  regions db !! rName = Some r →
  let db' := after (DeleteRegion true rName) db in
  regions db' = delete rName (regions db)
  ∧ (currentRegion db ≠ rName → currentRegion db' = currentRegion db)
  ∧ (is_Some (theRegion db) →
       is_Some (theRegion db') ∧ (exec (DeleteRegion true rName) db).1 = Done)
  ∧ (theRegion db = None →
       theRegion db' = None ∧ (exec (DeleteRegion true rName) db).1 = Threw).
Proof.
  intros Hsz Hr db'. unfold db', after. simpl. unfold deleteRegion.
  rewrite bool_decide_eq_false_2 by lia. rewrite Hr. cbn [negb].
  rewrite populateRegions_snd, populateRegions_fst. cbn [regions currentRegion].
  split; [done|].
  destruct (String.eqb_spec (currentRegion db) rName) as [Heq|Hne].
  - split; [done|].
    assert (is_Some (theRegion (mkDB (default (currentRegion db)
                                        (head (JS.keys (delete rName (regions db)))))
                                     (delete rName (regions db))))) as Hvalid.
    { unfold theRegion. simpl.
      destruct (head (JS.keys (delete rName (regions db)))) as [k|] eqn:Eh; simpl.
      - by apply map_head_key_exists.
      - exfalso. unfold JS.keys in Eh.
        destruct (map_to_list (delete rName (regions db))) as [|x l] eqn:El; [|done].
        apply map_to_list_empty_iff in El.
        rewrite <- (insert_delete_id (regions db) rName r Hr), El in Hsz.
        rewrite insert_empty, map_size_singleton in Hsz. lia. }
    split.
    + intros _. split; [done|]. by rewrite bool_decide_eq_true_2.
    + unfold theRegion at 1. rewrite Heq, Hr. done.
  - split; [done|].
    assert (theRegion (mkDB (currentRegion db) (delete rName (regions db))) = theRegion db)
      as Hsame by (unfold theRegion; simpl; by rewrite lookup_delete_ne).
    rewrite Hsame. split.
    + intros Hs. split; [done|]. by rewrite bool_decide_eq_true_2.
    + intros Hn. split; [done|]. rewrite bool_decide_eq_false_2; [done|].
      rewrite Hn. by intros [? ?].
Qed.

Lemma deleteRegion_keeps_pointer_valid_witness :
  is_Some (theRegion (after (DeleteRegion true "New CCS")
                            (after (AddRegion "East") DB_DEFAULT)))
  ∧ (exec (DeleteRegion true "New CCS") (after (AddRegion "East") DB_DEFAULT)).1 = Done.
Proof.
  refine (proj1 (proj2 (proj2 (deleteRegion_keeps_pointer_valid "New CCS"
            (after (AddRegion "East") DB_DEFAULT) emptyRegion _ _))) _).
  - vm_compute. lia.
  - by vm_compute.
  - eexists. by vm_compute.
Defined.

(** X5. [_renameRegion] refuses a new name that is taken or that
    [Object.prototype] defines.  Any other new name gets the whole region:
    the region is found under the new name and no longer under the old
    one, no other region changes, and a current-region pointer that was
    valid still points at the same region.  The handler then runs to its
    end when the store has its current region, and otherwise throws in the
    renders, after the rename has been saved. *)
Theorem renameRegion_moves_region oldName newName db r :
  oldName ≠ newName →
  regions db !! oldName = Some r →
  (is_Some (regions db !! newName) ∨ JS.inherited newName = true →
     _renameRegion oldName newName db = (Alerted RegionExists, db))
  ∧ (regions db !! newName = None → JS.inherited newName = false →
     let db' := (_renameRegion oldName newName db).2 in
     regions db' !! newName = Some r
     ∧ regions db' !! oldName = None
     ∧ (∀ k, k ≠ oldName → k ≠ newName → regions db' !! k = regions db !! k)
     ∧ size (regions db') = size (regions db)
     ∧ (is_Some (theRegion db) → theRegion db' = theRegion db)
     ∧ (_renameRegion oldName newName db).1
       = if bool_decide (is_Some (theRegion db) ∨ currentRegion db = newName)
         then Done else Threw).
Proof.
  intros Hne Hold. unfold _renameRegion.
  destruct (String.eqb_spec newName oldName) as [|_]; [congruence|].
  split.
  - intros Hex. assert (JS.has (regions db) newName = true) as ->; [|done].
    destruct Hex as [Hex|Hin]; [by apply has_own|].
    unfold JS.has. by rewrite Hin, orb_true_r.
  - intros Hnew Hin. rewrite (has_fresh _ _ Hnew Hin), Hold.
    rewrite populateRegions_snd, populateRegions_fst. cbn [regions currentRegion].
    assert (is_Some (theRegion db) →
            theRegion (mkDB (if String.eqb (currentRegion db) oldName
                             then newName else currentRegion db)
                            (delete oldName (<[newName := r]> (regions db))))
            = theRegion db) as Hptr.
    { unfold theRegion. simpl. intros Hsome.
      destruct (String.eqb_spec (currentRegion db) oldName) as [Hc|Hc].
      - rewrite lookup_delete_ne by done. rewrite lookup_insert_eq. by rewrite Hc.
      - rewrite lookup_delete_ne by done.
        rewrite lookup_insert_ne; [done|].
        intros Heq. rewrite <- Heq, Hnew in Hsome. by destruct Hsome. }
    split; [|split; [|split; [|split; [|split]]]].
    + rewrite lookup_delete_ne by done. apply lookup_insert_eq.
    + apply lookup_delete_eq.
    + intros k Hk1 Hk2. by rewrite lookup_delete_ne, lookup_insert_ne.
    + rewrite <- (insert_delete_id (regions db) oldName r Hold) at 2.
      rewrite delete_insert_ne by done.
      rewrite !map_size_insert_None; [done| |].
      * apply lookup_delete_eq.
      * by rewrite lookup_delete_ne.
    + exact Hptr.
    + destruct (theRegion db) as [r0|] eqn:Hcur.
      * rewrite (Hptr ltac:(by eexists)).
        rewrite bool_decide_eq_true_2 by (by eexists).
        by rewrite bool_decide_eq_true_2 by (left; by eexists).
      * unfold theRegion in *. simpl.
        destruct (String.eqb_spec (currentRegion db) oldName) as [Hc|Hc];
          [rewrite Hc, Hold in Hcur; done|].
        rewrite lookup_delete_ne by done.
        destruct (decide (currentRegion db = newName)) as [Hn|Hn].
        -- rewrite Hn, lookup_insert_eq.
           rewrite bool_decide_eq_true_2 by (by eexists).
           by rewrite bool_decide_eq_true_2 by (by right).
        -- rewrite lookup_insert_ne by done. rewrite Hcur.
           rewrite bool_decide_eq_false_2 by (by intros [? ?]).
           rewrite bool_decide_eq_false_2; [done|]. intros [[? ?]|?]; done.
Qed.

Lemma renameRegion_moves_region_witness :
  regions (_renameRegion "New CCS" "West" staleCardSaved).2 !! "West"
  = regions staleCardSaved !! "New CCS"
  ∧ _renameRegion "New CCS" "toString" staleCardSaved = (Alerted RegionExists, staleCardSaved).
Proof.
  assert (regions staleCardSaved !! "New CCS" = Some (regionOf staleCardSaved)) as Hr
    by (by vm_compute).
  assert ("New CCS" ≠ "West") as Hne1 by (by vm_compute).
  assert ("New CCS" ≠ "toString") as Hne2 by (by vm_compute).
  split.
  - rewrite Hr.
    refine (proj1 (proj2 (renameRegion_moves_region "New CCS" "West" staleCardSaved
              (regionOf staleCardSaved) Hne1 Hr) _ _)); by vm_compute.
  - apply (proj1 (renameRegion_moves_region "New CCS" "toString" staleCardSaved
                    (regionOf staleCardSaved) Hne2 Hr)).
    right. by vm_compute.
Defined.



(** A region that a restored file names [valueOf] can be renamed, but not
    back: the second rename is refused and the store stays renamed. *)
Lemma renameRegion_no_way_back :
  let db := mkDB "valueOf" {["valueOf" := emptyRegion]} in
  _renameRegion "valueOf" "West" db = (Done, mkDB "West" {["West" := emptyRegion]})
  ∧ _renameRegion "West" "valueOf" (mkDB "West" {["West" := emptyRegion]})
    = (Alerted RegionExists, mkDB "West" {["West" := emptyRegion]}).
Proof. split; by vm_compute. Qed.

(** ** The ledger invariant *)

Lemma ledgerInv_current db r : ledgerInv db → theRegion db = Some r → regionOk r.
Proof. intros H Hr. exact (H _ _ Hr). Qed.

Lemma ledgerInv_putRegion db r : ledgerInv db → regionOk r → ledgerInv (putRegion r db).
Proof. intros H Hr. unfold ledgerInv, putRegion. simpl. by apply map_Forall_insert_2. Qed.

Lemma ledgerInv_statusInv db : ledgerInv db → statusInv db.
Proof. intros H k r Hk no o Ho. exact (proj1 (proj2 (proj2 (proj1 (H k r Hk) no o Ho)))). Qed.

Lemma ledgerInv_suppliedInv db : ledgerInv db → suppliedInv db.
Proof.
  intros H k r Hk no o Ho. exact (proj1 (proj2 (proj2 (proj2 (proj1 (H k r Hk) no o Ho))))).
Qed.

Lemma ledgerInv_allocInv db : ledgerInv db → allocInv db.
Proof.
  intros H k r Hk no o Ho.
  exact (proj1 (proj2 (proj2 (proj2 (proj2 (proj1 (H k r Hk) no o Ho)))))).
Qed.

Lemma ledgerInv_renderOrders ui db : ledgerInv db → ledgerInv (renderOrders ui db).
Proof. intros H. by rewrite renderOrders_id by by apply ledgerInv_statusInv. Qed.

Lemma ledgerInv_renderOrdersIfActive ui db : ledgerInv db → ledgerInv (renderOrdersIfActive ui db).
Proof. unfold renderOrdersIfActive. destruct (pageOrdersActive ui); [apply ledgerInv_renderOrders|done]. Qed.

Lemma entryOk_mono r r' e :
  (∀ no, is_Some (orders r !! no) → is_Some (orders r' !! no)) → entryOk r e → entryOk r' e.
Proof.
  intros Hdom [Hpos He]. split; [done|].
  destruct (unallocated e); [done|].
  destruct (entryOrderNo e) as [no|]; [|done]. destruct He. split; [done|]. by apply Hdom.
Qed.

(** A region whose log is kept and whose orders are replaced. *)
Lemma regionOk_same_log r r' :
  regionOk r →
  dailyLog r' = dailyLog r →
  (∀ no o', orders r' !! no = Some o' → orderOk r no o') →
  (∀ no, is_Some (orders r !! no) → is_Some (orders r' !! no)) →
  regionOk r'.
Proof.
  intros [Hos Hes] Hlog Hos' Hdom. split.
  - intros no o' Ho'. destruct (Hos' no o' Ho') as (?&?&?&?&?&?).
    repeat split; try done. by rewrite (loggedFor_same_log no r' r).
  - rewrite Hlog. intros d es Hd. eapply Forall_impl; [exact (Hes d es Hd)|].
    intros e. by apply entryOk_mono.
Qed.

Lemma flatLog_elem r e :
  e ∈ flatLog r → ∃ d es, dailyLog r !! d = Some es ∧ e ∈ es.
Proof.
  unfold flatLog, JS.values. intros He.
  apply list_elem_of_In, in_concat in He as (es & Hes & He).
  apply list_elem_of_In in Hes, He.
  apply list_elem_of_fmap in Hes as ([d es'] & -> & Hin).
  apply elem_of_map_to_list in Hin. by exists d, es'.
Qed.

(** No entry of a region in order names an order that the region lacks. *)
Lemma loggedFor_absent r no : regionOk r → orders r !! no = None → loggedFor no r = 0.
Proof.
  intros [_ Hes] Hno. unfold loggedFor.
  replace (filter (λ e, refersTo no e) (flatLog r)) with (@nil Entry); [done|].
  symmetry. apply elem_of_nil_inv. intros e He.
  apply list_elem_of_filter in He as [Href He].
  apply flatLog_elem in He as (d & es & Hd & He).
  pose proof (Hes d es Hd) as Hall. rewrite Forall_forall in Hall.
  destruct (Hall e He) as [_ Hok].
  unfold refersTo in Href. apply Is_true_true in Href. apply bool_decide_eq_true in Href.
  rewrite Href in Hok. destruct (unallocated e); [by destruct Hok|].
  destruct Hok as [_ [o Ho]]. congruence.
Qed.

Lemma regionOk_insert_order r no o' :
  regionOk r → orderOk r no o' → regionOk (set_orders (<[no := o']> (orders r)) r).
Proof.
  intros Hr Ho'. apply (regionOk_same_log r); [done|done| |].
  - simpl. intros no' o'' Hlk. destruct (decide (no' = no)) as [->|Hne].
    + rewrite lookup_insert_eq in Hlk. by injection Hlk as <-.
    + rewrite lookup_insert_ne in Hlk by done. by apply (proj1 Hr).
  - simpl. intros no' Hs. destruct (decide (no' = no)) as [->|Hne].
    + rewrite lookup_insert_eq. by eexists.
    + by rewrite lookup_insert_ne.
Qed.

(** An order in which only the allocations, the date or the comments
    differ. *)
Lemma orderOk_same_totals r no o o' :
  orderOk r no o →
  orderNo o' = orderNo o → totalLiters o' = totalLiters o →
  suppliedTotal o' = suppliedTotal o → status o' = status o →
  allocatedSum o' ≤ totalLiters o →
  map_Forall (λ _ v, 0 ≤ v) (allocations o') →
  orderOk r no o'.
Proof.
  intros (H1&H2&H3&H4&H5&H6) E1 E2 E3 E4 Hsum Hnn.
  unfold orderOk, statusOf in *. rewrite E1, E2, E3, E4. done.
Qed.

Lemma allocatedSum_empty o : allocations o = ∅ → allocatedSum o = 0.
Proof. unfold allocatedSum, JS.values. intros ->. by rewrite map_to_list_empty. Qed.

Lemma allocationTruthy_false o t :
  allocationTruthy o t = false → default 0 (allocations o !! t) = 0.
Proof.
  unfold allocationTruthy, JS.truthy_num. destruct (allocations o !! t) as [v|]; [|done].
  simpl. intros H. apply negb_false_iff, Z.eqb_eq in H. done.
Qed.

Lemma lookup_nonneg (m : gmap string Z) k :
  map_Forall (λ _ v, 0 ≤ v) m → 0 ≤ default 0 (m !! k).
Proof. intros H. destruct (m !! k) as [v|] eqn:E; simpl; [exact (H k v E)|lia]. Qed.

Lemma allocatedSum_delete o t :
  map_Forall (λ _ v, 0 ≤ v) (allocations o) →
  allocatedSum (set_allocations (delete t (allocations o)) o) ≤ allocatedSum o.
Proof.
  intros Hnn. unfold allocatedSum. simpl.
  destruct (allocations o !! t) as [v|] eqn:E.
  - rewrite (sum_values_delete (allocations o) t v E). pose proof (Hnn t v E). simpl in *. lia.
  - by rewrite delete_id.
Qed.

Lemma allocatedSum_moveKey o oldName newName :
  oldName ≠ newName →
  map_Forall (λ _ v, 0 ≤ v) (allocations o) →
  JS.sum (JS.values (moveKey oldName newName (allocations o))) ≤ allocatedSum o
  ∧ map_Forall (λ _ v, 0 ≤ v) (moveKey oldName newName (allocations o)).
Proof.
  intros Hne Hnn. unfold moveKey, allocatedSum.
  destruct (allocations o !! oldName) as [v|] eqn:E; [|done].
  destruct (assign_cases newName v (allocations o)) as [->|(-> & _ & _)].
  - split.
    + assert (<[newName := v]> (allocations o) !! oldName = Some v) as E'
        by (by rewrite lookup_insert_ne).
      pose proof (sum_values_delete _ _ _ E') as Hd.
      rewrite sum_values_insert in Hd.
      pose proof (lookup_nonneg (allocations o) newName Hnn). lia.
    + apply map_Forall_delete. apply map_Forall_insert_2; [exact (Hnn _ _ E)|done].
  - split; [|by apply map_Forall_delete].
    pose proof (sum_values_delete _ _ _ E) as Hd. pose proof (Hnn _ _ E) as Hv. simpl in Hv. lia.
Qed.

(** The orders of a region with the technician renamed, or removed. *)
Lemma regionOk_deleteTech r ts ps techName :
  regionOk r →
  regionOk (mkRegion ts ps
              ((λ o, set_allocations (delete techName (allocations o)) o) <$> orders r)
              (dailyLog r)).
Proof.
  intros Hr. apply (regionOk_same_log r); [done|done| |].
  - simpl. intros no o' Hlk. rewrite lookup_fmap in Hlk.
    destruct (orders r !! no) as [o|] eqn:Ho; [|done]. injection Hlk as <-.
    pose proof (proj1 Hr no o Ho) as Hok.
    apply (orderOk_same_totals r no o); try done.
    + pose proof (allocatedSum_delete o techName) as Hle.
      destruct Hok as (_&_&_&_&?&Hnn). specialize (Hle Hnn). lia.
    + simpl. apply map_Forall_delete. by destruct Hok as (_&_&_&_&_&?).
  - simpl. intros no [o Ho]. rewrite lookup_fmap, Ho. by eexists.
Qed.

Lemma loggedIn_renamed no oldName newName es :
  loggedIn no (renameInEntry oldName newName <$> es) = loggedIn no es.
Proof.
  unfold loggedIn. induction es as [|e es IH]; [done|].
  rewrite fmap_cons.
  assert (refersTo no (renameInEntry oldName newName e) = refersTo no e) as Hr.
  { unfold renameInEntry. by destruct (String.eqb (technician e) oldName). }
  destruct (refersTo no e) eqn:E.
  - rewrite !filter_cons_True by (simpl; rewrite ?Hr, ?E; exact I).
    rewrite !fmap_cons. simpl. rewrite renameInEntry_supplied. simpl in IH. by rewrite IH.
  - rewrite !filter_cons_False by (simpl; rewrite ?Hr, ?E; exact id). done.
Qed.

Lemma entryOk_renamed r r' oldName newName e :
  (∀ no, is_Some (orders r !! no) → is_Some (orders r' !! no)) →
  entryOk r e → entryOk r' (renameInEntry oldName newName e).
Proof.
  intros Hdom He. apply (entryOk_mono r r') in He; [|done].
  unfold renameInEntry. by destruct (String.eqb (technician e) oldName).
Qed.

Lemma regionOk_renameInRegion oldName newName r :
  oldName ≠ newName → regionOk r → regionOk (renameInRegion oldName newName r).
Proof.
  intros Hne Hr. unfold renameInRegion.
  destruct (JS.indexOf oldName (technicians r)) as [idx|]; [|done].
  split; simpl.
  - intros no o' Hlk. rewrite lookup_fmap in Hlk.
    destruct (orders r !! no) as [o|] eqn:Ho; [|done]. injection Hlk as <-.
    destruct (proj1 Hr no o Ho) as (H1&H2&H3&H4&H5&H6).
    destruct (allocatedSum_moveKey o oldName newName Hne H6) as [Hsum Hnn].
    unfold orderOk, statusOf, allocatedSum. simpl.
    repeat split; try done.
    + rewrite H4. rewrite !loggedFor_logSum. simpl. symmetry.
      apply logSum_fmap. intros es. apply loggedIn_renamed.
    + lia.
  - intros d es' Hlk. rewrite lookup_fmap in Hlk.
    destruct (dailyLog r !! d) as [es|] eqn:Hd; [|done]. injection Hlk as <-.
    apply Forall_fmap. eapply Forall_impl; [exact (proj2 Hr d es Hd)|].
    intros e He. simpl. apply (entryOk_renamed r); [|done].
    simpl. intros no [o Ho]. rewrite lookup_fmap, Ho. by eexists.
Qed.

Lemma regionOk_deleteOrder r no :
  regionOk r →
  regionOk (set_dailyLog ((λ es, filter (λ e, negb (refersTo no e)) es) <$> dailyLog r)
              (set_orders (delete no (orders r)) r)).
Proof.
  intros Hr. split; simpl.
  - intros no' o Hlk. apply lookup_delete_Some in Hlk as [Hne Ho].
    destruct (proj1 Hr no' o Ho) as (H1&H2&H3&H4&H5&H6).
    unfold orderOk. repeat split; try done.
    rewrite H4, !loggedFor_logSum. simpl. symmetry.
    apply logSum_fmap. intros es. by apply loggedIn_without.
  - intros d es' Hlk. rewrite lookup_fmap in Hlk.
    destruct (dailyLog r !! d) as [es|] eqn:Hd; [|done]. injection Hlk as <-.
    apply Forall_forall. intros e He. apply list_elem_of_filter in He as [Href He].
    pose proof (proj2 Hr d es Hd) as Hall. rewrite Forall_forall in Hall.
    destruct (Hall e He) as [Hpos Hok]. split; [done|].
    destruct (unallocated e); [done|].
    destruct (entryOrderNo e) as [no'|] eqn:Eno; [|done].
    destruct Hok as [Hne Hs]. split; [done|]. simpl.
    rewrite lookup_delete_ne; [done|].
    intros <-. unfold refersTo in Href. rewrite Eno in Href.
    by rewrite bool_decide_eq_true_2 in Href.
Qed.

(** *** The batch of [saveDaily] *)

Lemma pushEntry_entries r0 d e r :
  entryOk r0 e →
  map_Forall (λ _ es, Forall (entryOk r0) es) (dailyLog r) →
  map_Forall (λ _ es, Forall (entryOk r0) es) (dailyLog (pushEntry d e r)).
Proof.
  intros He Hall d' es' Hlk. unfold pushEntry in Hlk. simpl in Hlk.
  destruct (decide (d' = d)) as [->|Hne].
  - rewrite lookup_alter_eq in Hlk. destruct (dailyLog r !! d) as [es|] eqn:Hd; [|done].
    injection Hlk as <-. apply Forall_app. split; [exact (Hall d es Hd)|by apply Forall_singleton].
  - rewrite lookup_alter_ne in Hlk by done. exact (Hall d' es' Hlk).
Qed.

Lemma minWith_pos v card : 0 < v → boundNonneg card → 0 < minWith v (maxAllowed card).
Proof.
  unfold boundNonneg, maxAllowed, minWith, JS.truthy_num. intros Hv Hb.
  destruct (supp_input_max card) as [m|]; [|done].
  destruct (Z.eqb_spec m 0); simpl; lia.
Qed.

Lemma saveCard_batchKeeps r0 d st card :
  boundNonneg card → batchKeeps r0 st.1.1 → batchKeeps r0 (saveCard d st card).1.1.
Proof.
  destruct st as [[region saved] skipped]. intros Hb (Hos & Hdom & Hes). simpl in *.
  unfold saveCard.
  destruct (negb (JS.truthy_str (tech_sel card)) || (supp_input_value card <=? 0)) eqn:Hlook;
    [done|].
  apply orb_false_iff in Hlook as [_ Hpos]. apply Z.leb_gt in Hpos.
  destruct (data_unallocated card) eqn:Hun.
  - destruct (negb (JS.truthy_str _)) eqn:Hc; [done|]. simpl.
    split; [done|]. split; [done|].
    apply pushEntry_entries; [|done]. split; [done|]. simpl. split; [done|].
    apply negb_false_iff in Hc. unfold JS.truthy_str in Hc.
    apply negb_true_iff in Hc. intros E. rewrite E in Hc. done.
  - destruct (data_order card) as [no|] eqn:Hno; [|done].
    destruct (negb (JS.truthy_str no)) eqn:Htr; [done|].
    destruct (orders region !! no) as [o|] eqn:Ho; [|done].
    destruct (bool_decide (status o = CLOSED)); [done|]. simpl.
    destruct (Hos no o Ho) as (o0 & Ho0 & E1 & E2).
    split; [|split].
    + intros no' o' Hlk. simpl in Hlk. destruct (decide (no' = no)) as [->|Hne].
      * rewrite lookup_insert_eq in Hlk. injection Hlk as <-. by exists o0.
      * rewrite lookup_insert_ne in Hlk by done. by apply Hos.
    + intros no' Hs. simpl. destruct (decide (no' = no)) as [->|Hne].
      * rewrite lookup_insert_eq. by eexists.
      * rewrite lookup_insert_ne by done. by apply Hdom.
    + apply (pushEntry_entries r0 d _
               (set_orders (<[no := set_suppliedTotal _ o]> (orders region)) region)); [|done].
      split; [by apply minWith_pos|]. simpl. split; [|by eexists].
      apply negb_false_iff in Htr. unfold JS.truthy_str in Htr.
      apply negb_true_iff in Htr. intros E. rewrite E in Htr. done.
Qed.

Lemma foldl_saveCard_batchKeeps r0 d cards : ∀ st,
  Forall boundNonneg cards → batchKeeps r0 st.1.1 →
  batchKeeps r0 (foldl (saveCard d) st cards).1.1.
Proof.
  induction cards as [|card cards IH]; intros st Hb Hk; [done|].
  apply Forall_cons in Hb as [Hb1 Hb2]. simpl. apply IH; [done|].
  by apply saveCard_batchKeeps.
Qed.

Lemma regionOk_regionSupplied r : regionOk r → regionSupplied r.
Proof. intros [Hos _] no o Ho. exact (proj1 (proj2 (proj2 (proj2 (Hos no o Ho))))). Qed.

Lemma regionOk_open_date r d :
  regionOk r → dailyLog r !! d = None → regionOk (set_dailyLog (<[d := []]> (dailyLog r)) r).
Proof.
  intros [Hos Hes] Hd. split; simpl.
  - intros no o Ho. destruct (Hos no o Ho) as (H1&H2&H3&H4&H5&H6).
    unfold orderOk. repeat split; try done.
    rewrite H4, !loggedFor_logSum. simpl. rewrite logSum_insert_fresh by done. done.
  - apply map_Forall_insert_2; [done|].
    intros d' es Hlk. eapply Forall_impl; [exact (Hes d' es Hlk)|].
    intros e. by apply entryOk_mono.
Qed.

Lemma regionOk_saveDaily d cards r :
  regionOk r → is_Some (dailyLog r !! d) → Forall boundNonneg cards →
  let r2 := (foldl (saveCard d) (r, 0%nat, 0%nat) cards).1.1 in
  regionOk (set_orders (closeFilled <$> orders r2) r2).
Proof.
  intros Hr Hd Hb r2.
  assert (batchKeeps r r) as Hk0.
  { split; [|split; [done|exact (proj2 Hr)]]. intros no o Ho. by exists o. }
  pose proof (foldl_saveCard_batchKeeps r d cards (r, 0%nat, 0%nat) Hb Hk0) as (Hos & Hdom & Hes).
  pose proof (foldl_saveCard_regionSupplied d cards (r, 0%nat, 0%nat)
                (regionOk_regionSupplied r Hr) Hd) as Hsup.
  fold r2 in Hos, Hdom, Hes, Hsup.
  split; simpl.
  - apply map_Forall_fmap. intros no o2 Ho2. simpl.
    destruct (Hos no o2 Ho2) as (o & Ho & E1 & E2).
    destruct (foldl_saveCard_onlySupplied d cards (r, 0%nat, 0%nat) no o2 Ho2)
      as (o' & Ho' & (Hs & Ht & Hc)).
    simpl in Ho'. rewrite Ho in Ho'. injection Ho' as <-.
    destruct (proj1 Hr no o Ho) as (H1&H2&H3&H4&H5&H6).
    assert (status (closeFilled o2) = statusOf (closeFilled o2)) as Hst.
    { apply closeFilled_status. destruct (status o) eqn:E; [left; congruence|].
      right. rewrite Hs. unfold statusOf in *. rewrite Ht, (Hc eq_refl). done. }
    unfold orderOk. split; [|split; [|split; [done|split; [|split]]]].
    + unfold closeFilled. case_match; simpl; congruence.
    + unfold closeFilled. case_match; simpl; lia.
    + rewrite suppliedTotal_closeFilled. rewrite (Hsup no o2 Ho2).
      by apply loggedFor_same_log.
    + unfold closeFilled, allocatedSum in *. case_match; simpl; rewrite E2, Ht; done.
    + unfold closeFilled. case_match; simpl; by rewrite E2.
  - intros d' es Hlk. eapply Forall_impl; [exact (Hes d' es Hlk)|].
    intros e. apply entryOk_mono. simpl. intros no Hs.
    rewrite lookup_fmap. destruct (Hdom no Hs) as [o2 ->]. by eexists.
Qed.

(** *** Editing and deleting an entry *)

Lemma entryOk_wellFormed r e : entryOk r e → wellFormedEntry e.
Proof.
  intros [_ H]. split.
  - intros Hu. rewrite Hu in H. by destruct H.
  - destruct (unallocated e); [destruct H as [-> _]; done|].
    destruct (entryOrderNo e) as [no|]; [|done]. destruct H. congruence.
Qed.

Lemma litresFor_bounds no e : 0 < supplied e → 0 ≤ litresFor no e ≤ supplied e.
Proof. unfold litresFor. case_match; lia. Qed.

Lemma loggedIn_nonneg no es : Forall (λ e, 0 < supplied e) es → 0 ≤ loggedIn no es.
Proof.
  induction 1 as [|e es He _ IH]; [done|].
  rewrite loggedIn_cons. pose proof (litresFor_bounds no e He). lia.
Qed.

Lemma logSum_nonneg no (log : gmap string (list Entry)) :
  map_Forall (λ _ es, Forall (λ e, 0 < supplied e) es) log → 0 ≤ logSum no log.
Proof.
  intros Hall. unfold logSum.
  assert (∀ x, x ∈ map_to_list log → 0 ≤ loggedIn no x.2) as Hx.
  { intros [d es] Hin. apply elem_of_map_to_list in Hin. apply loggedIn_nonneg.
    exact (Hall d es Hin). }
  induction (map_to_list log) as [|x l IH]; [done|].
  rewrite fmap_cons. simpl.
  pose proof (Hx x ltac:(left)).
  assert (0 ≤ JS.sum ((λ x, loggedIn no x.2) <$> l)); [|lia].
  apply IH. intros y Hy. apply Hx. by right.
Qed.

(** With positive entries the account of an order is at least any one of
    its entries. *)
Lemma logSum_ge_entry no (log : gmap string (list Entry)) date es idx e :
  map_Forall (λ _ es, Forall (λ e, 0 < supplied e) es) log →
  log !! date = Some es → es !! idx = Some e →
  litresFor no e ≤ logSum no log.
Proof.
  intros Hall Hd He.
  rewrite (logSum_delete no log date es Hd).
  pose proof (loggedIn_delete no es idx e He) as Hdel.
  pose proof (Hall date es Hd) as Hes.
  assert (0 ≤ loggedIn no (delete idx es)).
  { apply loggedIn_nonneg. by apply Forall_delete. }
  assert (0 ≤ logSum no (delete date log)).
  { apply logSum_nonneg. by apply map_Forall_delete. }
  lia.
Qed.

Lemma regionOk_positive r :
  regionOk r → map_Forall (λ _ es, Forall (λ e, 0 < supplied e) es) (dailyLog r).
Proof.
  intros [_ Hes] d es Hd. eapply Forall_impl; [exact (Hes d es Hd)|]. by intros e [? _].
Qed.

Lemma updateReferenced_lookup f entry r no o' :
  updateReferenced f entry r !! no = Some o' →
  ∃ o, orders r !! no = Some o
       ∧ (o' = o ∨ (o' = f o ∧ entryOrderNo entry = Some no ∧ unallocated entry = false)).
Proof.
  unfold updateReferenced. intros Hlk.
  destruct (unallocated entry) eqn:Hu; simpl in Hlk; [by exists o'; split; [|left]|].
  destruct (orderNoTruthy entry) as [k|] eqn:Hk; [|by exists o'; split; [|left]].
  apply orderNoTruthy_Some in Hk.
  destruct (orders r !! k) as [o|] eqn:Ho; [|by exists o'; split; [|left]].
  destruct (decide (no = k)) as [->|Hne].
  - rewrite lookup_insert_eq in Hlk. injection Hlk as <-. exists o. split; [done|]. by right.
  - rewrite lookup_insert_ne in Hlk by done. exists o'. split; [done|by left].
Qed.

Lemma updateReferenced_dom f entry r no :
  is_Some (orders r !! no) → is_Some (updateReferenced f entry r !! no).
Proof.
  unfold updateReferenced. intros Hs. repeat case_match; try done.
  destruct (decide (no = s)) as [->|Hne].
  - rewrite lookup_insert_eq. by eexists.
  - by rewrite lookup_insert_ne.
Qed.

Lemma regionOk_updateReferenced f entry r date entries idx log' delta :
  regionOk r →
  dailyLog r !! date = Some entries → entries !! idx = Some entry →
  (∀ o, orderNo (f o) = orderNo o ∧ totalLiters (f o) = totalLiters o
        ∧ allocations (f o) = allocations o) →
  (∀ o, status o = statusOf o → supplied entry ≤ suppliedTotal o →
        suppliedTotal (f o) = suppliedTotal o + delta ∧ status (f o) = statusOf (f o)) →
  (∀ no, logSum no log' = logSum no (dailyLog r) + if refersTo no entry then delta else 0) →
  map_Forall (λ _ es, Forall (entryOk r) es) log' →
  regionOk (set_dailyLog log' (set_orders (updateReferenced f entry r) r)).
Proof.
  intros Hr Hd He Hstatic Hf Hlog Hes'.
  pose proof (proj2 Hr date entries Hd) as Hall.
  rewrite Forall_lookup in Hall. pose proof (Hall idx entry He) as Hentry.
  assert (∀ no o, entryOrderNo entry = Some no → orders r !! no = Some o →
                  supplied entry ≤ suppliedTotal o) as Hclamp.
  { intros no o Hk Ho. destruct (proj1 Hr no o Ho) as (_&_&_&H4&_).
    rewrite H4, loggedFor_logSum.
    pose proof (logSum_ge_entry no (dailyLog r) date entries idx entry
                  (regionOk_positive r Hr) Hd He) as Hge.
    by rewrite (litresFor_same no entry Hk) in Hge. }
  assert (regionSupplied (set_dailyLog log' (set_orders (updateReferenced f entry r) r)))
    as Hsup.
  { apply (updateReferenced_regionSupplied f entry r log' delta);
      [by apply regionOk_regionSupplied|by apply (entryOk_wellFormed r)| |done].
    intros no o Hk Ho. destruct (proj1 Hr no o Ho) as (_&_&H3&_).
    exact (proj1 (Hf o H3 (Hclamp no o Hk Ho))). }
  split.
  - intros no o' Ho'. pose proof (Hsup no o' Ho') as Hs. simpl in Ho'.
    destruct (updateReferenced_lookup f entry r no o' Ho') as (o & Ho & [->|(-> & Hk & Hu)]).
    + destruct (proj1 Hr no o Ho) as (H1&H2&H3&H4&H5&H6). by repeat split.
    + destruct (proj1 Hr no o Ho) as (H1&H2&H3&H4&H5&H6).
      destruct (Hstatic o) as (E1&E2&E3).
      destruct (Hf o H3 (Hclamp no o Hk Ho)) as [_ Hst].
      unfold orderOk, allocatedSum. rewrite E1, E2, E3. by repeat split.
  - simpl. intros d es Hlk. eapply Forall_impl; [exact (Hes' d es Hlk)|].
    intros e. apply entryOk_mono. simpl. apply updateReferenced_dom.
Qed.

Lemma applyEdit_static diff o :
  orderNo (applyEdit diff o) = orderNo o ∧ totalLiters (applyEdit diff o) = totalLiters o
  ∧ allocations (applyEdit diff o) = allocations o.
Proof. unfold applyEdit. repeat case_match; done. Qed.

Lemma applyDelete_static e o :
  orderNo (applyDelete e o) = orderNo o ∧ totalLiters (applyDelete e o) = totalLiters o
  ∧ allocations (applyDelete e o) = allocations o.
Proof. unfold applyDelete. repeat case_match; done. Qed.

Lemma regionOk_saveEditEntry r date entries idx entry v c :
  regionOk r →
  dailyLog r !! date = Some entries → entries !! idx = Some entry →
  0 < v → (unallocated entry = true → c ≠ "") →
  regionOk (set_dailyLog (<[date := <[idx := editedEntry v c entry]> entries]> (dailyLog r))
              (set_orders (updateReferenced (applyEdit (v - supplied entry)) entry r) r)).
Proof.
  intros Hr Hd He Hv Hc.
  pose proof (proj2 Hr date entries Hd) as Hall.
  pose proof Hall as Hall'. rewrite Forall_lookup in Hall'.
  pose proof (Hall' idx entry He) as [Hpos Hok].
  apply (regionOk_updateReferenced _ entry r date entries idx _ (v - supplied entry));
    try done.
  - apply applyEdit_static.
  - intros o Hst Hle. split; [|apply applyEdit_status].
    rewrite suppliedTotal_applyEdit. lia.
  - intros no. rewrite (logSum_insert no _ date entries _ Hd).
    rewrite (loggedIn_insert no entries idx entry _ He).
    unfold litresFor, editedEntry, refersTo.
    destruct (unallocated entry); simpl; destruct (bool_decide _); lia.
  - apply map_Forall_insert_2; [|exact (proj2 Hr)].
    apply Forall_insert; [done|].
    unfold editedEntry, entryOk in *. destruct (unallocated entry) eqn:Hu; simpl.
    + rewrite Hu. split; [done|]. split; [by destruct Hok|]. by apply Hc.
    + rewrite Hu. done.
Qed.

Lemma regionOk_deleteDailyEntry r date entries idx entry :
  regionOk r →
  dailyLog r !! date = Some entries → entries !! idx = Some entry →
  regionOk (set_dailyLog (logAfterDelete date idx entries (dailyLog r))
              (set_orders (updateReferenced (applyDelete entry) entry r) r)).
Proof.
  intros Hr Hd He.
  pose proof (proj2 Hr date entries Hd) as Hall.
  pose proof Hall as Hall'. rewrite Forall_lookup in Hall'.
  pose proof (Hall' idx entry He) as [Hpos Hok].
  apply (regionOk_updateReferenced _ entry r date entries idx _ (- supplied entry));
    try done.
  - apply applyDelete_static.
  - intros o Hst Hle. split.
    + rewrite suppliedTotal_applyDelete. lia.
    + apply applyDelete_status; [done|lia|lia].
  - intros no. rewrite (logSum_logAfterDelete no _ date entries idx entry Hd He).
    unfold litresFor. destruct (refersTo no entry); lia.
  - unfold logAfterDelete, JS.splice1.
    destruct (delete idx entries) as [|e' es'] eqn:Edel.
    + apply map_Forall_delete. exact (proj2 Hr).
    + apply map_Forall_insert_2; [|exact (proj2 Hr)].
      rewrite <- Edel. by apply Forall_delete.
Qed.

(** *** One command *)

Lemma truthy_str_neg s : negb (JS.truthy_str s) = false → s ≠ "".
Proof.
  unfold JS.truthy_str. rewrite negb_involutive. intros H ->. done.
Qed.

Lemma ledgerInv_createOrder ui today no plate total date db :
  ledgerInv db → 0 < total → ledgerInv (after (CreateOrder ui today no plate total date) db).
Proof.
  intros Hinv Htot. unfold after. simpl. unfold createOrder, withRegion.
  destruct (theRegion db) as [r|] eqn:Hr; [|done].
  pose proof (ledgerInv_current db r Hinv Hr) as Hok.
  destruct (negb (JS.truthy_str (JS.trim no)) || _) eqn:Hg; [done|].
  apply orb_false_iff in Hg as [_ Hfresh]. apply has_false in Hfresh as [Hnone _].
  cbn [snd]. apply ledgerInv_renderOrders, ledgerInv_putRegion; [done|].
  apply regionOk_insert_order; [done|].
  unfold orderOk, statusOf. simpl. repeat split; try done.
  - by rewrite bool_decide_eq_false_2 by lia.
  - by rewrite loggedFor_absent.
  - unfold allocatedSum, JS.values. simpl. rewrite map_to_list_empty. simpl. lia.
Qed.

Lemma ledgerInv_allocateFuel orderKey t amt db :
  ledgerInv db → 0 ≤ amt → ledgerInv (after (AllocateFuel orderKey t amt) db).
Proof.
  intros Hinv Hamt. unfold after. simpl. unfold allocateFuel, withRegion.
  destruct (theRegion db) as [r|] eqn:Hr; [|done].
  pose proof (ledgerInv_current db r Hinv Hr) as Hok.
  destruct (orders r !! orderKey) as [o|] eqn:Ho; [|done].
  destruct (negb (JS.truthy_str t) || _); [done|].
  destruct (allocationTruthy o t) eqn:Hat; [done|].
  destruct (totalLiters o <? allocatedSum o + amt) eqn:Hcap; [done|].
  apply Z.ltb_ge in Hcap.
  cbn [snd]. apply ledgerInv_putRegion; [done|].
  apply regionOk_insert_order; [done|].
  pose proof (proj1 Hok orderKey o Ho) as Hoo.
  apply (orderOk_same_totals r orderKey o); try done.
  - rewrite allocatedSum_insert, (allocationTruthy_false o t Hat). lia.
  - simpl. apply map_Forall_insert_2; [done|]. by destruct Hoo as (_&_&_&_&_&?).
Qed.

Lemma ledgerInv_saveOrderDate ui no date db :
  ledgerInv db → ledgerInv (after (SaveOrderDate ui no date) db).
Proof.
  intros Hinv. unfold after. simpl. unfold saveOrderDate, withRegion.
  destruct (theRegion db) as [r|] eqn:Hr; [|done].
  pose proof (ledgerInv_current db r Hinv Hr) as Hok.
  destruct (orders r !! no) as [o|] eqn:Ho; [|done].
  destruct (negb _); [done|].
  cbn [snd]. apply ledgerInv_renderOrders, ledgerInv_putRegion; [done|].
  apply regionOk_insert_order; [done|].
  pose proof (proj1 Hok no o Ho) as Hoo.
  apply (orderOk_same_totals r no o); try done; by destruct Hoo as (_&_&_&_&?&?).
Qed.

Lemma ledgerInv_deleteOrder ui ok no db :
  ledgerInv db → ledgerInv (after (DeleteOrder ui ok no) db).
Proof.
  intros Hinv. unfold after. simpl. unfold deleteOrder, withRegion.
  destruct (theRegion db) as [r|] eqn:Hr; [|done].
  pose proof (ledgerInv_current db r Hinv Hr) as Hok.
  destruct (orders r !! no) as [o|] eqn:Ho; [|done].
  destruct ok; [|done].
  cbn [negb snd]. apply ledgerInv_renderOrders, ledgerInv_putRegion; [done|].
  by apply regionOk_deleteOrder.
Qed.

Lemma ledgerInv_saveAllocEdit ui no tech newAmt db :
  ledgerInv db → ledgerInv (after (SaveAllocEdit ui no tech newAmt) db).
Proof.
  intros Hinv. unfold after. simpl. unfold saveAllocEdit, withRegion.
  destruct (theRegion db) as [r|] eqn:Hr; [|done].
  pose proof (ledgerInv_current db r Hinv Hr) as Hok.
  destruct (orders r !! no) as [o|] eqn:Ho; [|done].
  destruct newAmt as [amt|]; [|done].
  destruct (amt <? 0) eqn:Hneg; [done|]. apply Z.ltb_ge in Hneg.
  rewrite sum_values_others.
  destruct (totalLiters o <? _) eqn:Hcap; [done|]. apply Z.ltb_ge in Hcap.
  cbn [snd]. apply ledgerInv_renderOrders, ledgerInv_putRegion; [done|].
  apply regionOk_insert_order; [done|].
  pose proof (proj1 Hok no o Ho) as Hoo.
  destruct (assign_cases tech amt (allocations o)) as [->|(-> & _ & _)].
  - apply (orderOk_same_totals r no o); try done.
    + rewrite allocatedSum_insert. unfold allocatedSum. lia.
    + simpl. apply map_Forall_insert_2; [done|]. by destruct Hoo as (_&_&_&_&_&?).
  - apply (orderOk_same_totals r no o); try done; by destruct Hoo as (_&_&_&_&?&?).
Qed.

Lemma ledgerInv_saveOverageComment ui ctx c db :
  ledgerInv db → ledgerInv (after (SaveOverageComment ui ctx c) db).
Proof.
  intros Hinv. unfold after. simpl. unfold saveOverageComment, withRegion.
  destruct ctx as [[no tech]|]; [|done].
  destruct (negb _); [done|].
  destruct (theRegion db) as [r|] eqn:Hr; [|done].
  pose proof (ledgerInv_current db r Hinv Hr) as Hok.
  destruct (orders r !! no) as [o|] eqn:Ho; [|done].
  cbn [snd]. apply ledgerInv_renderOrders, ledgerInv_putRegion; [done|].
  apply regionOk_insert_order; [done|].
  pose proof (proj1 Hok no o Ho) as Hoo.
  apply (orderOk_same_totals r no o); try done; by destruct Hoo as (_&_&_&_&?&?).
Qed.

Lemma ledgerInv_confirmClone ui today src newNo newDate db :
  ledgerInv db → ledgerInv (after (ConfirmClone ui today src newNo newDate) db).
Proof.
  intros Hinv. unfold after. simpl. unfold confirmClone, withRegion.
  destruct (theRegion db) as [r|] eqn:Hr; [|done].
  pose proof (ledgerInv_current db r Hinv Hr) as Hok.
  destruct (orders r !! default "null" src) as [o|] eqn:Ho; [|done].
  destruct (negb _); [done|].
  destruct (JS.has (orders r) (JS.trim newNo)) eqn:Hfresh; [done|].
  apply has_false in Hfresh as [Hnone _].
  cbn [snd]. apply ledgerInv_renderOrders, ledgerInv_putRegion; [done|].
  apply regionOk_insert_order; [done|].
  destruct (proj1 Hok _ o Ho) as (H1&H2&H3&H4&H5&H6).
  unfold orderOk, statusOf. simpl. repeat split; try done.
  - by rewrite bool_decide_eq_false_2 by lia.
  - by rewrite loggedFor_absent.
Qed.

Lemma ledgerInv_saveDaily ui d cards db :
  ledgerInv db → Forall boundNonneg cards → ledgerInv (after (SaveDaily ui d cards) db).
Proof.
  intros Hinv Hb. unfold after. simpl. unfold saveDaily, withRegion.
  destruct (negb _); [done|].
  destruct (theRegion db) as [r|] eqn:Hr; [|done].
  pose proof (ledgerInv_current db r Hinv Hr) as Hok.
  set (region1 := match dailyLog r !! d with
                  | Some _ => r
                  | None => set_dailyLog (<[d := []]> (dailyLog r)) r
                  end).
  assert (regionOk region1 ∧ is_Some (dailyLog region1 !! d)) as [Hok1 Hd1].
  { unfold region1. destruct (dailyLog r !! d) as [es|] eqn:Hd.
    - split; [done|]. by eexists.
    - split; [by apply regionOk_open_date|]. simpl. rewrite lookup_insert_eq. by eexists. }
  destruct cards as [|c0 cards0].
  { cbn [snd]. by apply ledgerInv_putRegion. }
  pose proof (regionOk_saveDaily d (c0 :: cards0) region1 Hok1 Hd1 Hb) as Hok2.
  destruct (foldl (saveCard d) (region1, 0%nat, 0%nat) (c0 :: cards0))
    as [[region2 saved] skipped] eqn:Hfold.
  cbn [snd]. apply ledgerInv_renderOrders, ledgerInv_putRegion; [done|].
  exact Hok2.
Qed.

Lemma ledgerInv_saveEditEntry ui ctx v c db :
  ledgerInv db → ledgerInv (after (SaveEditEntry ui ctx v c) db).
Proof.
  intros Hinv. unfold after. simpl. unfold saveEditEntry, withRegion.
  destruct ctx as [[date idx]|]; [|done].
  destruct (theRegion db) as [r|] eqn:Hr; [|done].
  pose proof (ledgerInv_current db r Hinv Hr) as Hok.
  destruct (dailyLog r !! date) as [entries|] eqn:Hd; [|done].
  destruct (entries !! idx) as [entry|] eqn:He; [|done].
  destruct (negb (JS.truthy_num v) || (v <=? 0)) eqn:Hv; [done|].
  apply orb_false_iff in Hv as [_ Hv]. apply Z.leb_gt in Hv.
  destruct (unallocated entry && negb (JS.truthy_str (JS.trim c))) eqn:Hc; [done|].
  cbn [snd]. apply ledgerInv_renderOrdersIfActive, ledgerInv_putRegion; [done|].
  apply regionOk_saveEditEntry; try done.
  intros Hu. rewrite Hu in Hc. simpl in Hc. by apply truthy_str_neg.
Qed.

Lemma ledgerInv_deleteDailyEntry ui ok date idx db :
  ledgerInv db → ledgerInv (after (DeleteDailyEntry ui ok date idx) db).
Proof.
  intros Hinv. unfold after. simpl. unfold deleteDailyEntry, withRegion.
  destruct (theRegion db) as [r|] eqn:Hr; [|done].
  pose proof (ledgerInv_current db r Hinv Hr) as Hok.
  destruct (dailyLog r !! date) as [entries|] eqn:Hd; [|done].
  destruct (entries !! idx) as [entry|] eqn:He; [|done].
  destruct ok; [|done].
  cbn [negb snd]. apply ledgerInv_renderOrdersIfActive, ledgerInv_putRegion; [done|].
  by apply regionOk_deleteDailyEntry.
Qed.

Lemma regionOk_emptyRegion : regionOk emptyRegion.
Proof. split; simpl; apply map_Forall_empty. Qed.

Lemma ledgerInv_regions c db :
  ledgerInv db →
  match c with
  | ChangeRegion _ | AddRegion _ | DeleteRegion _ _ | AddTechnician _ _ | DeleteTech _ _
  | ConfirmRename _ _ => ledgerInv (after c db)
  | _ => True
  end.
Proof.
  intros Hinv. destruct c; try exact I; unfold after; simpl.
  - unfold changeRegion. by rewrite populateRegions_snd.
  - unfold addRegion. destruct (_ || _); [done|]. rewrite populateRegions_snd. simpl.
    apply map_Forall_insert_2; [apply regionOk_emptyRegion|done].
  - unfold deleteRegion. case_bool_decide; [done|].
    destruct (regions db !! rName); [|done]. destruct confirmed; [|done].
    cbn [negb]. rewrite populateRegions_snd. by apply map_Forall_delete.
  - unfold addTechnician, withRegion.
    destruct (theRegion db) as [r|] eqn:Hr; [|done].
    pose proof (ledgerInv_current db r Hinv Hr) as Hok.
    repeat (case_match; try done). cbn [snd].
    apply ledgerInv_putRegion; [done|].
    apply (regionOk_same_log r); try done. exact (proj1 Hok).
  - unfold deleteTech, withRegion.
    destruct (theRegion db) as [r|] eqn:Hr; [|done].
    pose proof (ledgerInv_current db r Hinv Hr) as Hok.
    destruct confirmed; [|done]. cbn [negb snd].
    apply ledgerInv_putRegion; [done|]. by apply regionOk_deleteTech.
  - unfold confirmRename. destruct ctx as [[old|old]|]; [| |done].
    + destruct (negb _); [done|]. unfold _renameRegion.
      destruct (String.eqb _ old); [done|]. destruct (JS.has _ _); [done|].
      destruct (regions db !! old) as [r|] eqn:Hold; [|done]. rewrite populateRegions_snd.
      apply map_Forall_delete, map_Forall_insert_2; [|done].
      exact (Hinv _ _ Hold).
    + destruct (negb _); [done|]. unfold _renameTech.
      destruct (String.eqb_spec (JS.trim renameInput) old) as [|Hne]; [done|].
      rewrite populateRegions_snd.
      apply map_Forall_fmap. intros k r Hk. simpl.
      apply regionOk_renameInRegion; [congruence|exact (Hinv k r Hk)].
Qed.

Lemma ledgerInv_restoreData ok parsed db :
  ledgerInv db → admissible (RestoreData ok parsed) →
  ledgerInv (after (RestoreData ok parsed) db).
Proof.
  intros Hinv Hadm. unfold after. simpl in *. unfold restoreData.
  destruct (cand_regions parsed) as [rs|]; [|done].
  destruct (cand_currentRegion parsed) as [cur|]; [|done].
  destruct (negb _); [done|]. destruct ok; [|done]. simpl.
  unfold replaceDB. by case_match.
Qed.

(** Every command keeps the ledger in order, on admissible input. *)
Lemma ledgerInv_step c db : ledgerInv db → admissible c → ledgerInv (after c db).
Proof.
  intros Hinv Hadm. pose proof (ledgerInv_regions c db Hinv) as Hreg.
  destruct c; try exact Hreg.
  - by apply ledgerInv_createOrder.
  - by apply ledgerInv_allocateFuel.
  - by apply ledgerInv_saveOrderDate.
  - by apply ledgerInv_deleteOrder.
  - by apply ledgerInv_saveAllocEdit.
  - by apply ledgerInv_saveOverageComment.
  - by apply ledgerInv_confirmClone.
  - by apply ledgerInv_renderOrders.
  - by apply ledgerInv_saveDaily.
  - by apply ledgerInv_saveEditEntry.
  - by apply ledgerInv_deleteDailyEntry.
  - by apply ledgerInv_restoreData.
Qed.

(** X7. Within the scope of the embedding (whole litres whose magnitudes
    add up to less than [2^53], no name that [Object.prototype] defines, a
    region rename opened on a region), every command keeps the ledger in
    order when its input is admissible: order numbers, positive totals,
    statuses, supplied totals, allocations and log entries stay as
    [ledgerInv] describes them. *)
Theorem ledger_kept_by_admissible_command c db :
  inScope c db → ledgerInv db → admissible c → ledgerInv (after c db).
Proof. intros _. apply ledgerInv_step. Qed.

Lemma ledger_kept_by_admissible_command_witness :
  orderOf "O1" annSupplied60
    = Some (mkOrder "O1" "KBB 002" 100 60 {["Ann" := 60]} OPEN day1 None)
  ∧ orderOf "O1" (after (DeleteDailyEntry noFilter true day1 0%nat) annSupplied60)
    = Some (mkOrder "O1" "KBB 002" 100 0 {["Ann" := 60]} OPEN day1 None)
  ∧ ledgerInv (after (DeleteDailyEntry noFilter true day1 0%nat) annSupplied60).
Proof.
  split; [by vm_compute|]. split; [by vm_compute|].
  apply (ledger_kept_by_admissible_command (DeleteDailyEntry noFilter true day1 0%nat)
           annSupplied60).
  - by apply (bool_decide_unpack _); vm_compute.
  - by apply (bool_decide_unpack _); vm_compute.
  - exact I.
Defined.

Lemma ledgerInv_afterAll cs : ∀ db,
  ledgerInv db → Forall admissible cs → ledgerInv (afterAll cs db).
Proof.
  induction cs as [|c cs IH]; intros db Hinv Hadm; [done|].
  apply Forall_cons in Hadm as [Hc Hcs]. unfold afterAll. simpl.
  apply IH; [|done]. by apply ledgerInv_step.
Qed.

Lemma ledgerInv_default : ledgerInv DB_DEFAULT.
Proof.
  unfold ledgerInv, DB_DEFAULT. simpl. apply map_Forall_singleton. apply regionOk_emptyRegion.
Qed.

(** X8. From the default store, any sequence of commands with admissible
    input, each within the scope of the embedding where it runs, leads to a
    store in which every order has the status given by its totals, a
    supplied total equal to the litres logged against it, and allocations
    within its total. *)
Theorem admissible_commands_keep_ledger_consistent cs :
  inScopeRun cs DB_DEFAULT →
  Forall admissible cs →
  let db := afterAll cs DB_DEFAULT in
  ledgerInv db ∧ statusInv db ∧ suppliedInv db ∧ allocInv db.
Proof.
  intros _ Hadm db.
  assert (ledgerInv db) as Hinv by (apply ledgerInv_afterAll; [apply ledgerInv_default|done]).
  split; [done|]. split; [by apply ledgerInv_statusInv|].
  split; [by apply ledgerInv_suppliedInv|by apply ledgerInv_allocInv].
Qed.

Lemma admissible_commands_keep_ledger_consistent_witness :
  suppliedInv (afterAll [AddTechnician "Ann" "KAA 001";
                         CreateOrder noFilter day1 "O1" "KBB 002" 100 "";
                         AllocateFuel "O1" "Ann" 60;
                         SaveDaily noFilter day1 [annCard 70 annHolds60];
                         SaveEditEntry noFilter (Some (day1, 0%nat)) 20 ""] DB_DEFAULT).
Proof.
  refine (proj1 (proj2 (proj2 (admissible_commands_keep_ledger_consistent
    [AddTechnician "Ann" "KAA 001";
     CreateOrder noFilter day1 "O1" "KBB 002" 100 "";
     AllocateFuel "O1" "Ann" 60;
     SaveDaily noFilter day1 [annCard 70 annHolds60];
     SaveEditEntry noFilter (Some (day1, 0%nat)) 20 ""] _ _)))).
  { by apply (bool_decide_unpack _); vm_compute. }
  apply Forall_cons_2; [exact I|].
  apply Forall_cons_2; [by vm_compute|].
  apply Forall_cons_2; [by vm_compute|].
  apply Forall_cons_2; [apply Forall_cons_2; [by vm_compute|apply Forall_nil_2]|].
  apply Forall_cons_2; [exact I|apply Forall_nil_2].
Defined.

(** ** What the handlers of a page leave alone *)

Lemma renderOrders_putRegion ui r db :
  renderOrders ui (putRegion r db) = putRegion (set_orders (cardIfShown ui <$> orders r) r) db.
Proof.
  unfold renderOrders. rewrite theRegion_putRegion. unfold putRegion, set_regions. simpl.
  by rewrite insert_insert_eq.
Qed.

Lemma renderOrdersIfActive_putRegion ui r db :
  ∃ r', renderOrdersIfActive ui (putRegion r db) = putRegion r' db
        ∧ technicians r' = technicians r ∧ technicianPlates r' = technicianPlates r.
Proof.
  unfold renderOrdersIfActive. destruct (pageOrdersActive ui).
  - rewrite renderOrders_putRegion. by eexists.
  - by exists r.
Qed.

Lemma saveCard_technicians d st card :
  technicians (saveCard d st card).1.1 = technicians st.1.1
  ∧ technicianPlates (saveCard d st card).1.1 = technicianPlates st.1.1.
Proof.
  destruct st as [[region saved] skipped]. unfold saveCard.
  repeat (case_match; simpl; try done).
Qed.

Lemma foldl_saveCard_technicians d cards : ∀ st,
  technicians (foldl (saveCard d) st cards).1.1 = technicians st.1.1
  ∧ technicianPlates (foldl (saveCard d) st cards).1.1 = technicianPlates st.1.1.
Proof.
  induction cards as [|card cards IH]; intros st; [done|]. simpl.
  destruct (IH (saveCard d st card)) as [-> ->]. apply saveCard_technicians.
Qed.

(** A handler of the current region either leaves the store as it is or
    writes one region back in the place of the current one. *)
Lemma regionLocal_normal_form c db :
  regionLocal c = true →
  after c db = db
  ∨ ∃ r r', theRegion db = Some r ∧ after c db = putRegion r' db
            ∧ (ledgerOnly c = true →
               technicians r' = technicians r ∧ technicianPlates r' = technicianPlates r).
Proof.
  intros Hc. unfold after.
  destruct c; try discriminate Hc; simpl;
    try (unfold createOrder, allocateFuel, saveOrderDate, deleteOrder, saveAllocEdit,
           saveOverageComment, confirmClone, addTechnician, deleteTech, withRegion;
         repeat (case_match; try (by left));
         right; eexists _, _; (split; [reflexivity|]);
         cbn [snd]; rewrite ?renderOrders_putRegion; (split; [reflexivity|]); done).
  - unfold renderOrders. destruct (theRegion db) as [r|] eqn:Hr; [|by left].
    right. by eexists _, _.
  - unfold saveDaily, withRegion. destruct (negb _); [by left|].
    destruct (theRegion db) as [r|] eqn:Hr; [|by left].
    right. exists r.
    set (region1 := match dailyLog r !! d with
                    | Some _ => r
                    | None => set_dailyLog (<[d := []]> (dailyLog r)) r
                    end).
    assert (technicians region1 = technicians r
            ∧ technicianPlates region1 = technicianPlates r) as [Ht1 Hp1]
      by (unfold region1; by case_match).
    destruct cards as [|c0 cards0]; [by eexists|].
    pose proof (foldl_saveCard_technicians d (c0 :: cards0) (region1, 0%nat, 0%nat)) as [Ht Hp].
    destruct (foldl (saveCard d) (region1, 0%nat, 0%nat) (c0 :: cards0))
      as [[region2 saved] skipped] eqn:Hfold.
    cbn [snd]. rewrite renderOrders_putRegion. eexists. split; [done|]. split; [done|].
    intros _. simpl in *. split; congruence.
  - unfold saveEditEntry, withRegion. destruct ctx as [[date idx]|]; [|by left].
    destruct (theRegion db) as [r|] eqn:Hr; [|by left].
    repeat (case_match; try (by left)). cbn [snd].
    match goal with |- context [renderOrdersIfActive ui (putRegion ?x db)] =>
      destruct (renderOrdersIfActive_putRegion ui x db) as (r' & -> & Ht & Hp) end.
    right. by exists r, r'.
  - unfold deleteDailyEntry, withRegion.
    destruct (theRegion db) as [r|] eqn:Hr; [|by left].
    repeat (case_match; try (by left)). cbn [snd].
    match goal with |- context [renderOrdersIfActive ui (putRegion ?x db)] =>
      destruct (renderOrdersIfActive_putRegion ui x db) as (r' & -> & Ht & Hp) end.
    right. by exists r, r'.
Qed.

Lemma regions_putRegion_lookup r db k :
  regions (putRegion r db) !! k = if decide (k = currentRegion db) then Some r else regions db !! k.
Proof.
  unfold putRegion. simpl. case_decide as E.
  - subst. apply lookup_insert_eq.
  - by apply lookup_insert_ne.
Qed.

(** X9. The handlers of the orders and daily pages, [addTechnician] and
    [deleteTech] never switch region and never touch a region other than
    the current one; those of the two pages also leave the technicians and
    their plates as they are. *)
Theorem page_handlers_touch_current_region_only c db :
  regionLocal c = true →
  currentRegion (after c db) = currentRegion db
  ∧ (∀ k, k ≠ currentRegion db → regions (after c db) !! k = regions db !! k)
  ∧ (is_Some (theRegion db) ↔ is_Some (theRegion (after c db)))
  ∧ (ledgerOnly c = true →
       technicians (regionOf (after c db)) = technicians (regionOf db)
       ∧ technicianPlates (regionOf (after c db)) = technicianPlates (regionOf db)).
Proof.
  intros Hc.
  destruct (regionLocal_normal_form c db Hc) as [->|(r & r' & Hr & -> & Hl)]; [done|].
  split; [apply currentRegion_putRegion|].
  split; [intros k Hk; by apply regions_putRegion_other|].
  split.
  - rewrite theRegion_putRegion, Hr. split; by eexists.
  - intros Hlo. rewrite regionOf_putRegion, (regionOf_Some db r Hr). by apply Hl.
Qed.

Lemma page_handlers_touch_current_region_only_witness :
  regions (after (SaveDaily noFilter day1 [unallocCard "Bob" 5 "top-up" annEastSupplied])
                 annEastSupplied) !! "East"
  = regions annEastSupplied !! "East".
Proof.
  apply (page_handlers_touch_current_region_only
           (SaveDaily noFilter day1 [unallocCard "Bob" 5 "top-up" annEastSupplied])
           annEastSupplied eq_refl).
  by vm_compute.
Defined.

(** ** The technician list *)

Lemma indexOf_lookup x xs idx : JS.indexOf x xs = Some idx → xs !! idx = Some x.
Proof.
  revert idx. induction xs as [|y ys IH]; intros idx; [done|]. simpl.
  destruct (String.eqb_spec y x) as [->|Hne].
  - by intros [= <-].
  - destruct (JS.indexOf x ys) as [i|]; [|done]. simpl. intros [= <-]. by apply IH.
Qed.

Lemma techListOk_same r r' :
  technicians r' = technicians r → technicianPlates r' = technicianPlates r →
  techListOk r → techListOk r'.
Proof. unfold techListOk. by intros -> ->. Qed.

Lemma techListOk_emptyRegion : techListOk emptyRegion.
Proof. split; simpl; [constructor|]. by rewrite dom_empty_L. Qed.

Lemma techListOk_add r t p :
  techListOk r → t ∉ technicians r → JS.inherited t = false →
  techListOk (set_technicianPlates (JS.assign t p (technicianPlates r))
                (set_technicians (technicians r ++ [t])%list r)).
Proof.
  intros [Hnd Hset] Ht Hplain. rewrite (assign_plain t p _ Hplain). split; simpl.
  - apply NoDup_app. split; [done|]. split; [|apply NoDup_singleton].
    intros x Hx Hx'. apply list_elem_of_singleton in Hx'. by subst.
  - rewrite list_to_set_app_L, dom_insert_L, Hset. simpl.
    rewrite union_empty_r_L. apply (comm_L (∪)).
Qed.

Lemma techListOk_delete r t os log :
  techListOk r →
  techListOk (mkRegion (filter (λ x, negb (String.eqb x t)) (technicians r))
                (delete t (technicianPlates r)) os log).
Proof.
  intros [Hnd Hset]. split; simpl.
  - by apply NoDup_filter.
  - rewrite dom_delete_L, <- Hset. apply set_eq. intros x.
    rewrite elem_of_list_to_set, list_elem_of_filter, elem_of_difference,
      elem_of_list_to_set, elem_of_singleton.
    destruct (String.eqb_spec x t); simpl; intuition congruence.
Qed.

Lemma techListOk_rename oldName newName r :
  oldName ≠ newName → JS.inherited newName = false →
  techListOk r → (oldName ∈ technicians r → newName ∉ technicians r) →
  techListOk (renameInRegion oldName newName r).
Proof.
  intros Hne Hplain [Hnd Hset] Hfresh. unfold renameInRegion.
  destruct (JS.indexOf oldName (technicians r)) as [idx|] eqn:Hidx; [|done].
  apply indexOf_lookup in Hidx.
  assert (oldName ∈ technicians r) as Hin by (by eapply list_elem_of_lookup_2).
  specialize (Hfresh Hin).
  assert (is_Some (technicianPlates r !! oldName)) as [v Hv].
  { apply elem_of_dom. rewrite <- Hset. by apply elem_of_list_to_set. }
  pose proof (take_drop_middle _ _ _ Hidx) as Hsplit.
  assert (idx < length (technicians r))%nat as Hlt by (by eapply lookup_lt_Some).
  split; simpl.
  - rewrite insert_take_drop by done.
    rewrite <- Hsplit in Hnd, Hfresh.
    apply NoDup_app in Hnd as (Hnd1 & Hdis & Hnd2). apply NoDup_cons in Hnd2 as [Hold Hnd2].
    apply NoDup_app. split; [done|]. split.
    + intros x Hx Hx'. apply elem_of_cons in Hx' as [->|Hx'].
      * apply Hfresh. apply elem_of_app. by left.
      * apply (Hdis x Hx). by right.
    + apply NoDup_cons. split; [|done].
      intros Hx. apply Hfresh. apply elem_of_app. right. by right.
  - unfold moveKey. rewrite Hv, (assign_plain newName v _ Hplain).
    rewrite dom_delete_L, dom_insert_L, <- Hset.
    rewrite insert_take_drop by done.
    rewrite <- Hsplit at 3. rewrite <- Hsplit in Hnd.
    apply NoDup_app in Hnd as (Hnd1 & Hdis & Hnd2). apply NoDup_cons in Hnd2 as [Hold Hnd2].
    rewrite !list_to_set_app_L, !list_to_set_cons.
    assert (oldName ∉ take idx (technicians r)) as Hold1.
    { intros Hx. apply (Hdis _ Hx). by left. }
    apply set_eq. intros x.
    rewrite elem_of_difference, !elem_of_union, !elem_of_singleton, !elem_of_list_to_set.
    destruct (decide (x = oldName)) as [->|Hx]; intuition congruence.
Qed.

Lemma techInv_putRegion db r : techInv db → techListOk r → techInv (putRegion r db).
Proof. intros H Hr. unfold techInv, putRegion. simpl. by apply map_Forall_insert_2. Qed.

(** X10. Within the scope of the embedding, every command keeps the
    technician lists free of duplicates and the plates recorded for exactly
    the listed technicians, except a rename onto a name that is already
    listed in the same region and a restore of a file that is not in order
    itself.  (The scope matters: a technician typed as [__proto__] is
    listed, but the assignment of the plate is ignored.) *)
Theorem technician_lists_stay_in_order c db :
  inScope c db →
  techInv db →
  (∀ oldName input, c = ConfirmRename (Some (RenameTech oldName)) input →
     ∀ k r, regions db !! k = Some r → oldName ∈ technicians r →
            JS.trim input ∉ technicians r) →
  (∀ ok parsed rs, c = RestoreData ok parsed → cand_regions parsed = Some rs →
     map_Forall (λ _ r, techListOk r) rs) →
  techInv (after c db).
Proof.
  intros (_ & [Hnames _] & _ & _) Hinv Hren Hres.
  destruct (regionLocal c) eqn:Hloc.
  - destruct (ledgerOnly c) eqn:Hled.
    + destruct (regionLocal_normal_form c db Hloc) as [->|(r & r' & Hr & -> & Hl)]; [done|].
      destruct (Hl Hled) as [Ht Hp].
      apply techInv_putRegion; [done|]. apply (techListOk_same r); [done|done|].
      exact (Hinv _ _ Hr).
    + destruct c; try discriminate; unfold after; simpl.
      * unfold addTechnician, withRegion.
        destruct (theRegion db) as [r|] eqn:Hr; [|done].
        destruct (_ || _); [done|]. case_bool_decide as Hin; [done|]. cbn [snd].
        apply techInv_putRegion; [done|]. apply techListOk_add; [exact (Hinv _ _ Hr)|done|].
        simpl in Hnames. by apply Forall_cons in Hnames as [? _].
      * unfold deleteTech, withRegion.
        destruct (theRegion db) as [r|] eqn:Hr; [|done].
        destruct confirmed; [|done]. cbn [negb snd].
        apply techInv_putRegion; [done|]. apply techListOk_delete. exact (Hinv _ _ Hr).
  - destruct c; try discriminate; unfold after; simpl.
    + unfold changeRegion. by rewrite populateRegions_snd.
    + unfold addRegion. destruct (_ || _); [done|]. rewrite populateRegions_snd. simpl.
      apply map_Forall_insert_2; [apply techListOk_emptyRegion|done].
    + unfold deleteRegion. case_bool_decide; [done|].
      destruct (regions db !! rName); [|done]. destruct confirmed; [|done].
      cbn [negb]. rewrite populateRegions_snd. by apply map_Forall_delete.
    + unfold confirmRename. destruct ctx as [[old|old]|]; [| |done].
      * destruct (negb _); [done|]. unfold _renameRegion.
        destruct (String.eqb _ old); [done|]. destruct (JS.has _ _); [done|].
        destruct (regions db !! old) as [r|] eqn:Hold; [|done]. rewrite populateRegions_snd.
        apply map_Forall_delete, map_Forall_insert_2; [|done].
        exact (Hinv _ _ Hold).
      * destruct (negb _); [done|]. unfold _renameTech.
        destruct (String.eqb_spec (JS.trim renameInput) old) as [|Hne]; [done|].
        rewrite populateRegions_snd.
        apply map_Forall_fmap. intros k r Hk. simpl.
        apply techListOk_rename; [congruence| |exact (Hinv k r Hk)|].
        -- simpl in Hnames. by apply Forall_cons in Hnames as [? _].
        -- by apply (Hren old renameInput eq_refl k r Hk).
    + unfold restoreData.
      destruct (cand_regions parsed) as [rs|] eqn:Hrs; [|done].
      destruct (cand_currentRegion parsed) as [cur|]; [|done].
      destruct (negb _); [done|]. destruct confirmed; [|done]. simpl.
      unfold replaceDB. case_match; simpl; by apply (Hres true parsed rs).
Qed.

Lemma technician_lists_stay_in_order_witness :
  technicians (regionOf annEastSupplied) = ["Ann"; "Bob"]
  ∧ technicians (regionOf (after (ConfirmRename (Some (RenameTech "Ann")) " Anna ")
                                 annEastSupplied)) = ["Anna"; "Bob"]
  ∧ techInv (after (ConfirmRename (Some (RenameTech "Ann")) " Anna ") annEastSupplied).
Proof.
  split; [by vm_compute|]. split; [by vm_compute|].
  apply (technician_lists_stay_in_order
           (ConfirmRename (Some (RenameTech "Ann")) " Anna ") annEastSupplied).
  - by apply (bool_decide_unpack _); vm_compute.
  - by apply (bool_decide_unpack _); vm_compute.
  - intros oldName input [= <- <-].
    change (map_Forall (λ _ r, "Ann" ∈ technicians r → JS.trim " Anna " ∉ technicians r)
              (regions annEastSupplied)).
    apply (bool_decide_unpack _). by vm_compute.
  - intros ok parsed rs [=].
Defined.

(** A technician typed as [__proto__] is listed without a plate. *)
Lemma proto_technician_has_no_plate :
  let db := after (AddTechnician "__proto__" "KAA 009") DB_DEFAULT in
  technicians (regionOf db) = ["__proto__"] ∧ technicianPlates (regionOf db) = ∅
  ∧ techInv DB_DEFAULT ∧ ¬ techInv db.
Proof.
  split; [by vm_compute|]. split; [by vm_compute|].
  split; [by apply (bool_decide_unpack _); vm_compute|].
  by apply (bool_decide_eq_false_1 _); vm_compute.
Qed.

(** X11. Renaming a technician onto a name that the same region already lists
    leaves the name twice in the list. *)
Theorem rename_onto_listed_name_duplicates oldName newName db k r :
  oldName ≠ newName →
  regions db !! k = Some r →
  oldName ∈ technicians r → newName ∈ technicians r →
  ∃ r', regions (_renameTech oldName newName db).2 !! k = Some r'
        ∧ ¬ NoDup (technicians r').
Proof.
  intros Hne Hk Hold Hnew. unfold _renameTech.
  destruct (String.eqb_spec newName oldName) as [|_]; [congruence|].
  rewrite populateRegions_snd. simpl.
  rewrite lookup_fmap, Hk. simpl. eexists. split; [done|].
  unfold renameInRegion.
  destruct (JS.indexOf oldName (technicians r)) as [idx|] eqn:Hidx;
    [|by apply indexOf_None in Hidx].
  apply indexOf_lookup in Hidx. simpl.
  apply list_elem_of_lookup in Hnew as [j Hj].
  assert (j ≠ idx) as Hji by (intros ->; congruence).
  intros Hnd.
  assert (idx < length (technicians r))%nat as Hlt by (by eapply lookup_lt_Some).
  apply Hji. eapply (NoDup_lookup _ j idx newName Hnd).
  - by rewrite list_lookup_insert_ne.
  - by apply list_lookup_insert_eq.
Qed.

Lemma rename_onto_listed_name_duplicates_witness :
  ∃ r', regions (_renameTech "Ann" "Bob" bothSupplied).2 !! "New CCS" = Some r'
        ∧ ¬ NoDup (technicians r').
Proof.
  apply (rename_onto_listed_name_duplicates "Ann" "Bob" bothSupplied "New CCS"
           (regionOf bothSupplied)).
  - discriminate.
  - by vm_compute.
  - apply (bool_decide_unpack _). by vm_compute.
  - apply (bool_decide_unpack _). by vm_compute.
Defined.

(** ** Deleting and editing entries in a ledger in order *)

Lemma updateReferenced_hit f entry r no o :
  unallocated entry = false → entryOrderNo entry = Some no → no ≠ "" →
  orders r !! no = Some o →
  updateReferenced f entry r !! no = Some (f o).
Proof.
  intros Hu Hk Hne Ho. unfold updateReferenced, orderNoTruthy.
  rewrite Hu, Hk, (truthy_str_true no Hne), Ho. simpl. apply lookup_insert_eq.
Qed.

Lemma orderOf_renderOrdersIfActive no ui db :
  ∃ g : Order → Order,
    orderOf no (renderOrdersIfActive ui db) = g <$> orderOf no db
    ∧ ∀ o, suppliedTotal (g o) = suppliedTotal o ∧ totalLiters (g o) = totalLiters o.
Proof.
  unfold renderOrdersIfActive. destruct (pageOrdersActive ui).
  - exists (cardIfShown ui). split; [apply orderOf_renderOrders|].
    intros o. split; [apply suppliedTotal_cardIfShown|].
    unfold cardIfShown, _buildOrderCard_status. by repeat case_match.
  - exists id. split; [by rewrite option_fmap_id|done].
Qed.

(** X12. For whole litres whose magnitudes add up to less than [2^53]: in
    a ledger in order the clamp at zero never bites: deleting an entry
    takes exactly its litres off the supplied total of its order, editing
    it moves the total by exactly the difference, and the order is then
    CLOSED exactly when the new total reaches the order total. *)
Theorem entry_changes_move_supplied_total_exactly ui date idx v c db r entries entry no o :
  exactStore db →
  ledgerInv db →
  theRegion db = Some r →
  dailyLog r !! date = Some entries → entries !! idx = Some entry →
  entryOrderNo entry = Some no → orders r !! no = Some o →
  let closedAt (z : Z) := if bool_decide (totalLiters o ≤ z) then CLOSED else OPEN in
  let seen (o' : Order) := (suppliedTotal o', status o', totalLiters o') in
  (seen <$> orderOf no (after (DeleteDailyEntry ui true date idx) db))
    = Some (suppliedTotal o - supplied entry, closedAt (suppliedTotal o - supplied entry),
            totalLiters o)
  ∧ (0 < v → exact (SaveEditEntry ui (Some (date, idx)) v c) db →
     (seen <$> orderOf no (after (SaveEditEntry ui (Some (date, idx)) v c) db))
       = Some (suppliedTotal o - supplied entry + v,
               closedAt (suppliedTotal o - supplied entry + v), totalLiters o)).
Proof.
  intros _ Hinv Hr Hd He Hk Ho closedAt seen.
  pose proof (ledgerInv_current db r Hinv Hr) as Hok.
  pose proof (proj2 Hok date entries Hd) as Hall. rewrite Forall_lookup in Hall.
  pose proof (Hall idx entry He) as [Hpos Hentry].
  assert (unallocated entry = false ∧ no ≠ "") as [Hu Hne].
  { destruct (unallocated entry); [destruct Hentry; congruence|].
    rewrite Hk in Hentry. by destruct Hentry. }
  assert (supplied entry ≤ suppliedTotal o) as Hclamp.
  { destruct (proj1 Hok no o Ho) as (_&_&_&H4&_). rewrite H4, loggedFor_logSum.
    pose proof (logSum_ge_entry no (dailyLog r) date entries idx entry
                  (regionOk_positive r Hok) Hd He) as Hge.
    by rewrite (litresFor_same no entry Hk) in Hge. }
  assert (∀ c' o', ledgerInv (after c' db) → orderOf no (after c' db) = Some o' →
                   ∀ z, suppliedTotal o' = z → totalLiters o' = totalLiters o →
                        seen <$> orderOf no (after c' db) = Some (z, closedAt z, totalLiters o)) as Hfin.
  { intros c' o' Hinv' Ho' z Hz Ht. rewrite Ho'. simpl. unfold seen, closedAt.
    assert (is_Some (theRegion (after c' db))) as [r' Hr'].
    { unfold orderOf, regionOf in Ho'. destruct (theRegion (after c' db)); [by eexists|done]. }
    unfold orderOf in Ho'. rewrite (regionOf_Some _ _ Hr') in Ho'.
    destruct (proj1 (ledgerInv_current _ r' Hinv' Hr') no o' Ho') as (_&_&H3&_).
    rewrite H3. unfold statusOf. by rewrite Hz, Ht. }
  split.
  - set (cmd := DeleteDailyEntry ui true date idx).
    assert (ledgerInv (after cmd db)) as Hinv' by (by apply ledgerInv_step).
    assert (∃ g : Order → Order, orderOf no (after cmd db) = Some (g (applyDelete entry o))
              ∧ ∀ x, suppliedTotal (g x) = suppliedTotal x ∧ totalLiters (g x) = totalLiters x)
      as (g & Hlk & Hg).
    { unfold cmd, after. simpl. unfold deleteDailyEntry, withRegion.
      rewrite Hr, Hd, He. cbn [negb snd].
      match goal with |- context [renderOrdersIfActive ui ?x] =>
        destruct (orderOf_renderOrdersIfActive no ui x) as (g & -> & Hg) end.
      exists g. split; [|done]. rewrite orderOf_putRegion. simpl.
      by rewrite (updateReferenced_hit _ entry r no o). }
    apply (Hfin cmd _ Hinv' Hlk).
    + rewrite (proj1 (Hg _)), suppliedTotal_applyDelete. lia.
    + rewrite (proj2 (Hg _)). apply applyDelete_static.
  - intros Hv _. set (cmd := SaveEditEntry ui (Some (date, idx)) v c).
    assert (ledgerInv (after cmd db)) as Hinv' by (by apply ledgerInv_step).
    assert (∃ g : Order → Order,
              orderOf no (after cmd db) = Some (g (applyEdit (v - supplied entry) o))
              ∧ ∀ x, suppliedTotal (g x) = suppliedTotal x ∧ totalLiters (g x) = totalLiters x)
      as (g & Hlk & Hg).
    { unfold cmd, after. simpl. unfold saveEditEntry, withRegion.
      rewrite Hr, Hd, He, Hu.
      assert (negb (JS.truthy_num v) || (v <=? 0) = false) as ->.
      { apply orb_false_iff. split; [|by apply Z.leb_gt].
        unfold JS.truthy_num. rewrite negb_involutive. apply Z.eqb_neq. lia. }
      cbn [andb snd].
      match goal with |- context [renderOrdersIfActive ui ?x] =>
        destruct (orderOf_renderOrdersIfActive no ui x) as (g & -> & Hg) end.
      exists g. split; [|done]. rewrite orderOf_putRegion. simpl.
      by rewrite (updateReferenced_hit _ entry r no o). }
    apply (Hfin cmd _ Hinv' Hlk).
    + rewrite (proj1 (Hg _)), suppliedTotal_applyEdit. lia.
    + rewrite (proj2 (Hg _)). apply applyEdit_static.
Qed.

Lemma entry_changes_move_supplied_total_exactly_witness :
  ((λ o', (suppliedTotal o', status o', totalLiters o'))
     <$> orderOf "O1" (after (DeleteDailyEntry noFilter true day1 0%nat) annSupplied60))
  = Some (0, OPEN, 100).
Proof.
  refine (proj1 (entry_changes_move_supplied_total_exactly noFilter day1 0%nat 1 "" annSupplied60
            (regionOf annSupplied60) [mkEntry (Some "O1") "Ann" 60 None false]
            (mkEntry (Some "O1") "Ann" 60 None false) "O1"
            (mkOrder "O1" "KBB 002" 100 60 {["Ann" := 60]} OPEN day1 None) _ _ _ _ _ _ _)).
  - by apply (bool_decide_unpack _); vm_compute.
  - by apply (bool_decide_unpack _); vm_compute.
  - by vm_compute.
  - by vm_compute.
  - by vm_compute.
  - by vm_compute.
  - by vm_compute.
Defined.

(** ** Orders: deletion, creation and display *)

(** X13. [deleteOrder] takes the order and every entry logged against it out of
    the current region: nothing is left on the account of that number, and
    the accounts of the other numbers are as before. *)
Theorem deleteOrder_removes_order_and_entries ui no db r :
  theRegion db = Some r → is_Some (orders r !! no) →
  let db' := after (DeleteOrder ui true no) db in
  orderOf no db' = None
  ∧ (∀ e, e ∈ flatLog (regionOf db') → entryOrderNo e ≠ Some no)
  ∧ loggedFor no (regionOf db') = 0
  ∧ (∀ no', no' ≠ no →
       loggedFor no' (regionOf db') = loggedFor no' r
       ∧ orderOf no' db' = cardIfShown ui <$> orders r !! no').
Proof.
  intros Hr [o Ho] db'.
  assert (db' = renderOrders ui
            (putRegion (set_dailyLog ((λ es, filter (λ e, negb (refersTo no e)) es) <$> dailyLog r)
                          (set_orders (delete no (orders r)) r)) db)) as Hdb'.
  { unfold db', after. simpl. unfold deleteOrder, withRegion. by rewrite Hr, Ho. }
  assert (dailyLog (regionOf db')
          = (λ es, filter (λ e, negb (refersTo no e)) es) <$> dailyLog r) as Hlog.
  { by rewrite Hdb', renderOrders_dailyLog, regionOf_putRegion. }
  assert (∀ e, e ∈ flatLog (regionOf db') → entryOrderNo e ≠ Some no) as Hnone.
  { intros e He. apply flatLog_elem in He as (d & es & Hd & He).
    rewrite Hlog, lookup_fmap in Hd.
    destruct (dailyLog r !! d) as [es0|]; [|done]. injection Hd as <-.
    apply list_elem_of_filter in He as [Href _].
    unfold refersTo in Href. intros Hk. by rewrite bool_decide_eq_true_2 in Href. }
  split; [|split; [done|split]].
  - rewrite Hdb', orderOf_renderOrders, orderOf_putRegion. simpl. by rewrite lookup_delete_eq.
  - unfold loggedFor.
    replace (filter (λ e, refersTo no e) (flatLog (regionOf db'))) with (@nil Entry); [done|].
    symmetry. apply elem_of_nil_inv. intros e He.
    apply list_elem_of_filter in He as [Href He].
    apply (Hnone e He). unfold refersTo in Href.
    apply Is_true_true in Href. by apply bool_decide_eq_true in Href.
  - intros no' Hne. split.
    + rewrite !loggedFor_logSum, Hlog. apply logSum_fmap. intros es. by apply loggedIn_without.
    + rewrite Hdb', orderOf_renderOrders, orderOf_putRegion. simpl.
      by rewrite lookup_delete_ne.
Qed.

Lemma deleteOrder_removes_order_and_entries_witness :
  loggedFor "O1" (regionOf (after (DeleteOrder noFilter true "O1") staleCardSaved)) = 0.
Proof.
  refine (proj1 (proj2 (proj2 (deleteOrder_removes_order_and_entries noFilter "O1"
            staleCardSaved (regionOf staleCardSaved) _ _)))).
  - by vm_compute.
  - eexists. by vm_compute.
Defined.

Lemma cardIfShown_id_map ui (os : gmap string Order) :
  map_Forall (λ _ o, status o = statusOf o) os → cardIfShown ui <$> os = os.
Proof.
  intros H. apply map_eq. intros k. rewrite lookup_fmap.
  destruct (os !! k) as [o|] eqn:E; [|done]. simpl. by rewrite (cardIfShown_fixed ui o (H k o E)).
Qed.

Lemma no_entry_refers r no :
  regionOk r → orders r !! no = None →
  (λ es, filter (λ e, negb (refersTo no e)) es) <$> dailyLog r = dailyLog r.
Proof.
  intros Hok Hno. apply map_eq. intros d. rewrite lookup_fmap.
  destruct (dailyLog r !! d) as [es|] eqn:Hd; [|done]. simpl. f_equal.
  apply filter_all. intros e He.
  pose proof (proj2 Hok d es Hd) as Hall. rewrite Forall_forall in Hall.
  destruct (Hall e He) as [_ Hentry]. unfold refersTo.
  apply negb_true_iff, bool_decide_eq_false_2. intros Hk. rewrite Hk in Hentry.
  destruct (unallocated e); [by destruct Hentry|].
  destruct Hentry as [_ [o Ho]]. congruence.
Qed.

(** X14. Creating an order under a fresh number and deleting it again gives the
    store back, when the ledger is in order.  The number must not be a name
    that [Object.prototype] defines: such a number is refused as a
    duplicate. *)
Theorem createOrder_then_deleteOrder ui ui' today input plate total date db :
  ledgerInv db → is_Some (theRegion db) →
  JS.trim input ≠ "" → orderOf (JS.trim input) db = None →
  (JS.inherited (JS.trim input) = false →
     (exec (CreateOrder ui today input plate total date) db).1 = Done
     ∧ after (DeleteOrder ui' true (JS.trim input))
         (after (CreateOrder ui today input plate total date) db) = db)
  ∧ (JS.inherited (JS.trim input) = true →
     exec (CreateOrder ui today input plate total date) db
     = (Alerted InvalidOrDuplicateOrder, db)).
Proof.
  intros Hinv [r Hr] Hne Hfresh.
  split; [intros Hplain|].
  2: { intros Hin. unfold exec, createOrder, withRegion. rewrite Hr.
       unfold JS.has. by rewrite Hin, orb_true_r, orb_true_r. }
  pose proof (ledgerInv_current db r Hinv Hr) as Hok.
  unfold orderOf in Hfresh. rewrite (regionOf_Some db r Hr) in Hfresh.
  assert (map_Forall (λ _ o, status o = statusOf o) (orders r)) as Hst.
  { intros k o Ho. by destruct (proj1 Hok k o Ho) as (_&_&?&_). }
  unfold after at 2. unfold exec at 1 2. unfold createOrder, withRegion. rewrite Hr.
  rewrite (truthy_str_true _ Hne), (has_fresh _ _ Hfresh Hplain).
  cbn [negb orb fst snd]. split; [done|].
  rewrite renderOrders_putRegion. cbn [orders set_orders].
  unfold after. simpl. unfold deleteOrder, withRegion.
  rewrite theRegion_putRegion. cbn [orders set_orders].
  rewrite lookup_fmap, lookup_insert_eq. cbn [fmap option_fmap option_map negb snd].
  rewrite renderOrders_putRegion. cbn [orders dailyLog set_orders set_dailyLog].
  assert (∀ X Y, putRegion X (putRegion Y db) = putRegion X db) as Htwice.
  { intros X Y. unfold putRegion, set_regions. simpl. by rewrite insert_insert_eq. }
  rewrite Htwice. rewrite <- (putRegion_same db r Hr) at 2. f_equal.
  rewrite fmap_insert, delete_insert_eq.
  rewrite (delete_id (cardIfShown ui <$> orders r)) by (by rewrite lookup_fmap, Hfresh).
  rewrite (cardIfShown_id_map ui _ Hst), (cardIfShown_id_map ui' _ Hst).
  rewrite (no_entry_refers r _ Hok Hfresh).
  by destruct r.
Qed.

Lemma createOrder_then_deleteOrder_witness :
  after (DeleteOrder noFilter true "O9")
    (after (CreateOrder noFilter day1 " O9 " "KBB 009" 40 "") annSupplied60)
  = annSupplied60
  ∧ exec (CreateOrder noFilter day1 "constructor" "KBB 009" 40 "") annSupplied60
    = (Alerted InvalidOrDuplicateOrder, annSupplied60).
Proof.
  split.
  - refine (proj2 (proj1 (createOrder_then_deleteOrder noFilter noFilter day1 " O9 " "KBB 009"
                            40 "" annSupplied60 _ _ _ _) _)).
    + by apply (bool_decide_unpack _); vm_compute.
    + eexists. by vm_compute.
    + by vm_compute.
    + by vm_compute.
    + by vm_compute.
  - refine (proj2 (createOrder_then_deleteOrder noFilter noFilter day1 "constructor" "KBB 009"
                     40 "" annSupplied60 _ _ _ _) _).
    + by apply (bool_decide_unpack _); vm_compute.
    + eexists. by vm_compute.
    + by vm_compute.
    + by vm_compute.
    + by vm_compute.
Defined.

Lemma cardIfShown_idem ui o : cardIfShown ui (cardIfShown ui o) = cardIfShown ui o.
Proof.
  rewrite !cardIfShown_spec.
  destruct (passesFilter ui o) eqn:Hp, (bool_decide (totalLiters o ≤ suppliedTotal o)) eqn:Hb;
    simpl; rewrite ?Hp, ?Hb; simpl; try done.
  assert (passesFilter ui (set_status CLOSED o) = passesFilter ui o) as -> by done.
  by rewrite Hp.
Qed.

(** X15. Displaying the orders twice is the same as displaying them once; a
    display never reopens an order, and without a filter it leaves every
    order of the current region whose total is used up CLOSED. *)
Theorem renderOrders_closes_and_is_idempotent ui db :
  renderOrders ui (renderOrders ui db) = renderOrders ui db
  ∧ (∀ no o, orderOf no db = Some o → status o = CLOSED →
             status <$> orderOf no (renderOrders ui db) = Some CLOSED)
  ∧ (∀ no o', orderOf no (renderOrders noFilter db) = Some o' →
              totalLiters o' ≤ suppliedTotal o' → status o' = CLOSED).
Proof.
  split; [|split].
  - unfold renderOrders at 2 3. destruct (theRegion db) as [r|] eqn:Hr.
    + rewrite renderOrders_putRegion. f_equal. destruct r as [ts ps os log]. simpl.
      unfold set_orders. simpl. f_equal.
      rewrite <- map_fmap_compose. apply map_fmap_ext. intros k o _. apply cardIfShown_idem.
    + unfold renderOrders. by rewrite Hr.
  - intros no o Ho Hc. rewrite orderOf_renderOrders, Ho. simpl.
    rewrite cardIfShown_spec. case_match; simpl; [done|by rewrite Hc].
  - intros no o' Ho' Hle. rewrite orderOf_renderOrders in Ho'.
    destruct (orderOf no db) as [o|]; [|done]. injection Ho' as <-.
    rewrite cardIfShown_spec in *.
    assert (passesFilter noFilter o = true) as Hp by done. rewrite Hp in *. simpl in *.
    case_bool_decide as Hb; [done|]. simpl in Hle. lia.
Qed.

(** ** The log and the figures computed from it *)

Lemma keepsLog_normal_form c db :
  keepsLog c = true →
  regions (after c db) = regions db
  ∨ ∃ r r', theRegion db = Some r ∧ after c db = putRegion r' db ∧ dailyLog r' = dailyLog r.
Proof.
  intros Hc. unfold after.
  destruct c; try discriminate Hc; simpl;
    try (unfold createOrder, allocateFuel, saveOrderDate, saveAllocEdit,
           saveOverageComment, confirmClone, addTechnician, deleteTech, withRegion;
         repeat (case_match; try (by left));
         right; eexists _, _; (split; [reflexivity|]);
         cbn [snd]; rewrite ?renderOrders_putRegion; (split; [reflexivity|]); done).
  - unfold renderOrders. destruct (theRegion db) as [r|] eqn:Hr; [|by left].
    right. by eexists _, _.
  - left. unfold changeRegion. by rewrite populateRegions_snd.
Qed.

Lemma storeEntries_by_log db :
  storeEntries db
  = map_to_list (dailyLog <$> regions db)
      ≫= λ x, (λ de, (x.1, de.1, de.2)) <$> ('(date, es) ← map_to_list x.2; (λ e, (date, e)) <$> es).
Proof.
  unfold storeEntries. rewrite map_to_list_fmap, list_fmap_bind.
  induction (map_to_list (regions db)) as [|[rn r] l IH]; [done|].
  rewrite !bind_cons, IH. done.
Qed.

Lemma storeEntries_same_logs db db' :
  (∀ k, dailyLog <$> regions db' !! k = dailyLog <$> regions db !! k) →
  storeEntries db' = storeEntries db.
Proof.
  intros H. rewrite !storeEntries_by_log.
  replace (dailyLog <$> regions db') with (dailyLog <$> regions db); [done|].
  apply map_eq. intros k. by rewrite !lookup_fmap, H.
Qed.

(** X16. Only the handlers of the daily log, [deleteOrder], the renames, the
    region handlers and a restore write to a log: every other handler
    leaves the log of every region as it is, and with it the leaderboard
    and the history shown for any technician. *)
Theorem log_kept_by_other_handlers c db :
  keepsLog c = true →
  (∀ k, dailyLog <$> regions (after c db) !! k = dailyLog <$> regions db !! k)
  ∧ storeEntries (after c db) = storeEntries db
  ∧ (∀ regionFilter cutoff,
       leaderboardTotals regionFilter cutoff (after c db) = leaderboardTotals regionFilter cutoff db)
  ∧ (∀ techName, techHistory techName (after c db) = techHistory techName db).
Proof.
  intros Hc.
  assert (∀ k, dailyLog <$> regions (after c db) !! k = dailyLog <$> regions db !! k) as Hlogs.
  { destruct (keepsLog_normal_form c db Hc) as [->|(r & r' & Hr & -> & Hlog)]; [done|].
    intros k. rewrite regions_putRegion_lookup. case_decide as E; [|done].
    subst k. unfold theRegion in Hr. rewrite Hr. simpl. by rewrite Hlog. }
  pose proof (storeEntries_same_logs db (after c db) Hlogs) as Hse.
  split; [done|]. split; [done|]. split.
  - intros rf cutoff. unfold leaderboardTotals. by rewrite Hse.
  - intros t. unfold techHistory. by rewrite Hse.
Qed.

Lemma log_kept_by_other_handlers_witness :
  techHistory "Ann" (after (DeleteTech true "Ann") annSupplied60) = techHistory "Ann" annSupplied60.
Proof.
  apply (log_kept_by_other_handlers (DeleteTech true "Ann") annSupplied60 eq_refl).
Defined.

Lemma leaderboardStep_other rf cu totals rn date e t :
  technician e ≠ t → leaderboardStep rf cu totals (rn, date, e) !! t = totals !! t.
Proof.
  intros Hne. unfold leaderboardStep.
  repeat case_match; try done; by rewrite lookup_insert_ne.
Qed.

Lemma leaderboardStep_skip rf cu totals rn date e :
  inLeaderboard rf cu (rn, date, e) = false → leaderboardStep rf cu totals (rn, date, e) = totals.
Proof.
  unfold inLeaderboard, leaderboardStep. simpl. intros H.
  destruct (JS.truthy_str rf && negb (String.eqb rn rf)); [done|].
  destruct (match cu with Some c => String.ltb date c | None => false end); [done|].
  done.
Qed.

Lemma leaderboardStep_hit rf cu totals rn date e :
  inLeaderboard rf cu (rn, date, e) = true →
  leaderboardStep rf cu totals (rn, date, e) !! technician e
  = match totals !! technician e with
    | Some litres => Some (litres + supplied e)
    | None => if JS.inherited (technician e) then None else Some (supplied e)
    end.
Proof.
  unfold inLeaderboard, leaderboardStep. simpl. intros H.
  destruct (JS.truthy_str rf && negb (String.eqb rn rf)); [done|].
  destruct (match cu with Some c => String.ltb date c | None => false end); [done|].
  unfold JS.has. destruct (totals !! technician e) as [v|] eqn:E.
  - rewrite bool_decide_eq_true_2 by (by eexists). simpl. by rewrite lookup_insert_eq.
  - rewrite bool_decide_eq_false_2 by (by intros [? ?]). simpl.
    destruct (JS.inherited (technician e)); simpl; [done|]. by rewrite lookup_insert_eq.
Qed.

Lemma leaderboard_fold regionFilter cutoff t (l : list (string * string * Entry)) :
  ∀ totals0 : gmap string Z,
  foldl (leaderboardStep regionFilter cutoff) totals0 l !! t
  = match filter (λ x, inLeaderboard regionFilter cutoff x)
            (filter (λ x, String.eqb (technician x.2) t) l) with
    | [] => totals0 !! t
    | l' => match totals0 !! t with
            | Some litres => Some (litres + JS.sum ((λ x, supplied x.2) <$> l'))
            | None => if JS.inherited t then None
                      else Some (JS.sum ((λ x, supplied x.2) <$> l'))
            end
    end.
Proof.
  induction l as [|[[rn date] e] l IH]; intros totals0; [done|].
  cbn [foldl]. rewrite IH. clear IH.
  destruct (String.eqb_spec (technician e) t) as [Ht|Ht].
  - rewrite (filter_cons_True (λ x, String.eqb (technician x.2) t))
      by (simpl; apply Is_true_true; by apply String.eqb_eq).
    destruct (inLeaderboard regionFilter cutoff (rn, date, e)) eqn:Hin.
    + rewrite filter_cons_True by (simpl; rewrite Hin; exact I).
      rewrite <- Ht, (leaderboardStep_hit _ _ _ _ _ _ Hin).
      destruct (filter _ (filter _ l)) as [|y l'];
        destruct (totals0 !! technician e) as [v|];
        destruct (JS.inherited (technician e)); simpl; f_equal; lia.
    + rewrite filter_cons_False by (simpl; rewrite Hin; exact id).
      by rewrite (leaderboardStep_skip _ _ _ _ _ _ Hin).
  - rewrite (filter_cons_False (λ x, String.eqb (technician x.2) t))
      by (simpl; intros H; apply Is_true_true in H; by apply String.eqb_eq in H).
    by rewrite leaderboardStep_other.
Qed.

(** X17. For whole litres whose magnitudes add up to less than [2^53]: the
    litres the leaderboard shows for a technician are the sum of the rows
    of the technician's history that pass the region filter and the cutoff
    date, and a technician without such a row is not on the board; with no
    filter and no cutoff the figure is the total of the history.  A
    technician whose name [Object.prototype] defines is never on the
    board. *)
Theorem leaderboard_agrees_with_history regionFilter cutoff t db :
  exactStore db →
  leaderboardTotals regionFilter cutoff db !! t
  = (if JS.inherited t then None
     else match filter (λ x, inLeaderboard regionFilter cutoff x) (techHistory t db) with
          | [] => None
          | l => Some (JS.sum ((λ x, supplied x.2) <$> l))
          end)
  ∧ leaderboardTotals "" None db !! t
    = if JS.inherited t || bool_decide (techHistory t db = []) then None
      else Some (techHistoryTotal t db).
Proof.
  intros _.
  assert (∀ rf cu, leaderboardTotals rf cu db !! t
          = if JS.inherited t then None
            else match filter (λ x, inLeaderboard rf cu x) (techHistory t db) with
                 | [] => None
                 | l => Some (JS.sum ((λ x, supplied x.2) <$> l))
                 end) as Hgen.
  { intros rf cu. unfold leaderboardTotals, techHistory. rewrite leaderboard_fold.
    rewrite lookup_empty. destruct (filter _ (filter _ _)); by destruct (JS.inherited t). }
  split; [apply Hgen|].
  rewrite Hgen. unfold techHistoryTotal.
  rewrite (filter_all (inLeaderboard "" None)) by done.
  destruct (JS.inherited t); [done|]. simpl.
  destruct (techHistory t db); [done|]. by rewrite bool_decide_eq_false_2.
Qed.

Lemma leaderboard_agrees_with_history_witness :
  leaderboardTotals "" None bothSupplied !! "Ann" = Some 30
  ∧ techHistoryTotal "Ann" bothSupplied = 30.
Proof.
  pose proof (proj2 (leaderboard_agrees_with_history "" None "Ann" bothSupplied
                       ltac:(by apply (bool_decide_unpack _); vm_compute))) as H.
  split; [rewrite H|]; by vm_compute.
Defined.

(** ** Where the litres of the log are shown *)

Lemma sum_split (p : Entry → bool) (l : list Entry) :
  JS.sum (supplied <$> filter (λ e, negb (p e)) l) + JS.sum (supplied <$> filter (λ e, p e) l)
  = JS.sum (supplied <$> l).
Proof.
  induction l as [|e l IH]; [done|].
  destruct (p e) eqn:E.
  - rewrite filter_cons_False by (simpl; rewrite E; exact id).
    rewrite filter_cons_True by (simpl; rewrite E; exact I).
    rewrite !fmap_cons. simpl. simpl in IH. lia.
  - rewrite filter_cons_True by (simpl; rewrite E; exact I).
    rewrite filter_cons_False by (simpl; rewrite E; exact id).
    rewrite !fmap_cons. simpl. simpl in IH. lia.
Qed.

(** X18. For whole litres whose magnitudes add up to less than [2^53]: the
    day total of the stat row of the log view (allocated plus unallocated
    litres) is the day total of its totals row (all litres of the day): the
    two rows show the same three figures.  (With fractions of a litre the
    two day totals are sums of doubles in different groupings and can
    differ in the last place.) *)
Theorem day_figures_add_up (entries : list Entry) :
  logMagnitude entries ≤ MAX_SAFE_INTEGER →
  dayStatRow entries = dayTotalsRow entries
  ∧ allocTotal (dayTotalsRow entries) + unallocTotal (dayTotalsRow entries)
    = dayTotal (dayTotalsRow entries).
Proof.
  intros _.
  assert (allocTotal (dayTotalsRow entries) + unallocTotal (dayTotalsRow entries)
          = dayTotal (dayTotalsRow entries)) as H by apply (sum_split unallocated).
  split; [|done]. unfold dayStatRow, dayTotalsRow in *. simpl in *. by rewrite H.
Qed.

Lemma day_figures_add_up_witness :
  dayStatRow [mkEntry (Some "O1") "Ann" 60 None false; mkEntry None "Bob" 20 (Some "top-up") true]
  = mkDayFigures 60 20 80
  ∧ dayTotalsRow [mkEntry (Some "O1") "Ann" 60 None false;
                  mkEntry None "Bob" 20 (Some "top-up") true]
    = mkDayFigures 60 20 80.
Proof.
  pose proof (proj1 (day_figures_add_up
                       [mkEntry (Some "O1") "Ann" 60 None false;
                        mkEntry None "Bob" 20 (Some "top-up") true]
                       ltac:(by vm_compute))) as H.
  rewrite <- H. split; by vm_compute.
Defined.

Lemma sum_fmap_ext {A} (f g : A → Z) (l : list A) :
  (∀ x, x ∈ l → f x = g x) → JS.sum (f <$> l) = JS.sum (g <$> l).
Proof.
  induction l as [|x l IH]; intros H; [done|].
  rewrite !fmap_cons. simpl. rewrite (H x) by left. rewrite IH; [done|].
  intros y Hy. apply H. by right.
Qed.

Lemma sum_fmap_add {A} (f g : A → Z) (l : list A) :
  JS.sum ((λ x, f x + g x) <$> l) = JS.sum (f <$> l) + JS.sum (g <$> l).
Proof. induction l as [|x l IH]; [done|]. rewrite !fmap_cons. simpl. simpl in IH. lia. Qed.

Lemma filter_ext_in {A} (p q : A → bool) (l : list A) :
  (∀ x, x ∈ l → p x = q x) → filter (λ x, p x) l = filter (λ x, q x) l.
Proof.
  induction l as [|x l IH]; intros H; [done|].
  assert (filter (λ x, p x) l = filter (λ x, q x) l) as IH' by (apply IH; intros y Hy; apply H; by right).
  pose proof (H x ltac:(left)) as Hx.
  destruct (p x) eqn:E.
  - rewrite !filter_cons_True by (simpl; rewrite <- ?Hx, ?E; exact I). by rewrite IH'.
  - rewrite !filter_cons_False by (simpl; rewrite <- ?Hx, ?E; exact id). done.
Qed.

Lemma sum_fmap_opp {A} (f : A → Z) (l : list A) :
  JS.sum ((λ x, - f x) <$> l) = - JS.sum (f <$> l).
Proof. induction l as [|x l IH]; [done|]. rewrite !fmap_cons. simpl. simpl in IH. lia. Qed.

Lemma sum_fmap_zero {A} (l : list A) : JS.sum ((λ _, 0) <$> l) = 0.
Proof. induction l as [|x l IH]; [done|]. rewrite fmap_cons. simpl. simpl in IH. lia. Qed.

(** An entry in order counts on the account of exactly one order of its
    region, or of none when it is unallocated. *)
Lemma litresFor_over_orders r e :
  entryOk r e →
  JS.sum ((λ x, litresFor x.1 e) <$> map_to_list (orders r))
  = if unallocated e then 0 else supplied e.
Proof.
  intros [_ He]. destruct (unallocated e).
  - destruct He as [Hnone _].
    rewrite (sum_fmap_ext _ (λ _, 0)); [apply sum_fmap_zero|].
    intros x _. by apply litresFor_none.
  - destruct (entryOrderNo e) as [k|] eqn:Hk; [|done]. destruct He as [_ [o Ho]].
    rewrite (sum_perm _ ((λ x, litresFor x.1 e) <$> ((k, o) :: map_to_list (delete k (orders r))))).
    + rewrite fmap_cons. simpl. rewrite (litresFor_same k e Hk).
      rewrite (sum_fmap_ext _ (λ _, 0)); [rewrite sum_fmap_zero; lia|].
      intros [k' o'] Hin. apply elem_of_map_to_list, lookup_delete_Some in Hin as [Hne _].
      simpl. apply (litresFor_other k' k e Hk). congruence.
    + apply fmap_Permutation. symmetry. by apply map_to_list_delete.
Qed.

Lemma loggedIn_over_orders r (l : list Entry) :
  Forall (entryOk r) l →
  JS.sum ((λ x, loggedIn x.1 l) <$> map_to_list (orders r))
  = JS.sum (supplied <$> filter (λ e, negb (unallocated e)) l).
Proof.
  induction 1 as [|e l He _ IH].
  - simpl. apply sum_fmap_zero.
  - rewrite (sum_fmap_ext _ (λ x, litresFor x.1 e + loggedIn x.1 l))
      by (intros x _; apply loggedIn_cons).
    rewrite sum_fmap_add, IH, (litresFor_over_orders r e He).
    destruct (unallocated e) eqn:E.
    + rewrite filter_cons_False by (simpl; rewrite E; exact id). lia.
    + rewrite filter_cons_True by (simpl; rewrite E; exact I). by rewrite fmap_cons.
Qed.

Lemma flatLog_entries r : regionOk r → Forall (entryOk r) (flatLog r).
Proof.
  intros [_ Hes]. apply Forall_forall. intros e He.
  apply flatLog_elem in He as (d & es & Hd & He).
  pose proof (Hes d es Hd) as Hall. rewrite Forall_forall in Hall. by apply Hall.
Qed.

Lemma datedEntries_flatLog r : (λ de : string * Entry, de.2) <$> datedEntries r = flatLog r.
Proof.
  unfold datedEntries, flatLog, JS.values.
  induction (map_to_list (dailyLog r)) as [|[d es] l IH]; [done|].
  rewrite bind_cons, fmap_app, IH, fmap_cons. simpl. f_equal.
  rewrite <- list_fmap_compose. by rewrite list_fmap_id.
Qed.

Lemma totalUnalloc_flatLog db r :
  theRegion db = Some r →
  totalUnalloc db = JS.sum (supplied <$> filter (λ e, unallocated e) (flatLog r)).
Proof.
  intros Hr. unfold totalUnalloc, unallocRows. rewrite Hr, <- datedEntries_flatLog.
  induction (datedEntries r) as [|[d e] l IH]; [done|].
  rewrite fmap_cons. simpl. destruct (unallocated e) eqn:E.
  - rewrite !filter_cons_True by (simpl; rewrite E; exact I).
    rewrite !fmap_cons. simpl. simpl in IH. by rewrite IH.
  - rewrite !filter_cons_False by (simpl; rewrite E; exact id). done.
Qed.

(** X19. For whole litres whose magnitudes add up to less than [2^53]: in a
    ledger in order every litre of the log of the current region is shown
    once: the "supplied" figure of the summary strip is the sum of the
    entries logged against orders, the total of the unallocated report is
    the sum of the others, and the two add up to all litres logged.  The
    "open" count is the number of orders with litres left. *)
Theorem every_litre_is_supplied_or_unallocated db r c :
  exactStore db →
  ledgerInv db → theRegion db = Some r → updateOrderCounter db = Some c →
  totalSupplied c = JS.sum (supplied <$> filter (λ e, negb (unallocated e)) (flatLog r))
  ∧ totalSupplied c + totalUnalloc db = JS.sum (supplied <$> flatLog r)
  ∧ totalBalance c = JS.sum ((λ o, totalLiters o - suppliedTotal o) <$> JS.values (orders r))
  ∧ openCount c
    = length (filter (λ o, bool_decide (suppliedTotal o < totalLiters o)) (JS.values (orders r))).
Proof.
  intros _ Hinv Hr Hc. pose proof (ledgerInv_current db r Hinv Hr) as Hok.
  unfold updateOrderCounter in Hc. rewrite Hr in Hc. injection Hc as <-. simpl.
  assert (JS.sum (suppliedTotal <$> JS.values (orders r))
          = JS.sum (supplied <$> filter (λ e, negb (unallocated e)) (flatLog r))) as Hsup.
  { rewrite <- (loggedIn_over_orders r _ (flatLog_entries r Hok)).
    unfold JS.values. rewrite <- list_fmap_compose. apply sum_fmap_ext.
    intros [no o] Hin. apply elem_of_map_to_list in Hin. simpl.
    by destruct (proj1 Hok no o Hin) as (_&_&_&H4&_). }
  split; [done|]. split; [|split].
  - rewrite Hsup, (totalUnalloc_flatLog db r Hr). apply (sum_split unallocated).
  - rewrite (sum_fmap_add totalLiters (λ o, - suppliedTotal o)), sum_fmap_opp. lia.
  - f_equal. apply filter_ext_in. intros o Ho.
    unfold JS.values in Ho. apply list_elem_of_fmap in Ho as ([no o'] & -> & Hin).
    apply elem_of_map_to_list in Hin. simpl.
    destruct (proj1 Hok no o' Hin) as (_&_&H3&_).
    rewrite H3. unfold statusOf.
    destruct (decide (totalLiters o' ≤ suppliedTotal o')) as [Hle|Hgt].
    + rewrite (bool_decide_eq_true_2 _ Hle). simpl. symmetry. apply bool_decide_eq_false_2. lia.
    + rewrite (bool_decide_eq_false_2 _ Hgt). simpl. symmetry. apply bool_decide_eq_true_2. lia.
Qed.

Lemma every_litre_is_supplied_or_unallocated_witness :
  totalSupplied (mkOrderCounter 1 1 100 60 40) + totalUnalloc annSupplied60
  = JS.sum (supplied <$> flatLog (regionOf annSupplied60)).
Proof.
  refine (proj1 (proj2 (every_litre_is_supplied_or_unallocated annSupplied60
            (regionOf annSupplied60) (mkOrderCounter 1 1 100 60 40) _ _ _ _))).
  - by apply (bool_decide_unpack _); vm_compute.
  - by apply (bool_decide_unpack _); vm_compute.
  - by vm_compute.
  - by vm_compute.
Defined.

(** ** Entry cards and the edit dialog *)

Lemma sumWhere_app p es1 es2 : sumWhere p (es1 ++ es2) = sumWhere p es1 + sumWhere p es2.
Proof. unfold sumWhere. by rewrite filter_app, fmap_app, sum_app. Qed.

Lemma sumWhere_cons p e es :
  sumWhere p (e :: es) = (if p e then supplied e else 0) + sumWhere p es.
Proof.
  unfold sumWhere. destruct (p e) eqn:E.
  - rewrite filter_cons_True by (simpl; rewrite E; exact I). done.
  - rewrite filter_cons_False by (simpl; rewrite E; exact id). done.
Qed.

Lemma sumWhere_insert p es idx e e' :
  es !! idx = Some e →
  sumWhere p (<[idx := e']> es)
  = sumWhere p es - (if p e then supplied e else 0) + (if p e' then supplied e' else 0).
Proof.
  intros H. rewrite insert_take_drop by (by eapply lookup_lt_Some).
  rewrite <- (take_drop_middle es idx e H) at 3.
  rewrite !sumWhere_app, !sumWhere_cons. lia.
Qed.

Lemma sumWhere_flatLog p r :
  sumWhere p (flatLog r) = JS.sum ((λ x, sumWhere p x.2) <$> map_to_list (dailyLog r)).
Proof.
  unfold flatLog, JS.values.
  induction (map_to_list (dailyLog r)) as [|[d es] l IH]; [done|].
  rewrite !fmap_cons. simpl.
  change (sumWhere p (es ++ concat l.*2) = sumWhere p es + JS.sum ((λ x, sumWhere p x.2) <$> l)).
  by rewrite sumWhere_app, <- IH.
Qed.

Lemma sumWhere_log_insert p (log : gmap string (list Entry)) d es es' :
  log !! d = Some es →
  JS.sum ((λ x, sumWhere p x.2) <$> map_to_list (<[d := es']> log))
  = JS.sum ((λ x, sumWhere p x.2) <$> map_to_list log) - sumWhere p es + sumWhere p es'.
Proof.
  intros H. rewrite <- insert_delete_eq.
  rewrite (sum_perm _ _ (fmap_Permutation (λ x, sumWhere p x.2) _ _
             (map_to_list_insert (delete d log) d es' (lookup_delete_eq log d)))).
  rewrite <- (sum_perm _ _ (fmap_Permutation (λ x, sumWhere p x.2) _ _
                (map_to_list_delete log d es H))).
  rewrite !fmap_cons. simpl. lia.
Qed.

Lemma suppliedBy_sumWhere no tech r :
  suppliedBy no tech r = sumWhere (suppliedByTest no tech) (flatLog r).
Proof. done. Qed.

Lemma sumWhere_nonneg p es : Forall (λ e, 0 < supplied e) es → 0 ≤ sumWhere p es.
Proof.
  induction 1 as [|e es He _ IH]; [done|].
  rewrite sumWhere_cons. destruct (p e); lia.
Qed.

Lemma suppliedBy_nonneg no t r : regionOk r → 0 ≤ suppliedBy no t r.
Proof.
  intros Hok. rewrite suppliedBy_sumWhere. apply sumWhere_nonneg.
  eapply Forall_impl; [exact (flatLog_entries r Hok)|]. by intros e [? _].
Qed.

(** X20. For whole litres whose magnitudes add up to less than [2^53]: what
    the handlers of an entry card write into its bound (the [max] of the
    litres input), against a region in order.  [techSelected] with exactly
    one OPEN order on which the technician holds an allocation writes the
    smaller of the allocation left (floored at zero) and the balance of the
    order, which lies between zero and the allocation and within the
    balance, and names that order; with no such order it marks the card
    unallocated and removes bound and order; with several it leaves bound
    and order as they were until an order is chosen.
    [orderDropdownChanged] on an order writes the same bound for the
    technician of the card, not negative when the order is OPEN.  Typing
    litres or a comment changes neither bound nor order. *)
Theorem cards_filled_in_order_have_bounds r tech no c0 :
  regionMagnitude r ≤ MAX_SAFE_INTEGER →
  regionOk r →
  let assigned :=
    filter (λ o, bool_decide (status o = OPEN) && hasAllocation tech o) (JS.values (orders r)) in
  let bound (o : Order) (t : string) :=
    Z.min (Z.max 0 (default 0 (allocations o !! t) - suppliedBy (orderNo o) t r))
          (totalLiters o - suppliedTotal o) in
  (tech ≠ "" →
     (∀ o, assigned = [o] →
        let card := techSelected tech c0 r in
        supp_input_max card = Some (bound o tech) ∧ data_order card = Some (orderNo o)
        ∧ data_unallocated card = false
        ∧ 0 ≤ bound o tech ≤ default 0 (allocations o !! tech)
        ∧ bound o tech ≤ totalLiters o - suppliedTotal o)
     ∧ (assigned = [] →
        let card := techSelected tech c0 r in
        supp_input_max card = None ∧ data_order card = None ∧ data_unallocated card = true)
     ∧ ((1 < length assigned)%nat →
        let card := techSelected tech c0 r in
        supp_input_max card = supp_input_max c0 ∧ data_order card = data_order c0
        ∧ data_unallocated card = false))
  ∧ (∀ o, no ≠ "" → orders r !! no = Some o → JS.inherited (tech_sel c0) = false →
       let card := orderDropdownChanged no c0 r in
       supp_input_max card = Some (bound o (tech_sel c0)) ∧ data_order card = Some (orderNo o)
       ∧ (status o = OPEN → 0 ≤ bound o (tech_sel c0)))
  ∧ (∀ v s, supp_input_max (typeLitres v c0) = supp_input_max c0
            ∧ data_order (typeLitres v c0) = data_order c0
            ∧ supp_input_max (typeComment s c0) = supp_input_max c0
            ∧ data_order (typeComment s c0) = data_order c0).
Proof.
  intros _ Hok assigned bound.
  assert (∀ o t, (∃ k, orders r !! k = Some o) → status o = OPEN →
                 0 ≤ bound o t ≤ default 0 (allocations o !! t)
                 ∧ bound o t ≤ totalLiters o - suppliedTotal o) as Hbound.
  { intros o t [k Ho] Hst. unfold bound.
    destruct (proj1 Hok k o Ho) as (_&_&H3&_&_&Hnn). rewrite H3 in Hst. unfold statusOf in Hst.
    case_bool_decide; [done|].
    pose proof (lookup_nonneg (allocations o) t Hnn).
    pose proof (suppliedBy_nonneg (orderNo o) t r Hok). lia. }
  split; [|split].
  - intros Ht. unfold techSelected. rewrite (truthy_str_true _ Ht). cbn [negb]. fold assigned.
    split; [|split].
    + intros o Ho. rewrite Ho. cbn [updateOrderDetails supp_input_max data_order data_unallocated].
      split; [done|]. split; [done|]. split; [done|].
      assert (o ∈ assigned) as Hin by (rewrite Ho; left).
      apply list_elem_of_filter in Hin as [Hp Hin].
      apply andb_prop_elim in Hp as [Hp _]. apply bool_decide_unpack in Hp.
      unfold JS.values in Hin. apply list_elem_of_fmap in Hin as ([k o'] & -> & Hin).
      apply elem_of_map_to_list in Hin.
      destruct (Hbound o' tech) as [? ?]; [by exists k|done|]. done.
    + intros Ho. by rewrite Ho.
    + intros Hlen. destruct assigned as [|o1 [|o2 l]]; simpl in Hlen; [lia|lia|done].
  - intros o Hno Ho _. unfold orderDropdownChanged. rewrite (truthy_str_true _ Hno), Ho.
    cbn [negb updateOrderDetails supp_input_max data_order].
    split; [done|]. split; [done|]. intros Hst.
    destruct (Hbound o (tech_sel c0)) as [? ?]; [by exists no|done|]. lia.
  - intros v s. unfold typeLitres, typeComment. by repeat split.
Qed.

(** Ann holds 60 of the 100 litres of O1 and has supplied nothing yet: the
    card gets the bound 60 and the order O1. *)
Lemma cards_filled_in_order_have_bounds_witness :
  supp_input_max (techSelected "Ann" addDailyEntry (regionOf annHolds60)) = Some 60
  ∧ data_order (techSelected "Ann" addDailyEntry (regionOf annHolds60)) = Some "O1".
Proof.
  pose proof (cards_filled_in_order_have_bounds (regionOf annHolds60) "Ann" "" addDailyEntry
                ltac:(by vm_compute)
                ltac:(by apply (bool_decide_unpack _); vm_compute)) as [H _].
  destruct (H ltac:(done)) as [H1 _].
  destruct (H1 (mkOrder "O1" "KBB 002" 100 0 {["Ann" := 60]} OPEN day1 None)
               ltac:(by vm_compute)) as (Ha & Hb & _).
  split; [rewrite Ha|rewrite Hb]; by vm_compute.
Defined.

(** X21. For whole litres whose magnitudes add up to less than [2^53] and a
    technician whose name [Object.prototype] does not define: the edit
    dialog offers a maximum for an entry logged against an order.  In a
    ledger in order, saving a positive amount within that maximum leaves
    the order within its total and the technician within the allocation on
    that order; the handler itself does not check the maximum. *)
Theorem edit_within_offered_max_stays_within_allocation ui date idx v c db r entries entry no o :
  exact (SaveEditEntry ui (Some (date, idx)) v c) db →
  JS.inherited (technician entry) = false →
  ledgerInv db →
  theRegion db = Some r →
  dailyLog r !! date = Some entries → entries !! idx = Some entry →
  entryOrderNo entry = Some no → orders r !! no = Some o →
  0 < v → v ≤ openEditModal_max entry o r →
  let db' := after (SaveEditEntry ui (Some (date, idx)) v c) db in
  ∃ o', orderOf no db' = Some o'
        ∧ suppliedTotal o' = suppliedTotal o - supplied entry + v
        ∧ suppliedTotal o' ≤ totalLiters o'
        ∧ suppliedBy no (technician entry) (regionOf db')
          = suppliedBy no (technician entry) r - supplied entry + v
        ∧ suppliedBy no (technician entry) (regionOf db')
          ≤ default 0 (allocations o' !! technician entry).
Proof.
  intros _ _ Hinv Hr Hd He Hk Ho Hv Hmax db'.
  pose proof (ledgerInv_current db r Hinv Hr) as Hok.
  pose proof (proj2 Hok date entries Hd) as Hall. rewrite Forall_lookup in Hall.
  pose proof (Hall idx entry He) as [Hpos Hentry].
  assert (unallocated entry = false ∧ no ≠ "") as [Hu Hne].
  { destruct (unallocated entry); [destruct Hentry; congruence|].
    rewrite Hk in Hentry. by destruct Hentry. }
  assert (supplied entry ≤ suppliedTotal o) as Hclamp.
  { destruct (proj1 Hok no o Ho) as (_&_&_&H4&_). rewrite H4, loggedFor_logSum.
    pose proof (logSum_ge_entry no (dailyLog r) date entries idx entry
                  (regionOk_positive r Hok) Hd He) as Hge.
    by rewrite (litresFor_same no entry Hk) in Hge. }
  unfold openEditModal_max in Hmax. rewrite Hk in Hmax.
  assert (∃ g : Order → Order,
            db' = (if pageOrdersActive ui then renderOrders ui else id)
                    (putRegion (set_dailyLog
                                  (<[date := <[idx := editedEntry v (JS.trim c) entry]> entries]>
                                     (dailyLog r))
                                  (set_orders (updateReferenced (applyEdit (v - supplied entry))
                                                 entry r) r)) db)
            ∧ orderOf no db' = Some (g (applyEdit (v - supplied entry) o))
            ∧ ∀ x, suppliedTotal (g x) = suppliedTotal x ∧ totalLiters (g x) = totalLiters x
                   ∧ allocations (g x) = allocations x) as (g & Hdb' & Hlk & Hg).
  { unfold db', after. simpl. unfold saveEditEntry, withRegion.
    rewrite Hr, Hd, He, Hu.
    assert (negb (JS.truthy_num v) || (v <=? 0) = false) as ->.
    { apply orb_false_iff. split; [|by apply Z.leb_gt].
      unfold JS.truthy_num. rewrite negb_involutive. apply Z.eqb_neq. lia. }
    cbn [andb snd]. unfold renderOrdersIfActive.
    destruct (pageOrdersActive ui).
    - exists (cardIfShown ui). split; [done|]. split.
      + rewrite orderOf_renderOrders, orderOf_putRegion. simpl.
        by rewrite (updateReferenced_hit _ entry r no o).
      + intros x. rewrite cardIfShown_spec.
        destruct (passesFilter ui x && bool_decide (totalLiters x ≤ suppliedTotal x));
          by repeat split.
    - exists id. split; [done|]. split; [|done].
      rewrite orderOf_putRegion. simpl. by rewrite (updateReferenced_hit _ entry r no o). }
  assert (dailyLog (regionOf db')
          = <[date := <[idx := editedEntry v (JS.trim c) entry]> entries]> (dailyLog r)) as Hlog.
  { rewrite Hdb'. destruct (pageOrdersActive ui).
    - by rewrite renderOrders_dailyLog, regionOf_putRegion.
    - simpl. by rewrite regionOf_putRegion. }
  assert (suppliedBy no (technician entry) (regionOf db')
          = suppliedBy no (technician entry) r - supplied entry + v) as Hby.
  { rewrite !suppliedBy_sumWhere, !sumWhere_flatLog, Hlog.
    rewrite (sumWhere_log_insert _ _ date entries _ Hd).
    rewrite (sumWhere_insert _ entries idx entry _ He).
    assert (suppliedByTest no (technician entry) entry = true) as ->.
    { unfold suppliedByTest, refersTo. rewrite Hk, bool_decide_eq_true_2 by done.
      by rewrite String.eqb_refl. }
    assert (suppliedByTest no (technician entry) (editedEntry v (JS.trim c) entry) = true) as ->.
    { unfold suppliedByTest, refersTo, editedEntry. rewrite Hu. simpl.
      rewrite Hk, bool_decide_eq_true_2 by done. by rewrite String.eqb_refl. }
    unfold editedEntry. rewrite Hu. simpl. lia. }
  exists (g (applyEdit (v - supplied entry) o)).
  destruct (Hg (applyEdit (v - supplied entry) o)) as (G1 & G2 & G3).
  destruct (applyEdit_static (v - supplied entry) o) as (_ & E2 & E3).
  split; [done|]. rewrite G1, G2, G3, E2, E3, suppliedTotal_applyEdit.
  split; [lia|]. split; [lia|]. split; [done|]. rewrite Hby. lia.
Qed.

Lemma edit_within_offered_max_stays_within_allocation_witness :
  openEditModal_max (mkEntry (Some "O1") "Ann" 60 None false)
    (mkOrder "O1" "KBB 002" 100 60 {["Ann" := 60]} OPEN day1 None) (regionOf annSupplied60) = 60
  ∧ ∃ o', orderOf "O1" (after (SaveEditEntry noFilter (Some (day1, 0%nat)) 45 "") annSupplied60)
          = Some o'
          ∧ suppliedTotal o' = 60 - 60 + 45.
Proof.
  split; [by vm_compute|].
  destruct (edit_within_offered_max_stays_within_allocation noFilter day1 0%nat 45 ""
              annSupplied60 (regionOf annSupplied60)
              [mkEntry (Some "O1") "Ann" 60 None false]
              (mkEntry (Some "O1") "Ann" 60 None false) "O1"
              (mkOrder "O1" "KBB 002" 100 60 {["Ann" := 60]} OPEN day1 None))
    as (o' & H1 & H2 & _).
  - by apply (bool_decide_unpack _); vm_compute.
  - by vm_compute.
  - by apply (bool_decide_unpack _); vm_compute.
  - by vm_compute.
  - by vm_compute.
  - by vm_compute.
  - by vm_compute.
  - by vm_compute.
  - by vm_compute.
  - by vm_compute.
  - exists o'. by split.
Defined.

(** ** Technicians: adding and deleting *)

(** X22. Deleting a technician who has just been added gives the store back,
    when the name was not in use: not listed, without a plate and without
    an allocation in the current region. *)
Theorem addTechnician_then_deleteTech name plate db r :
  theRegion db = Some r →
  JS.trim name ≠ "" → JS.trim plate ≠ "" →
  JS.trim name ∉ technicians r →
  technicianPlates r !! JS.trim name = None →
  (∀ no o, orders r !! no = Some o → allocations o !! JS.trim name = None) →
  (exec (AddTechnician name plate) db).1 = Done
  ∧ after (DeleteTech true (JS.trim name)) (after (AddTechnician name plate) db) = db.
Proof.
  intros Hr Hn Hp Hfresh Hplate Halloc.
  unfold after at 2. unfold exec at 1 2. unfold addTechnician, withRegion. rewrite Hr.
  rewrite (truthy_str_true _ Hn), (truthy_str_true _ Hp).
  rewrite (bool_decide_eq_false_2 _ Hfresh). cbn [negb orb fst snd]. split; [done|].
  unfold after. simpl. unfold deleteTech, withRegion. rewrite theRegion_putRegion.
  cbn [negb snd].
  assert (∀ X Y, putRegion X (putRegion Y db) = putRegion X db) as Htwice.
  { intros X Y. unfold putRegion, set_regions. simpl. by rewrite insert_insert_eq. }
  rewrite Htwice. rewrite <- (putRegion_same db r Hr) at 2. f_equal.
  destruct r as [ts ps os log]. simpl in *. f_equal.
  - rewrite filter_app.
    rewrite (filter_all (λ t, negb (String.eqb t (JS.trim name))) ts).
    + rewrite filter_cons_False; [by rewrite app_nil_r|].
      simpl. rewrite String.eqb_refl. exact id.
    + intros t Ht. apply negb_true_iff, String.eqb_neq. intros ->. done.
  - destruct (assign_cases (JS.trim name) (JS.trim plate) ps) as [->|(-> & _ & _)].
    + rewrite delete_insert_eq. by apply delete_id.
    + by apply delete_id.
  - apply map_eq. intros k. rewrite lookup_fmap.
    destruct (os !! k) as [o|] eqn:Ho; [|done]. simpl. f_equal.
    rewrite (delete_id _ _ (Halloc k o Ho)). by destruct o.
Qed.

Lemma addTechnician_then_deleteTech_witness :
  after (DeleteTech true "Cy") (after (AddTechnician " Cy" "KAA 003") annSupplied60)
  = annSupplied60.
Proof.
  refine (proj2 (addTechnician_then_deleteTech " Cy" "KAA 003" annSupplied60
                   (regionOf annSupplied60) _ _ _ _ _ _)).
  - by vm_compute.
  - by vm_compute.
  - by vm_compute.
  - apply (bool_decide_unpack _). by vm_compute.
  - by vm_compute.
  - change (map_Forall (λ _ o, allocations o !! JS.trim " Cy" = None)
              (orders (regionOf annSupplied60))).
    apply (bool_decide_unpack _). by vm_compute.
Defined.

(** ** Which handlers can part an invariant *)

Lemma statusInv_keepsTotals db r r1 :
  statusInv db → theRegion db = Some r → keepsTotals r r1 → statusInv (putRegion r1 db).
Proof.
  intros Hinv Hr Hk. apply everyOrder_putRegion; [done|].
  intros no o1 Ho1. destruct (Hk no o1 Ho1) as (o & Ho & Ht & Hs & Hst).
  pose proof (everyOrder_current _ _ _ Hinv Hr no o Ho) as H. simpl in *.
  unfold statusOf in *. by rewrite Hst, Ht, Hs.
Qed.

Lemma suppliedInv_keepsTotals db r r1 :
  suppliedInv db → theRegion db = Some r →
  (∀ no, loggedFor no r1 = loggedFor no r) → keepsTotals r r1 →
  suppliedInv (putRegion r1 db).
Proof.
  intros Hinv Hr Hlog Hk. apply everyOrder_putRegion; [done|].
  intros no o1 Ho1. destruct (Hk no o1 Ho1) as (o & Ho & Ht & Hs & Hst).
  pose proof (everyOrder_current _ _ _ Hinv Hr no o Ho) as H. simpl in *.
  by rewrite Hs, Hlog.
Qed.

Lemma allocInv_keepsAllocs db r r1 :
  allocInv db → theRegion db = Some r → keepsAllocs r r1 → allocInv (putRegion r1 db).
Proof.
  intros Hinv Hr Hk. apply everyOrder_putRegion; [done|].
  intros no o1 Ho1. destruct (Hk no o1 Ho1) as (o & Ho & Ht & Ha).
  pose proof (everyOrder_current _ _ _ Hinv Hr no o Ho) as H. simpl in *.
  unfold allocatedSum in *. by rewrite Ha, Ht.
Qed.

Ltac order_cases Hlk :=
  simpl in Hlk;
  first
    [ match type of Hlk with
      | <[?k := _]> _ !! ?no = Some _ =>
          destruct (decide (no = k)) as [->|?];
          [ rewrite lookup_insert_eq in Hlk; injection Hlk as <-;
            eexists; split; [eassumption|done]
          | rewrite lookup_insert_ne in Hlk by done; eexists; split; [exact Hlk|done] ]
      end
    | match type of Hlk with
      | (_ <$> orders ?r) !! ?no = Some _ =>
          rewrite lookup_fmap in Hlk;
          destruct (orders r !! no) eqn:?; [|done];
          injection Hlk as <-; eexists; split; [reflexivity|done]
      end
    | match type of Hlk with
      | delete _ _ !! _ = Some _ =>
          apply lookup_delete_Some in Hlk as [_ Hlk]; eexists; split; [exact Hlk|done]
      end
    | eexists; split; [exact Hlk|done] ].

(** The handlers that only edit the terms of orders or the technicians. *)
Lemma terms_handlers_keep_totals c db :
  match c with
  | AllocateFuel _ _ _ | SaveOrderDate _ _ _ | SaveAllocEdit _ _ _ _ | SaveOverageComment _ _ _
  | AddTechnician _ _ | DeleteTech _ _ => True
  | _ => False
  end →
  after c db = db
  ∨ ∃ r r1, theRegion db = Some r
            ∧ (after c db = putRegion r1 db ∨ ∃ ui, after c db = renderOrders ui (putRegion r1 db))
            ∧ dailyLog r1 = dailyLog r ∧ keepsTotals r r1.
Proof.
  intros Hc. unfold after.
  destruct c; try done; simpl;
    unfold allocateFuel, saveOrderDate, saveAllocEdit, saveOverageComment, addTechnician,
      deleteTech, withRegion;
    try (destruct ctx as [[? ?]|]; [|by left]);
    try (destruct (negb (JS.truthy_str (JS.trim commentInput))); [by left|]);
    (destruct (theRegion db) as [r|] eqn:Hr; [|by left]);
    repeat (case_match; try (by left));
    right; exists r; eexists;
    (split; [reflexivity|]);
    (split; [first [left; reflexivity | right; eexists; reflexivity]|]);
    (split; [reflexivity|]);
    intros no o1 Hlk; order_cases Hlk.
Qed.

Lemma terms_handlers_keep_allocs c db :
  match c with
  | SaveOrderDate _ _ _ | SaveOverageComment _ _ _ | AddTechnician _ _ | DeleteOrder _ _ _ => True
  | _ => False
  end →
  after c db = db
  ∨ ∃ r r1, theRegion db = Some r
            ∧ (after c db = putRegion r1 db ∨ ∃ ui, after c db = renderOrders ui (putRegion r1 db))
            ∧ keepsAllocs r r1.
Proof.
  intros Hc. unfold after.
  destruct c; try done; simpl;
    unfold saveOrderDate, deleteOrder, saveOverageComment, addTechnician, withRegion;
    try (destruct ctx as [[? ?]|]; [|by left]);
    try (destruct (negb (JS.truthy_str (JS.trim commentInput))); [by left|]);
    (destruct (theRegion db) as [r|] eqn:Hr; [|by left]);
    repeat (case_match; try (by left));
    right; exists r; eexists;
    (split; [reflexivity|]);
    (split; [first [left; reflexivity | right; eexists; reflexivity]|]);
    intros no o1 Hlk; order_cases Hlk.
Qed.

Lemma everyOrder_regions (P : Region → string → Order → Prop) c db :
  match c with
  | ChangeRegion _ | AddRegion _ | DeleteRegion _ _ | ConfirmRename (Some (RenameRegion _)) _
  | ConfirmRename None _ => True
  | _ => False
  end →
  everyOrder P db → everyOrder P (after c db).
Proof.
  intros Hc Hinv. unfold after. destruct c; try done; simpl.
  - unfold changeRegion. by rewrite populateRegions_snd.
  - unfold addRegion. destruct (_ || _); [done|]. rewrite populateRegions_snd. simpl.
    apply map_Forall_insert_2; [apply map_Forall_empty|done].
  - unfold deleteRegion. case_bool_decide; [done|].
    destruct (regions db !! rName); [|done]. destruct confirmed; [|done].
    cbn [negb]. rewrite populateRegions_snd. by apply map_Forall_delete.
  - unfold confirmRename. destruct ctx as [[old|old]|]; [|done|done].
    destruct (negb _); [done|]. unfold _renameRegion.
    destruct (String.eqb _ old); [done|]. destruct (JS.has _ _); [done|].
    destruct (regions db !! old) as [r|] eqn:Hold; [|done]. rewrite populateRegions_snd.
    apply map_Forall_delete, map_Forall_insert_2; [|done].
    exact (Hinv _ _ Hold).
Qed.

Lemma renameTech_keeps_totals (P : Region → string → Order → Prop) oldName newName db :
  (∀ r no o, P r no o →
     P (renameInRegion oldName newName r) no (renameInOrder oldName newName o)) →
  everyOrder P db → everyOrder P (_renameTech oldName newName db).2.
Proof.
  intros HP Hinv. unfold _renameTech. destruct (String.eqb _ _); [done|].
  rewrite populateRegions_snd.
  apply map_Forall_fmap. intros k r Hk. simpl.
  pose proof (Hinv k r Hk) as Hr. simpl in Hr.
  destruct (JS.indexOf oldName (technicians r)) as [idx|] eqn:Hidx.
  - intros no o' Hlk.
    assert (orders (renameInRegion oldName newName r)
            = renameInOrder oldName newName <$> orders r) as Hos
      by (unfold renameInRegion; by rewrite Hidx).
    rewrite Hos, lookup_fmap in Hlk.
    destruct (orders r !! no) as [o|] eqn:Ho; [|done]. injection Hlk as <-.
    apply HP. exact (Hr no o Ho).
  - unfold renameInRegion. by rewrite Hidx.
Qed.

Lemma loggedFor_renameInRegion no oldName newName r :
  loggedFor no (renameInRegion oldName newName r) = loggedFor no r.
Proof.
  unfold renameInRegion. destruct (JS.indexOf oldName (technicians r)); [|done].
  rewrite !loggedFor_logSum. simpl. apply logSum_fmap. intros es. apply loggedIn_renamed.
Qed.

(** X23. Except for [createOrder], [confirmClone], [deleteDailyEntry] and a
    restore, every handler keeps the status of every order in step with
    its totals, whatever its input. *)
Theorem status_kept_whatever_the_input c db :
  keepsStatus c = true → statusInv db → statusInv (after c db).
Proof.
  intros Hc Hinv.
  assert (∀ c', match c' with
                | AllocateFuel _ _ _ | SaveOrderDate _ _ _ | SaveAllocEdit _ _ _ _
                | SaveOverageComment _ _ _ | AddTechnician _ _ | DeleteTech _ _ => True
                | _ => False
                end → statusInv (after c' db)) as Hterms.
  { intros c' Hc'.
    destruct (terms_handlers_keep_totals c' db Hc') as [->|(r & r1 & Hr & Hdb & _ & Hk)]; [done|].
    pose proof (statusInv_keepsTotals db r r1 Hinv Hr Hk) as H1.
    destruct Hdb as [->|[ui ->]]; [done|by apply statusInv_renderOrders]. }
  destruct c; try discriminate Hc; try (by apply Hterms);
    try (by apply everyOrder_regions).
  - unfold after. simpl. unfold deleteOrder, withRegion.
    destruct (theRegion db) as [r|] eqn:Hr; [|done].
    destruct (orders r !! orderNo_) as [o|] eqn:Ho; [|done].
    destruct confirmed; [|done]. cbn [negb snd].
    apply statusInv_renderOrders, everyOrder_putRegion; [done|]. simpl.
    apply map_Forall_delete. exact (everyOrder_current _ _ _ Hinv Hr).
  - by apply statusInv_renderOrders.
  - by apply (daily_handlers_keep_statusInv db Hinv).
  - by apply (daily_handlers_keep_statusInv db Hinv).
  - unfold after. simpl. unfold confirmRename. destruct ctx as [[old|old]|]; [| |done].
    + by apply (everyOrder_regions _ (ConfirmRename (Some (RenameRegion old)) renameInput)).
    + destruct (negb _); [done|]. by apply renameTech_keeps_totals.
Qed.

Lemma status_kept_whatever_the_input_witness :
  statusInv (after (SaveDaily noFilter day1 [secondCard]) editedBack).
Proof.
  apply (status_kept_whatever_the_input (SaveDaily noFilter day1 [secondCard]) editedBack eq_refl).
  by apply (bool_decide_unpack _); vm_compute.
Defined.

(** X24. Within the scope of the embedding (whole litres whose magnitudes
    add up to less than [2^53], no name that [Object.prototype] defines, a
    region rename opened on a region): except for [createOrder],
    [confirmClone], [saveEditEntry], [deleteDailyEntry] and a restore,
    every handler keeps the supplied total of every order equal to the
    litres logged against it, whatever else its input is: a batch saved
    from cards with out-of-date bounds included. *)
Theorem supplied_kept_whatever_the_input c db :
  inScope c db → keepsSupplied c = true → suppliedInv db → suppliedInv (after c db).
Proof.
  intros _ Hc Hinv.
  assert (∀ c', match c' with
                | AllocateFuel _ _ _ | SaveOrderDate _ _ _ | SaveAllocEdit _ _ _ _
                | SaveOverageComment _ _ _ | AddTechnician _ _ | DeleteTech _ _ => True
                | _ => False
                end → suppliedInv (after c' db)) as Hterms.
  { intros c' Hc'.
    destruct (terms_handlers_keep_totals c' db Hc') as [->|(r & r1 & Hr & Hdb & Hlog & Hk)];
      [done|].
    assert (suppliedInv (putRegion r1 db)) as H1.
    { apply (suppliedInv_keepsTotals db r r1 Hinv Hr); [|done].
      intros no. by apply loggedFor_same_log. }
    destruct Hdb as [->|[ui ->]]; [done|by apply suppliedInv_renderOrders]. }
  destruct c; try discriminate Hc; try (by apply Hterms);
    try (by apply everyOrder_regions).
  - by apply deleteOrder_keeps_suppliedInv.
  - by apply suppliedInv_renderOrders.
  - by apply saveDaily_keeps_suppliedInv.
  - unfold after. simpl. unfold confirmRename. destruct ctx as [[old|old]|]; [| |done].
    + by apply (everyOrder_regions _ (ConfirmRename (Some (RenameRegion old)) renameInput)).
    + destruct (negb _); [done|]. apply renameTech_keeps_totals; [|done].
      intros r no o H. simpl in *. by rewrite loggedFor_renameInRegion.
Qed.

Lemma supplied_kept_whatever_the_input_witness :
  supp_input_max secondCard = Some (-50)
  ∧ suppliedInv (after (SaveDaily noFilter day1 [secondCard]) editedBack).
Proof.
  split; [by vm_compute|].
  apply (supplied_kept_whatever_the_input (SaveDaily noFilter day1 [secondCard]) editedBack).
  - by apply (bool_decide_unpack _); vm_compute.
  - done.
  - by apply (bool_decide_unpack _); vm_compute.
Defined.

Lemma saveCard_allocs d st card :
  ∀ no o', orders (saveCard d st card).1.1 !! no = Some o' →
           ∃ o, orders st.1.1 !! no = Some o ∧ totalLiters o' = totalLiters o
                ∧ allocations o' = allocations o.
Proof.
  destruct st as [[region saved] skipped]. intros no o'. unfold saveCard.
  repeat (case_match; simpl; try (intros Hlk; exists o'; by split)).
  subst. intros Hlk.
  match goal with Ho : orders region !! ?k = Some ?o |- _ =>
    destruct (decide (k = no)) as [->|Hne];
    [rewrite lookup_insert_eq in Hlk; injection Hlk as <-; exists o
    |rewrite lookup_insert_ne in Hlk by done; exists o'; by split]
  end.
  by split.
Qed.

Lemma foldl_saveCard_allocs d cards : ∀ st no o',
  orders (foldl (saveCard d) st cards).1.1 !! no = Some o' →
  ∃ o, orders st.1.1 !! no = Some o ∧ totalLiters o' = totalLiters o
       ∧ allocations o' = allocations o.
Proof.
  induction cards as [|card cards IH]; intros st no o' H; simpl in H.
  - exists o'. by split.
  - destruct (IH _ _ _ H) as (o1 & H1 & Ht1 & Ha1).
    destruct (saveCard_allocs d st card no o1 H1) as (o & Ho & Ht & Ha).
    exists o. split; [done|]. split; congruence.
Qed.

Lemma closeFilled_allocs o :
  totalLiters (closeFilled o) = totalLiters o ∧ allocations (closeFilled o) = allocations o.
Proof. unfold closeFilled. by case_match. Qed.

Lemma daily_handlers_keep_allocs c db :
  match c with
  | SaveDaily _ _ _ | SaveEditEntry _ _ _ _ | DeleteDailyEntry _ _ _ _ => True
  | _ => False
  end →
  allocInv db → allocInv (after c db).
Proof.
  intros Hc Hinv. unfold after. destruct c; try done; simpl.
  - unfold saveDaily, withRegion. destruct (negb _); [done|].
    destruct (theRegion db) as [r|] eqn:Hr; [|done].
    set (region1 := match dailyLog r !! d with
                    | Some _ => r
                    | None => set_dailyLog (<[d := []]> (dailyLog r)) r
                    end).
    assert (orders region1 = orders r) as Ho1 by (unfold region1; by case_match).
    destruct cards as [|c0 cards0].
    { simpl. apply everyOrder_putRegion; [done|]. rewrite Ho1.
      exact (everyOrder_current _ _ _ Hinv Hr). }
    pose proof (foldl_saveCard_allocs d (c0 :: cards0) (region1, 0%nat, 0%nat)) as Hfold.
    destruct (foldl (saveCard d) (region1, 0%nat, 0%nat) (c0 :: cards0))
      as [[region2 saved] skipped]. cbn [snd].
    apply allocInv_renderOrders, (allocInv_keepsAllocs db r); [done|done|].
    intros no o3 Hlk. simpl in Hlk. rewrite lookup_fmap in Hlk.
    destruct (orders region2 !! no) as [o2|] eqn:Ho2; [|done]. injection Hlk as <-.
    destruct (Hfold no o2 Ho2) as (o & Ho & Ht & Ha). simpl in Ho. rewrite Ho1 in Ho.
    exists o. destruct (closeFilled_allocs o2) as [-> ->]. by split.
  - unfold saveEditEntry, withRegion. destruct ctx as [[date idx]|]; [|done].
    destruct (theRegion db) as [r|] eqn:Hr; [|done].
    destruct (dailyLog r !! date) as [entries|]; [|done].
    destruct (entries !! idx) as [entry|]; [|done].
    destruct (_ || _); [done|]. destruct (_ && _); [done|]. cbn [snd].
    assert (∀ x, allocInv x → allocInv (renderOrdersIfActive ui x)) as Hren.
    { intros x Hx. unfold renderOrdersIfActive.
      destruct (pageOrdersActive ui); [by apply allocInv_renderOrders|done]. }
    apply Hren, (allocInv_keepsAllocs db r); [done|done|].
    intros no o1 Hlk. simpl in Hlk.
    destruct (updateReferenced_lookup _ entry r no o1 Hlk) as (o & Ho & [->|(-> & _)]).
    + by exists o.
    + exists o. split; [done|]. by destruct (applyEdit_static (suppliedInput - supplied entry) o)
        as (_ & ? & ?).
  - unfold deleteDailyEntry, withRegion.
    destruct (theRegion db) as [r|] eqn:Hr; [|done].
    destruct (dailyLog r !! date) as [entries|]; [|done].
    destruct (entries !! idx) as [entry|]; [|done].
    destruct confirmed; [|done]. cbn [negb snd].
    assert (∀ x, allocInv x → allocInv (renderOrdersIfActive ui x)) as Hren.
    { intros x Hx. unfold renderOrdersIfActive.
      destruct (pageOrdersActive ui); [by apply allocInv_renderOrders|done]. }
    apply Hren, (allocInv_keepsAllocs db r); [done|done|].
    intros no o1 Hlk. simpl in Hlk.
    destruct (updateReferenced_lookup _ entry r no o1 Hlk) as (o & Ho & [->|(-> & _)]).
    + by exists o.
    + exists o. split; [done|]. by destruct (applyDelete_static entry o) as (_ & ? & ?).
Qed.

(** X25. Within the scope of the embedding (whole litres whose magnitudes
    add up to less than [2^53], no name that [Object.prototype] defines, a
    region rename opened on a region): except for [createOrder],
    [deleteTech], a rename of a technician and a restore, every handler
    keeps the allocations of every order within the order total, whatever
    else its input is. *)
Theorem allocations_kept_whatever_the_input c db :
  inScope c db → keepsAllocations c = true → allocInv db → allocInv (after c db).
Proof.
  intros _ Hc Hinv.
  assert (∀ c', match c' with
                | SaveOrderDate _ _ _ | SaveOverageComment _ _ _ | AddTechnician _ _
                | DeleteOrder _ _ _ => True
                | _ => False
                end → allocInv (after c' db)) as Hterms.
  { intros c' Hc'.
    destruct (terms_handlers_keep_allocs c' db Hc') as [->|(r & r1 & Hr & Hdb & Hk)]; [done|].
    pose proof (allocInv_keepsAllocs db r r1 Hinv Hr Hk) as H1.
    destruct Hdb as [->|[ui ->]]; [done|by apply allocInv_renderOrders]. }
  destruct c; try discriminate Hc; try (by apply Hterms);
    try (by apply everyOrder_regions); try (by apply daily_handlers_keep_allocs).
  - by apply (allocation_handlers_keep_allocInv db Hinv).
  - by apply (allocation_handlers_keep_allocInv db Hinv).
  - unfold after. simpl. unfold confirmClone, withRegion.
    destruct (theRegion db) as [r|] eqn:Hr; [|done].
    destruct (orders r !! default "null" source) as [o|] eqn:Ho; [|done].
    destruct (negb _); [done|]. destruct (JS.has _ _); [done|]. cbn [snd].
    apply allocInv_renderOrders, everyOrder_putRegion; [done|]. simpl.
    apply map_Forall_insert_2; [|exact (everyOrder_current _ _ _ Hinv Hr)].
    exact (everyOrder_current _ _ _ Hinv Hr _ o Ho).
  - by apply allocInv_renderOrders.
  - destruct ctx as [[old|old]|]; [|done|].
    + by apply (everyOrder_regions _ (ConfirmRename (Some (RenameRegion old)) renameInput)).
    + by apply (everyOrder_regions _ (ConfirmRename None renameInput)).
Qed.

Lemma allocations_kept_whatever_the_input_witness :
  allocations <$> orderOf "O7" (after (ConfirmClone noFilter day1 (Some "O1") "O7" "")
                                      annSupplied60) = Some {["Ann" := 60]}
  ∧ allocInv (after (ConfirmClone noFilter day1 (Some "O1") "O7" "") annSupplied60).
Proof.
  split; [by vm_compute|].
  apply (allocations_kept_whatever_the_input (ConfirmClone noFilter day1 (Some "O1") "O7" "")
           annSupplied60).
  - by apply (bool_decide_unpack _); vm_compute.
  - done.
  - by apply (bool_decide_unpack _); vm_compute.
Defined.

(** ** A fresh card and the allocation *)






(** ** The summary card of a date *)

Lemma addToSummary_lookup m e t :
  JS.inherited (technician e) = false →
  addToSummary m e !! t
  = if String.eqb (technician e) t
    then Some (match m !! t with
               | Some ts => mkTechSummary (ts_technician ts) (ts_supplied ts + supplied e)
                              (ts_orderNo ts) (ts_balance ts)
               | None => mkTechSummary t (supplied e)
                           (JS.or_str (default "" (entryOrderNo e)) dash) 0
               end)
    else m !! t.
Proof.
  intros Hp. unfold addToSummary, JS.has. rewrite Hp, orb_false_r.
  destruct (String.eqb_spec (technician e) t) as [->|Hne].
  - rewrite lookup_alter_eq. case_bool_decide as Hs.
    + destruct Hs as [ts Hts]. by rewrite Hts.
    + rewrite lookup_insert_eq. destruct (m !! t) eqn:E; [exfalso; apply Hs; by eexists|].
      simpl. done.
  - rewrite lookup_alter_ne by done. case_bool_decide; [done|]. by rewrite lookup_insert_ne.
Qed.

Lemma summary_fold t (entries : list Entry) : ∀ m : gmap string TechSummary,
  Forall (λ e, JS.inherited (technician e) = false) entries →
  foldl addToSummary m entries !! t
  = match m !! t, filter (λ e, String.eqb (technician e) t) entries with
    | Some ts, mine =>
        Some (mkTechSummary (ts_technician ts) (ts_supplied ts + JS.sum (supplied <$> mine))
                (ts_orderNo ts) (ts_balance ts))
    | None, [] => None
    | None, e0 :: mine =>
        Some (mkTechSummary t (JS.sum (supplied <$> e0 :: mine))
                (JS.or_str (default "" (entryOrderNo e0)) dash) 0)
    end.
Proof.
  induction entries as [|e es IH]; intros m Hplain.
  - simpl. destruct (m !! t) as [[? ? ? ?]|]; [|done]. simpl. f_equal. f_equal. lia.
  - apply Forall_cons in Hplain as [Hp Hps].
    cbn [foldl]. rewrite IH, addToSummary_lookup by done.
    destruct (String.eqb (technician e) t) eqn:E.
    + rewrite filter_cons_True by (simpl; rewrite E; exact I).
      assert (∀ x l, JS.sum (x :: l) = x + JS.sum l) as Hcons by done.
      destruct (m !! t) as [ts|]; rewrite fmap_cons, Hcons;
        set (rest := JS.sum (supplied <$> filter (λ e, String.eqb (technician e) t) es));
        simpl; f_equal; f_equal; lia.
    + rewrite filter_cons_False by (simpl; rewrite E; exact id). done.
Qed.

Lemma summary_sum_step (m : gmap string TechSummary) e :
  JS.inherited (technician e) = false →
  JS.sum (ts_supplied <$> JS.values (addToSummary m e))
  = JS.sum (ts_supplied <$> JS.values m) + supplied e.
Proof.
  intros Hp.
  assert (∀ m' : gmap string TechSummary,
            ts_supplied <$> JS.values m' = JS.values (ts_supplied <$> m')) as Hv.
  { intros m'. unfold JS.values. rewrite map_to_list_fmap, <- !list_fmap_compose.
    apply list_fmap_ext. by intros i [k x] _. }
  rewrite !Hv.
  assert (ts_supplied <$> addToSummary m e
          = <[technician e := default 0 ((ts_supplied <$> m) !! technician e) + supplied e]>
              (ts_supplied <$> m)) as ->.
  { apply map_eq. intros k. rewrite lookup_fmap, addToSummary_lookup by done.
    destruct (String.eqb_spec (technician e) k) as [->|Hne].
    - rewrite lookup_insert_eq, lookup_fmap. by destruct (m !! k).
    - by rewrite lookup_insert_ne, lookup_fmap. }
  rewrite sum_values_insert. lia.
Qed.

Lemma summary_sum (entries : list Entry) : ∀ m : gmap string TechSummary,
  Forall (λ e, JS.inherited (technician e) = false) entries →
  JS.sum (ts_supplied <$> JS.values (foldl addToSummary m entries))
  = JS.sum (ts_supplied <$> JS.values m) + JS.sum (supplied <$> entries).
Proof.
  induction entries as [|e es IH]; intros m Hplain; cbn [foldl].
  - rewrite fmap_nil. assert (JS.sum [] = 0) as -> by done. lia.
  - apply Forall_cons in Hplain as [Hp Hps].
    rewrite IH, summary_sum_step, fmap_cons by done.
    assert (∀ x l, JS.sum (x :: l) = x + JS.sum l) as -> by done. lia.
Qed.

(** A technician whose name [Object.prototype] defines gets no row. *)
Lemma addToSummary_inherited m e :
  JS.inherited (technician e) = true → m !! technician e = None → addToSummary m e = m.
Proof.
  intros Hin Hnone. unfold addToSummary, JS.has. rewrite Hin, orb_true_r.
  apply map_eq. intros k. destruct (decide (k = technician e)) as [->|Hne].
  - by rewrite lookup_alter_eq, Hnone.
  - by rewrite lookup_alter_ne.
Qed.

(** X27. For whole litres whose magnitudes add up to less than [2^53] and
    entries whose technicians and order numbers are names that
    [Object.prototype] does not define: the summary card of a date has one
    row for each technician with an entry on that date: it shows the sum of
    the technician's entries, the order number of the first of them (a dash
    when it has none) and the balance of that order, also when later
    entries went to other orders.  The litres of the rows add up to the
    litres of the date.  (An entry under an inherited name adds no row.) *)
Theorem day_summary_rows region entries t :
  regionMagnitude region + logMagnitude entries ≤ MAX_SAFE_INTEGER →
  Forall plainEntry entries →
  techSummaries region entries !! t
  = match filter (λ e, String.eqb (technician e) t) entries with
    | [] => None
    | e0 :: mine =>
        let no := JS.or_str (default "" (entryOrderNo e0)) dash in
        Some (mkTechSummary t (JS.sum (supplied <$> e0 :: mine)) no
                (match (if String.eqb no dash then None else orders region !! no) with
                 | Some order => totalLiters order - suppliedTotal order
                 | None => 0
                 end))
    end
  ∧ JS.sum (ts_supplied <$> JS.values (techSummaries region entries))
    = JS.sum (supplied <$> entries).
Proof.
  intros _ Hplain.
  assert (Forall (λ e, JS.inherited (technician e) = false) entries) as Hp.
  { eapply Forall_impl; [exact Hplain|]. by intros e [? _]. }
  split.
  - unfold techSummaries. rewrite lookup_fmap, summary_fold, lookup_empty by done.
    destruct (filter _ entries) as [|e0 mine]; [done|]. simpl.
    unfold withBalance. simpl.
    destruct (String.eqb _ dash); [done|]. by destruct (orders region !! _).
  - unfold techSummaries.
    assert (∀ m : gmap string TechSummary,
              ts_supplied <$> JS.values (withBalance region <$> m) = ts_supplied <$> JS.values m)
      as ->.
    { intros m. unfold JS.values. rewrite map_to_list_fmap, <- !list_fmap_compose.
      apply list_fmap_ext. intros i [k x] _. simpl. unfold withBalance.
      by repeat case_match. }
    rewrite summary_sum by done. unfold JS.values. by rewrite map_to_list_empty.
Qed.

(** Ann's 60 litres on O1, whose balance is then 40; and an entry under
    the name [constructor], which gets no row. *)
Lemma day_summary_rows_witness :
  techSummaries (regionOf annSupplied60) [mkEntry (Some "O1") "Ann" 60 None false] !! "Ann"
  = Some (mkTechSummary "Ann" 60 "O1" 40).
Proof.
  rewrite (proj1 (day_summary_rows (regionOf annSupplied60)
                    [mkEntry (Some "O1") "Ann" 60 None false] "Ann"
                    ltac:(by vm_compute)
                    ltac:(by apply (bool_decide_unpack _); vm_compute))).
  by vm_compute.
Defined.

Lemma summary_skips_inherited_name :
  techSummaries emptyRegion [mkEntry None "constructor" 5 (Some "top-up") true] = ∅.
Proof. by vm_compute. Qed.
